(** * websitestats-fastapi: the real-time event-delivery subsystem

    A shallow embedding of
      - [websocket_manager.py]  (the connection registry),
      - [main.py]               (the [/ws/live] endpoint),
      - [notifications.py]      (the notification store's read/mark-read API),
      - [installations.py], [sales.py] (the two call sites that persist a
        notification and push it over the live connections),
    together with the properties of the durable-write / best-effort-push
    pattern that the specification states about them.

    Python objects are mutable and exceptions do not undo mutations, so the
    code is embedded in a state monad whose result is either a value or a
    raised exception, the state being kept in both cases. *)

From stdpp Require Import gmap strings list fin_maps functions pretty.

#[local] Set Warnings "-clear-no-such-hyp".

Open Scope Z_scope.

(* ===================================================================== *)
(** ** Exceptions and the state/exception monad                           *)
(* ===================================================================== *)

(** The exceptions the embedded code raises or catches.  All of them are
    subclasses of Python's [Exception], so [except Exception] catches each. *)
Inductive exn : Type :=
  | WebSocketDisconnect                       (* starlette: transport gone *)
  | RuntimeError (what : string)              (* starlette: wrong state *)
  | DatabaseError (what : string)             (* mysql.connector.Error *)
  | JWTError                                  (* jose: bad or expired token *)
  | TypeError (what : string)                 (* e.g. int(None) *)
  | HTTPException (status_code : Z) (detail : string).

Inductive res (A : Type) : Type :=
  | Ok (a : A)
  | Raise (e : exn).
Arguments Ok {A} a.
Arguments Raise {A} e.

Definition M (S A : Type) : Type := S → res A * S.

Definition ret {S A} (a : A) : M S A := λ s, (Ok a, s).
Definition raise {S A} (e : exn) : M S A := λ s, (Raise e, s).
Definition bind {S A B} (c : M S A) (k : A → M S B) : M S B :=
  λ s, match c s with
       | (Ok a, s') => k a s'
       | (Raise e, s') => (Raise e, s')
       end.
Definition gets {S A} (f : S → A) : M S A := λ s, (Ok (f s), s).
Definition modify {S} (f : S → S) : M S unit := λ s, (Ok tt, f s).

(** [try: c except Exception as e: h e] *)
Definition try_except {S A} (c : M S A) (h : exn → M S A) : M S A :=
  λ s, match c s with
       | (Ok a, s') => (Ok a, s')
       | (Raise e, s') => h e s'
       end.

(** [try: c finally: f] *)
Definition try_finally {S A} (c : M S A) (f : M S unit) : M S A :=
  λ s, match c s with
       | (r, s') => match f s' with
                    | (Ok _, s'') => (r, s'')
                    | (Raise e, s'') => (Raise e, s'')
                    end
       end.

Declare Scope py_scope.
Delimit Scope py_scope with py.
Notation "x <- c ;; k" := (bind c (λ x, k))
  (at level 100, c at next level, right associativity) : py_scope.
Notation "c ;; k" := (bind c (λ _, k))
  (at level 100, right associativity) : py_scope.
Open Scope py_scope.

(** [for x in xs: body x] *)
Fixpoint for_each {S A} (xs : list A) (body : A → M S unit) : M S unit :=
  match xs with
  | [] => ret tt
  | x :: rest => body x ;; for_each rest body
  end.

(** A [for] loop that updates a local variable [acc] on each turn. *)
Fixpoint for_acc {S A B} (xs : list A) (acc : B) (body : B → A → M S B) : M S B :=
  match xs with
  | [] => ret acc
  | x :: rest => acc' <- body acc x ;; for_acc rest acc' body
  end.

(** Run a computation on a component of a larger state. *)
Definition zoom {S T A} (get : T → S) (set : S → T → T) (c : M S A) : M T A :=
  λ t, match c (get t) with (r, s') => (r, set s' t) end.

(** Calling an [async def] function only builds a coroutine object; its body
    runs when the object is awaited.  Every [await f(...)] of the source is
    embedded as the computation [f ...] itself; a call whose coroutine object
    is dropped without [await] runs nothing. *)
Definition not_awaited {S A} (coroutine : M S A) : M S unit := ret tt.

(* ===================================================================== *)
(** ** JSON values (the [dict] messages sent with [send_json])            *)
(* ===================================================================== *)

#[local] Set Warnings "-register-all".
Inductive Json : Type :=
  | JNull
  | JInt (n : Z)
  | JStr (s : string)
  | JList (items : list Json)
  | JDict (fields : list (string * Json)).

(** The keys of a Python [dict], in insertion order. *)
Definition keys (j : Json) : list string :=
  match j with
  | JDict fields => fields.*1
  | _ => []
  end.

(** [d.get(k)] on a dict literal (keys of the literals are distinct). *)
Definition dict_get (k : string) (j : Json) : option Json :=
  match j with
  | JDict fields => (λ kv, kv.2.2) <$> list_find (λ kv, kv.1 = k) fields
  | _ => None
  end.

(* ===================================================================== *)
(** ** websocket_manager.py                                               *)
(* ===================================================================== *)

(** [starlette.websockets.WebSocketState] *)
Inductive WebSocketState : Type := CONNECTING | CONNECTED | DISCONNECTED | RESPONSE.

Global Instance WebSocketState_eq_dec : EqDecision WebSocketState.
Proof. solve_decision. Defined.

(** A [WebSocket] object is hashed and compared by identity: it is modelled
    by the number that identifies the object. *)
Abbreviation WebSocket := nat (only parsing).

(** The state the registry code reads and writes:
    - [connections]: the manager's [_connections : Dict[int, Set[WebSocket]]];
    - [application_state]: the attribute of that name of each socket object;
    - [broken]: whether a write on the socket's transport fails (the peer is
      gone); the environment decides it, the code can only observe it as an
      exception;
    - [wire]: the frames that were written successfully, oldest first. *)
Record World : Type := mkWorld {
  connections : gmap Z (gset WebSocket);
  application_state : WebSocket → WebSocketState;
  broken : WebSocket → bool;
  wire : list (WebSocket * Json);
}.

Definition set_connections (f : gmap Z (gset WebSocket) → gmap Z (gset WebSocket))
    (w : World) : World :=
  mkWorld (f (connections w)) (application_state w) (broken w) (wire w).
Definition set_application_state (ws : WebSocket) (st : WebSocketState) (w : World) : World :=
  mkWorld (connections w) (<[ws := st]> (application_state w)) (broken w) (wire w).
Definition set_broken (ws : WebSocket) (b : bool) (w : World) : World :=
  mkWorld (connections w) (application_state w) (<[ws := b]> (broken w)) (wire w).
Definition push_wire (ws : WebSocket) (message : Json) (w : World) : World :=
  mkWorld (connections w) (application_state w) (broken w) (wire w ++ [(ws, message)]).

(** The world of a freshly started process: [ConnectionManager()] has an empty
    dict, every socket object yet to be created starts in [CONNECTING]. *)
Definition initial_world (broken0 : WebSocket → bool) : World :=
  mkWorld ∅ (λ _, CONNECTING) broken0 [].

(** *** The part of Starlette's [WebSocket] the manager calls

    [WebSocket.send] checks [application_state], moves it on an accept or a
    close message and then hands the message to the transport; the transport
    write raises when the peer is gone. *)
Module Starlette.

Definition transport_write (ws : WebSocket) : M World unit :=
  b <- gets (λ w, broken w ws) ;;
  if b then raise WebSocketDisconnect else ret tt.

Definition accept (ws : WebSocket) : M World unit :=
  st <- gets (λ w, application_state w ws) ;;
  match st with
  | CONNECTING => modify (set_application_state ws CONNECTED) ;; transport_write ws
  | _ => raise (RuntimeError "accept: unexpected state")
  end.

Definition send_json (ws : WebSocket) (message : Json) : M World unit :=
  st <- gets (λ w, application_state w ws) ;;
  match st with
  | CONNECTED => transport_write ws ;; modify (push_wire ws message)
  | _ => raise (RuntimeError "send: socket is not connected")
  end.

Definition close (ws : WebSocket) : M World unit :=
  st <- gets (λ w, application_state w ws) ;;
  match st with
  | CONNECTING | CONNECTED =>
      modify (set_application_state ws DISCONNECTED) ;; transport_write ws
  | _ => raise (RuntimeError "close: a close message has been sent")
  end.

End Starlette.

Module websocket_manager_py.

(** [ConnectionManager._is_open] *)
Definition _is_open (ws : WebSocket) : M World bool :=
  gets (λ w, bool_decide (application_state w ws = CONNECTED)).

(** [ConnectionManager._safe_close] *)
Definition _safe_close (ws : WebSocket) : M World unit :=
  try_except
    (st <- gets (λ w, application_state w ws) ;;
     if bool_decide (st = CONNECTED) then Starlette.close ws else ret tt)
    (λ _, ret tt).

(** [ConnectionManager.user_connection_count] *)
Definition user_connection_count (user_id : Z) : M World nat :=
  gets (λ w, size (default ∅ (connections w !! user_id))).

(** [ConnectionManager.total_connection_count] *)
Definition total_connection_count : M World nat :=
  gets (λ w, sum_list (size <$> (map_to_list (connections w)).*2)).

(** [ConnectionManager.connect] *)
Definition connect (user_id : Z) (websocket : WebSocket) : M World unit :=
  Starlette.accept websocket ;;
  modify (set_connections (λ conns,
    (* self._connections.setdefault(user_id, set()).add(websocket) *)
    <[user_id := default ∅ (conns !! user_id) ∪ {[websocket]}]> conns)) ;;
  _ <- user_connection_count user_id ;;      (* only logged *)
  ret tt.

(** [ConnectionManager.disconnect] *)
Definition disconnect (user_id : Z) : M World unit :=
  sockets <- gets (λ w, default ∅ (connections w !! user_id)) ;;
  modify (set_connections (delete user_id)) ;;
  for_each (elements sockets) _safe_close.

(** The locked block of [disconnect_socket]. *)
Definition remove_socket (user_id : Z) (websocket : WebSocket)
    (conns : gmap Z (gset WebSocket)) : gmap Z (gset WebSocket) :=
  match conns !! user_id with
  | Some s =>
      if bool_decide (s ≠ ∅) && bool_decide (websocket ∈ s) then
        let s' := s ∖ {[websocket]} in
        if bool_decide (s' = ∅) then delete user_id conns
        else <[user_id := s']> conns
      else conns
  | None => conns
  end.

(** [ConnectionManager.disconnect_socket] *)
Definition disconnect_socket (user_id : Z) (websocket : WebSocket) : M World unit :=
  modify (set_connections (remove_socket user_id websocket)) ;;
  _safe_close websocket.

(** One turn of the loop shared by [send_personal_message] and [broadcast]:
    [[
      for ws in sockets:
          if not self._is_open(ws):
              dead.append(ws); continue
          try:    await ws.send_json(message)
          except Exception: dead.append(ws)
    ]]
    It returns the list [dead] as the turn leaves it. *)
Definition try_send (message : Json) (dead : list WebSocket) (ws : WebSocket)
    : M World (list WebSocket) :=
  open <- _is_open ws ;;
  if negb open then ret (dead ++ [ws])
  else try_except (Starlette.send_json ws message ;; ret dead)
                  (λ _, ret (dead ++ [ws])).

(** The loop, started with [dead = []]. *)
Definition send_to_sockets (message : Json) (sockets : list WebSocket)
    : M World (list WebSocket) :=
  for_acc sockets [] (try_send message).

(** The locked block that follows the loop:
    [[
      s = self._connections.get(user_id)
      if s:
          for ws in dead: s.discard(ws)
          if not s: self._connections.pop(user_id, None)
    ]] *)
Definition discard_dead (user_id : Z) (dead : list WebSocket)
    (conns : gmap Z (gset WebSocket)) : gmap Z (gset WebSocket) :=
  match conns !! user_id with
  | Some s =>
      if bool_decide (s ≠ ∅) then
        let s' := foldl (λ acc ws, acc ∖ {[ws]}) s dead in
        if bool_decide (s' = ∅) then delete user_id conns
        else <[user_id := s']> conns
      else conns
  | None => conns
  end.

(** [if dead: ...] of both senders. *)
Definition prune (user_id : Z) (dead : list WebSocket) : M World unit :=
  match dead with
  | [] => ret tt
  | _ =>
      modify (set_connections (discard_dead user_id dead)) ;;
      for_each dead _safe_close
  end.

(** [ConnectionManager.send_personal_message] *)
Definition send_personal_message (message : Json) (user_id : Z) : M World unit :=
  sockets <- gets (λ w, elements (default ∅ (connections w !! user_id))) ;;
  match sockets with
  | [] => ret tt                                  (* logs a warning *)
  | _ =>
      dead <- send_to_sockets message sockets ;;
      prune user_id dead
  end.

(** [ConnectionManager.broadcast] *)
Definition broadcast (message : Json) : M World unit :=
  snapshot <- gets (λ w,
    (λ '(uid, socks), (uid, elements socks)) <$> map_to_list (connections w)) ;;
  for_each snapshot (λ '(user_id, sockets),
    dead <- send_to_sockets message sockets ;;
    prune user_id dead).

End websocket_manager_py.

(* ===================================================================== *)
(** ** The MySQL store                                                    *)
(* ===================================================================== *)

(** A row of table [notifications].  The two INSERT statements of the code
    give [user_id], [message], [type] and [data]; [id] is the table's
    auto-increment key, [is_read] defaults to 0 and [timestamp] to the
    store's clock.  [data] holds the text [json.dumps] made of a value, kept
    here as that value. *)
Record Notification : Type := mkNotification {
  n_id : Z;
  n_user_id : Z;
  n_message : string;
  n_type : string;
  n_is_read : bool;
  n_timestamp : string;
  n_data : option Json;
}.

(** The request body of [/installations/create-full] ([CompanyPayload]). *)
Record CompanyPayload : Type := mkCompanyPayload {
  name : string;
  offer_link : option string;
  probable_installation_date : option string;
  final_installation_date : option string;
  menu_delivery_date : option string;
  menu_completion_date : option string;
  offer_hours : option Z;
  notes : option string;
  selected_jobs : list Z;
  job_notes : option (gmap Z string);
  start_keys : option string;
  got_keys : option string;
  company_key : option string;
  assigned_users : option (gmap Z Z);
  job_due_dates : option (gmap Z string);
}.

(** A row of table [companies]: the columns the INSERT fills, the key and the
    calendar event id that a later UPDATE sets. *)
Record Company : Type := mkCompany {
  c_id : Z;
  c_data : CompanyPayload;
  c_creation_date : string;
  c_created_by : Z;
  c_calendar_event_id : option string;
}.

(** A row of table [company_jobs]. *)
Record CompanyJob : Type := mkCompanyJob {
  cj_company_id : Z;
  cj_job_id : Z;
  cj_job_notes : option string;
  cj_assigned_user_id : option Z;
  cj_due_date : option string;
}.

(** A row the two SELECTs of [run_sales_notifications] return:
    [id, owner_user_id, company_name] of a lead. *)
Record LeadRow : Type := mkLeadRow {
  lead_id : Z;
  owner_user_id : option Z;
  company_name : string;
}.

Record Tables : Type := mkTables {
  notifications : list Notification;
  companies : list Company;
  company_jobs : list CompanyJob;
}.

(** The store as one connection of [get_db()] sees it.  mysql.connector opens
    connections with autocommit off: statements change [work], [commit]
    copies it to [durable], [rollback] and [close] drop what was not
    committed.  Auto-increment counters are not transactional.

    What the store answers to the code's SELECTs on tables the code under
    study never writes is part of the record ([jobs], [recipients],
    [due_today], [stale_offers]): evaluating those queries is the store's
    business.  [refuses] is the store's one failure with a cause in the data:
    the INSERT of a notification for that [user_id] raises.  [found_rows] is
    the connection's CLIENT_FOUND_ROWS flag, which decides what [rowcount]
    reports after an UPDATE. *)
Record Database : Type := mkDatabase {
  work : Tables;
  durable : Tables;
  next_notification_id : Z;
  next_company_id : Z;
  db_now : string;
  refuses : Z → bool;
  found_rows : bool;
  jobs : list (Z * string);
  recipients : list (Z * string);
  due_today : list LeadRow;
  stale_offers : list LeadRow;
}.

Definition set_work (f : Tables → Tables) (d : Database) : Database :=
  mkDatabase (f (work d)) (durable d) (next_notification_id d) (next_company_id d)
    (db_now d) (refuses d) (found_rows d) (jobs d) (recipients d) (due_today d)
    (stale_offers d).
Definition set_durable (t : Tables) (d : Database) : Database :=
  mkDatabase (work d) t (next_notification_id d) (next_company_id d)
    (db_now d) (refuses d) (found_rows d) (jobs d) (recipients d) (due_today d)
    (stale_offers d).
Definition set_found_rows (b : bool) (d : Database) : Database :=
  mkDatabase (work d) (durable d) (next_notification_id d) (next_company_id d)
    (db_now d) (refuses d) b (jobs d) (recipients d) (due_today d)
    (stale_offers d).
Definition bump_notification_id (d : Database) : Database :=
  mkDatabase (work d) (durable d) (next_notification_id d + 1) (next_company_id d)
    (db_now d) (refuses d) (found_rows d) (jobs d) (recipients d) (due_today d)
    (stale_offers d).
Definition bump_company_id (d : Database) : Database :=
  mkDatabase (work d) (durable d) (next_notification_id d) (next_company_id d + 1)
    (db_now d) (refuses d) (found_rows d) (jobs d) (recipients d) (due_today d)
    (stale_offers d).

Definition set_notifications (f : list Notification → list Notification) (t : Tables) : Tables :=
  mkTables (f (notifications t)) (companies t) (company_jobs t).
Definition set_companies (f : list Company → list Company) (t : Tables) : Tables :=
  mkTables (notifications t) (f (companies t)) (company_jobs t).
Definition set_company_jobs (f : list CompanyJob → list CompanyJob) (t : Tables) : Tables :=
  mkTables (notifications t) (companies t) (f (company_jobs t)).

Module mysql.

(** [get_db()]: every module calls [mysql.connector.connect] with host,
    port, user, password and database only, so the connection has the
    default client flags, CLIENT_FOUND_ROWS not among them; it sees the
    committed rows. *)
Definition get_db : M Database unit :=
  modify (λ d, set_found_rows false (set_work (λ _, durable d) d)).

Definition commit : M Database unit :=
  modify (λ d, set_durable (work d) d).

Definition rollback : M Database unit :=
  modify (λ d, set_work (λ _, durable d) d).

(** [cur.close(); conn.close()] *)
Definition close : M Database unit :=
  modify (λ d, set_work (λ _, durable d) d).

(** [INSERT INTO notifications (user_id, message, type, data) VALUES ...] *)
Definition insert_notification (user_id : Z) (message type : string)
    (data : option Json) : M Database Z :=
  refused <- gets (λ d, refuses d user_id) ;;
  if (refused : bool) then raise (DatabaseError "INSERT INTO notifications")
  else
    id <- gets next_notification_id ;;
    now <- gets db_now ;;
    modify bump_notification_id ;;
    modify (set_work (set_notifications (λ rows,
      rows ++ [mkNotification id user_id message type false now data]))) ;;
    ret id.

(** [UPDATE notifications SET is_read=1 WHERE <cond>], returning
    [cur.rowcount]: the number of rows the statement changed, or, on a
    connection with CLIENT_FOUND_ROWS, the number of rows [cond] matched. *)
Definition mark_read (r : Notification) : Notification :=
  mkNotification (n_id r) (n_user_id r) (n_message r) (n_type r) true
    (n_timestamp r) (n_data r).

Definition update_is_read (cond : Notification → bool) : M Database nat :=
  rows <- gets (λ d, notifications (work d)) ;;
  flag <- gets found_rows ;;
  modify (set_work (set_notifications (λ rows,
    (λ r, if cond r then mark_read r else r) <$> rows))) ;;
  ret (if (flag : bool) then length (filter (λ r, cond r = true) rows)
       else length (filter (λ r, cond r = true ∧ n_is_read r = false) rows)).

(** [INSERT INTO companies (...) VALUES (...)], returning [lastrowid]. *)
Definition insert_company (data : CompanyPayload) (creation_date : string)
    (created_by : Z) : M Database Z :=
  id <- gets next_company_id ;;
  modify bump_company_id ;;
  modify (set_work (set_companies (λ rows,
    rows ++ [mkCompany id data creation_date created_by None]))) ;;
  ret id.

(** [INSERT INTO company_jobs (...) VALUES (...)] *)
Definition insert_company_job (row : CompanyJob) : M Database unit :=
  modify (set_work (set_company_jobs (λ rows, rows ++ [row]))).

(** [UPDATE companies SET calendar_event_id=%s WHERE id=%s] *)
Definition update_calendar_event_id (event_id : string) (company_id : Z)
    : M Database unit :=
  modify (set_work (set_companies (λ rows,
    (λ c, if bool_decide (c_id c = company_id)
          then mkCompany (c_id c) (c_data c) (c_creation_date c) (c_created_by c)
                 (Some event_id)
          else c) <$> rows))).

(** [SELECT COUNT( * ) FROM notifications WHERE user_id=%s AND is_read=0] *)
Definition count_unread (user_id : Z) : M Database nat :=
  gets (λ d, length (filter (λ r, n_user_id r = user_id ∧ n_is_read r = false)
                        (notifications (work d)))).

End mysql.

(* ===================================================================== *)
(** ** notifications.py                                                   *)
(* ===================================================================== *)

Module notifications_py.

(** [unread_count]; the value of the ["count"] field is returned. *)
Definition unread_count (user_id : Z) : M Database nat :=
  mysql.get_db ;;
  try_finally (mysql.count_unread user_id) mysql.close.

(** [mark_all_read]; the value of the ["updated"] field is returned. *)
Definition mark_all_read (user_id : Z) : M Database nat :=
  mysql.get_db ;;
  try_finally
    (rowcount <- mysql.update_is_read
       (λ r, bool_decide (n_user_id r = user_id) && negb (n_is_read r)) ;;
     mysql.commit ;;
     ret rowcount)
    mysql.close.

(** [mark_single_read]; the value of the ["updated"] field is returned. *)
Definition mark_single_read (notif_id : Z) (user_id : Z) : M Database nat :=
  mysql.get_db ;;
  try_finally
    (rowcount <- mysql.update_is_read
       (λ r, bool_decide (n_id r = notif_id) && bool_decide (n_user_id r = user_id)) ;;
     mysql.commit ;;
     if bool_decide (rowcount = 0%nat)
     then raise (HTTPException 404 "Notification not found")
     else ret 1%nat)
    mysql.close.

End notifications_py.

(* ===================================================================== *)
(** ** The application: registry, store and the two notifying endpoints   *)
(* ===================================================================== *)

(** What happened, in the order it happened.  The code never reads the trace;
    it records when a notification row was inserted, when a push was handed
    to the registry, and when the transaction was committed or rolled back,
    so that their order can be stated. *)
Inductive Event : Type :=
  | EvInsert (user_id : Z) (record_id : Z)
  | EvPush (user_id : Z)
  | EvCommit
  | EvRollback.

Global Instance Event_eq_dec : EqDecision Event.
Proof. solve_decision. Defined.

(** [calendar] is what [upsert_installation_event] (Google Calendar) answers:
    an event id, or [None] when the call raises.  [now_str] is the reading of
    the clock, formatted, at the start of the request. *)
Record App : Type := mkApp {
  world : World;
  db : Database;
  calendar : option string;
  now_str : string;
  trace : list Event;
}.

Definition set_world (w : World) (a : App) : App :=
  mkApp w (db a) (calendar a) (now_str a) (trace a).
Definition set_db (d : Database) (a : App) : App :=
  mkApp (world a) d (calendar a) (now_str a) (trace a).
Definition log_event (e : Event) (a : App) : App :=
  mkApp (world a) (db a) (calendar a) (now_str a) (trace a ++ [e]).

Definition in_world {A} (c : M World A) : M App A := zoom world set_world c.
Definition in_db {A} (c : M Database A) : M App A := zoom db set_db c.

(** [str(e)] *)
Definition str (e : exn) : string :=
  match e with
  | WebSocketDisconnect => "1000"
  | RuntimeError what | DatabaseError what | TypeError what => what
  | JWTError => "JWTError"
  | HTTPException _ detail => detail
  end.

(** The statements of the store and of the registry, with their trace. *)
Definition execute_insert_notification (user_id : Z) (message type : string)
    (data : option Json) : M App unit :=
  id <- in_db (mysql.insert_notification user_id message type data) ;;
  modify (log_event (EvInsert user_id id)).

Definition await_send_personal_message (message : Json) (user_id : Z) : M App unit :=
  modify (log_event (EvPush user_id)) ;;
  in_world (websocket_manager_py.send_personal_message message user_id).

Definition conn_commit : M App unit :=
  in_db mysql.commit ;; modify (log_event EvCommit).

Definition conn_rollback : M App unit :=
  in_db mysql.rollback ;; modify (log_event EvRollback).

(** Python truthiness of an [Optional[str]]. *)
Definition truthy_str (o : option string) : bool :=
  match o with
  | Some s => negb (bool_decide (s = ""))
  | None => false
  end.

Definition json_opt_str (o : option string) : Json := from_option JStr JNull o.
Definition json_opt_int (o : option Z) : Json := from_option JInt JNull o.

Module google_calendar_py.

(** [upsert_installation_event(...)]: the event id, or an exception. *)
Definition upsert_installation_event : M App string :=
  answer <- gets calendar ;;
  match answer with
  | Some event_id => ret event_id
  | None => raise (RuntimeError "calendar")
  end.

End google_calendar_py.

Module installations_py.

(** The dict [payload] built from the request and the [jobs] table. *)
Definition payload_of (data : CompanyPayload) (company_id : Z) (now_str : string)
    (job_rows : list (Z * string)) : Json :=
  let job_lookup : gmap Z string := list_to_map (reverse job_rows) in
  let job_list :=
    (λ job_id, JDict [
        ("id", JInt job_id);
        ("name", json_opt_str (job_lookup !! job_id));
        ("notes", json_opt_str (job_notes data ≫= (.!! job_id))) ])
    <$> selected_jobs data in
  JDict [
    ("company", JDict [
        ("id", JInt company_id);
        ("name", JStr (name data));
        ("offer_link", json_opt_str (offer_link data));
        ("probable_installation_date", json_opt_str (probable_installation_date data));
        ("offer_hours", json_opt_int (offer_hours data));
        ("notes", json_opt_str (notes data));
        ("creation_date", JStr now_str) ]);
    ("jobs", JList job_list) ].

(** The dict handed to [send_personal_message]. *)
Definition push_message (message : string) (payload : Json) (now_str : string) : Json :=
  JDict [
    ("event", JStr "new_installation");
    ("type", JStr "new_installation");
    ("message", JStr message);
    ("data", payload);
    ("timestamp", JStr now_str) ].

(** The dict the endpoint returns. *)
Definition response (data : CompanyPayload) (company_id : Z) (now_str : string) : Json :=
  JDict [
    ("status", JStr "ok");
    ("company", JDict [
        ("id", JInt company_id);
        ("name", JStr (name data));
        ("offer_link", json_opt_str (offer_link data));
        ("probable_installation_date", json_opt_str (probable_installation_date data));
        ("offer_hours", json_opt_int (offer_hours data));
        ("notes", json_opt_str (notes data));
        ("creation_date", JStr now_str);
        ("selected_jobs", JList (JInt <$> selected_jobs data)) ]) ].

(** The body of [for user in recipients:]. *)
Definition notify_recipient (message : string) (payload : Json) (now_str : string)
    (user : Z * string) : M App unit :=
  let uid := user.1 in
  execute_insert_notification uid message "new_installation" (Some payload) ;;
  await_send_personal_message (push_message message payload now_str) uid.

(** The first part of the [try] block of [create_full_installation]: the
    company row, its job rows, the calendar event, and the first
    [conn.commit()]; it returns [company_id]. *)
Definition store_company (data : CompanyPayload) (now_str : string)
    (current_user_id : Z) : M App Z :=
  company_id <- in_db (mysql.insert_company data now_str current_user_id) ;;
  for_each (selected_jobs data) (λ job_id,
    in_db (mysql.insert_company_job
      (mkCompanyJob company_id job_id
         (job_notes data ≫= (.!! job_id))
         (assigned_users data ≫= (.!! job_id))
         (job_due_dates data ≫= (.!! job_id))))) ;;
  (if truthy_str (probable_installation_date data) then
     try_except
       (event_id <- google_calendar_py.upsert_installation_event ;;
        in_db (mysql.update_calendar_event_id event_id company_id))
       (λ _, ret tt)
   else ret tt) ;;
  conn_commit ;;
  ret company_id.

(** [create_full_installation]; [current_user_id] is [current_user.id]. *)
Definition create_full_installation (data : CompanyPayload) (current_user_id : Z)
    : M App Json :=
  in_db mysql.get_db ;;
  now_str <- gets now_str ;;
  try_finally
    (try_except
       (company_id <- store_company data now_str current_user_id ;;
        job_rows <- in_db (gets jobs) ;;
        let payload := payload_of data company_id now_str job_rows in
        recipients <- in_db (gets recipients) ;;
        let message := "Νέα εγκατάσταση: " +:+ name data in
        for_each recipients (notify_recipient message payload now_str) ;;
        conn_commit ;;
        ret (response data company_id now_str))
       (λ e, conn_rollback ;; raise (HTTPException 500 (str e))))
    (in_db mysql.close).

End installations_py.

Module sales_py.

(** The dict handed to [send_personal_message] by either loop. *)
Definition push_message (event message : string) (lead : Z) : Json :=
  JDict [
    ("event", JStr event);
    ("type", JStr "sales");
    ("message", JStr message);
    ("data", JDict [("lead_id", JInt lead)]) ].

(** The body of both loops; [prefix] is the text before the company name
    and [type] the category, which is also the event name. *)
Definition notify_owner (prefix type : string) (row : LeadRow) : M App unit :=
  match owner_user_id row with
  | None | Some 0 => ret tt                       (* continue *)
  | Some owner =>
      let msg := prefix +:+ company_name row in
      execute_insert_notification owner msg type None ;;
      await_send_personal_message (push_message type msg (lead_id row)) owner
  end.

(** The dict the endpoint returns. *)
Definition response (due_list stale_list : list LeadRow) : Json :=
  JDict [
    ("status", JStr "ok");
    ("followup", JInt (Z.of_nat (length due_list)));
    ("stale", JInt (Z.of_nat (length stale_list))) ].

(** [run_sales_notifications] *)
Definition run_sales_notifications : M App Json :=
  in_db mysql.get_db ;;
  try_finally
    (try_except
       (due_list <- in_db (gets due_today) ;;
        for_each due_list (notify_owner "Follow-up due today: " "sales_followup_due") ;;
        stale_list <- in_db (gets stale_offers) ;;
        for_each stale_list (notify_owner "5+ days since offer: " "sales_offer_stale") ;;
        conn_commit ;;
        ret (response due_list stale_list))
       (λ e, conn_rollback ;; raise (HTTPException 500 (str e))))
    (in_db mysql.close).

End sales_py.

(* ===================================================================== *)
(** ** main.py: the [/ws/live] endpoint                                   *)
(* ===================================================================== *)

(** What [jwt.decode] makes of the [token] query parameter, and what
    [int(payload.get("sub") or payload.get("id"))] makes of the payload. *)
Inductive Token : Type :=
  | BadToken                      (* jwt.decode raises JWTError *)
  | NoSubject                     (* neither "sub" nor "id": int(None) *)
  | Subject (user_id : Z).

Module main_py.

(** [await websocket.receive_text()].  [incoming] is what the client does
    next: it sends a text frame, or its transport closes or errors. *)
Definition receive_text (ws : WebSocket) (incoming : option string) : M World string :=
  st <- gets (λ w, application_state w ws) ;;
  if bool_decide (st = CONNECTED) then
    match incoming with
    | Some text => ret text
    | None => modify (set_broken ws true) ;; raise WebSocketDisconnect
    end
  else raise (RuntimeError "WebSocket is not connected").

(** [while True: await websocket.receive_text()], for a client that sends
    [frames] and whose transport then closes.  The loop has no exit: it
    ends when a receive raises, which the receive after the last frame
    does. *)
Fixpoint read_loop (ws : WebSocket) (frames : list string) : M World unit :=
  match frames with
  | [] => _ <- receive_text ws None ;; ret tt
  | text :: rest => _ <- receive_text ws (Some text) ;; read_loop ws rest
  end.

(** [websocket_endpoint] *)
Definition websocket_endpoint (websocket : WebSocket) (token : Token)
    (frames : list string) : M World unit :=
  authenticated <-
    try_except
      (match token with
       | BadToken => raise JWTError
       | NoSubject => raise (TypeError "int() argument")
       | Subject user_id =>
           websocket_manager_py.connect user_id websocket ;; ret (Some user_id)
       end)
      (λ e, match e with
            | JWTError => Starlette.close websocket ;; ret None
            | _ => raise e
            end) ;;
  match authenticated with
  | None => ret tt
  | Some user_id =>
      try_except
        (read_loop websocket frames)
        (λ _, (* manager.disconnect(user_id), without await *)
              not_awaited (websocket_manager_py.disconnect user_id))
  end.

End main_py.

(* ===================================================================== *)
(** ** notifications.py: the listing                                      *)
(* ===================================================================== *)

Module notifications_list_py.

(** [list_notifications].  [order_by] is the order in which the store
    returns the selected rows for [ORDER BY timestamp DESC]: MySQL leaves
    the order of rows with equal timestamps open, so the store's choice is
    taken as given.  [limit] and [offset] arrive validated ([ge=1], [ge=0]). *)
Definition list_notifications (order_by : list Notification → list Notification)
    (limit offset : nat) (unread_only : bool) (user_id : Z)
    : M Database (list Notification) :=
  mysql.get_db ;;
  try_finally
    (rows <- gets (λ d, notifications (work d)) ;;
     let selected :=
       filter (λ r, n_user_id r = user_id ∧ (unread_only = true → n_is_read r = false))
         rows in
     ret (take limit (drop offset (order_by selected))))
    mysql.close.

End notifications_list_py.

(* ===================================================================== *)
(** ** installations.py: the update of an installation                    *)
(* ===================================================================== *)

(** [login.CurrentUser] *)
Record CurrentUser : Type := mkCurrentUser {
  cu_id : Z;
  cu_username : string;
  cu_name : string;
  cu_role : string;
  cu_organization : string;
}.

(** Python truthiness of an [Optional[Dict[int, V]]]. *)
Definition truthy_dict {V} (o : option (gmap Z V)) : bool :=
  match o with
  | Some m => negb (bool_decide (size m = 0%nat))
  | None => false
  end.

Module installations_update_py.

(** [SELECT name, probable_installation_date, offer_link, notes,
    calendar_event_id FROM companies WHERE id=%s], then [fetchone()]. *)
Definition select_company (company_id : Z) : M Database (option Company) :=
  gets (λ d, head (filter (λ c, c_id c = company_id) (companies (work d)))).

(** [UPDATE companies SET name=%s, company_key=%s, ... WHERE id=%s]: the
    eleven columns of the request; what else a row holds stays. *)
Definition update_company (data : CompanyPayload) (company_id : Z) : M Database unit :=
  modify (set_work (set_companies (fmap (λ c,
    if bool_decide (c_id c = company_id)
    then mkCompany (c_id c)
           (mkCompanyPayload (name data) (offer_link data)
              (probable_installation_date data) (final_installation_date data)
              (menu_delivery_date data) (menu_completion_date data)
              (offer_hours data) (notes data)
              (selected_jobs (c_data c)) (job_notes (c_data c))
              (start_keys data) (got_keys data) (company_key data)
              (assigned_users (c_data c)) (job_due_dates (c_data c)))
           (c_creation_date c) (c_created_by c) (c_calendar_event_id c)
    else c)))).

(** [SELECT job_id, job_notes FROM company_jobs WHERE company_id=%s], of
    which the code reads [job_id]. *)
Definition select_job_ids (company_id : Z) : M Database (list Z) :=
  gets (λ d, cj_job_id <$>
               filter (λ r, cj_company_id r = company_id) (company_jobs (work d))).

(** [DELETE FROM company_jobs WHERE company_id=%s AND job_id IN (...)] *)
Definition delete_company_jobs (company_id : Z) (job_ids : gset Z) : M Database unit :=
  modify (set_work (set_company_jobs
    (filter (λ r, ¬ (cj_company_id r = company_id ∧ cj_job_id r ∈ job_ids))))).

(** [UPDATE company_jobs SET ... WHERE company_id=%s AND job_id=%s], a
    column being in the SET list when its value is given. *)
Definition update_company_job (company_id job_id : Z) (note : option string)
    (assigned : option Z) (due : option string) : M Database unit :=
  modify (set_work (set_company_jobs (fmap (λ r,
    if bool_decide (cj_company_id r = company_id ∧ cj_job_id r = job_id)
    then mkCompanyJob (cj_company_id r) (cj_job_id r)
           (from_option Some (cj_job_notes r) note)
           (from_option Some (cj_assigned_user_id r) assigned)
           (from_option Some (cj_due_date r) due)
    else r)))).

(** [UPDATE companies SET calendar_event_id=NULL WHERE id=%s] *)
Definition clear_calendar_event_id (company_id : Z) : M Database unit :=
  modify (set_work (set_companies (fmap (λ c,
    if bool_decide (c_id c = company_id)
    then mkCompany (c_id c) (c_data c) (c_creation_date c) (c_created_by c) None
    else c)))).

(** [google_calendar.delete_installation_event]: it returns at once for an
    empty id and swallows what the call of the calendar raises. *)
Definition delete_installation_event (event_id : option string) : M App unit :=
  if truthy_str event_id then
    try_except
      (answer <- gets calendar ;;
       match answer with
       | Some _ => ret tt
       | None => raise (RuntimeError "calendar")
       end)
      (λ _, ret tt)
  else ret tt.

(** [d[job_id]] under the guard [d and (job_id in d)]. *)
Definition entry {V} (o : option (gmap Z V)) (job_id : Z) : option V :=
  if truthy_dict o then o ≫= (.!! job_id) else None.

(** The body of [for job_id in to_add:]. *)
Definition add_job (data : CompanyPayload) (company_id job_id : Z) : M App unit :=
  in_db (mysql.insert_company_job
    (mkCompanyJob company_id job_id
       (job_notes data ≫= (.!! job_id))
       (assigned_users data ≫= (.!! job_id))
       (job_due_dates data ≫= (.!! job_id)))).

(** The body of [for job_id in to_keep:]. *)
Definition keep_job (data : CompanyPayload) (company_id job_id : Z) : M App unit :=
  let note := entry (job_notes data) job_id in
  let assigned := entry (assigned_users data) job_id in
  let due := entry (job_due_dates data) job_id in
  match note, assigned, due with
  | None, None, None => ret tt                      (* sets is empty *)
  | _, _, _ => in_db (update_company_job company_id job_id note assigned due)
  end.

(** Part 2 of the [try] block: the job diffs.  The order in which Python
    walks a set is the order of [elements] here. *)
Definition sync_jobs (company_id : Z) (data : CompanyPayload) : M App unit :=
  existing_rows <- in_db (select_job_ids company_id) ;;
  let existing_ids : gset Z := list_to_set existing_rows in
  let desired_ids : gset Z := list_to_set (selected_jobs data) in
  let to_add := desired_ids ∖ existing_ids in
  let to_remove := existing_ids ∖ desired_ids in
  let to_keep := desired_ids ∩ existing_ids in
  (if bool_decide (to_add ≠ ∅)
   then for_each (elements to_add) (add_job data company_id)
   else ret tt) ;;
  (if bool_decide (to_remove ≠ ∅)
   then in_db (delete_company_jobs company_id to_remove)
   else ret tt) ;;
  (if (truthy_dict (job_notes data) || truthy_dict (assigned_users data))
        && bool_decide (to_keep ≠ ∅)
   then for_each (elements to_keep) (keep_job data company_id)
   else ret tt).

(** Part 3: the calendar follows the probable date the row now has; what
    the calendar raises is logged and dropped. *)
Definition sync_calendar (company_id : Z) : M App unit :=
  row <- in_db (select_company company_id) ;;
  let new_date := row ≫= (λ c, probable_installation_date (c_data c)) in
  let event_id := row ≫= c_calendar_event_id in
  try_except
    (if truthy_str new_date then
       new_event_id <- google_calendar_py.upsert_installation_event ;;
       if bool_decide (Some new_event_id ≠ event_id)
       then in_db (mysql.update_calendar_event_id new_event_id company_id)
       else ret tt
     else
       if truthy_str event_id then
         delete_installation_event event_id ;;
         in_db (clear_calendar_event_id company_id)
       else ret tt)
    (λ _, ret tt).

(** The dict the endpoint returns. *)
Definition response (current_user : CurrentUser) : Json :=
  JDict [
    ("status", JStr "ok");
    ("message", JStr "Company and jobs updated successfully");
    ("updated_by", JDict [
        ("id", JInt (cu_id current_user));
        ("username", JStr (cu_username current_user));
        ("role", JStr (cu_role current_user));
        ("organization", JStr (cu_organization current_user)) ]) ].

(** [update_full_installation] *)
Definition update_full_installation (company_id : Z) (data : CompanyPayload)
    (current_user : CurrentUser) : M App Json :=
  try_finally
    (try_except
       (in_db mysql.get_db ;;
        _ <- in_db (select_company company_id) ;;   (* prev, not used again *)
        in_db (update_company data company_id) ;;
        sync_jobs company_id data ;;
        sync_calendar company_id ;;
        conn_commit ;;
        ret (response current_user))
       (λ e, conn_rollback ;; raise (HTTPException 500 (str e))))
    (in_db mysql.close).

End installations_update_py.

(* ===================================================================== *)
(** ** main.py: the companies that have given services                    *)
(* ===================================================================== *)

(** A clause of an Elasticsearch [bool] query: [{"term": {field: value}}] or
    [{"terms": {field: values}}]. *)
Inductive Clause : Type :=
  | Term (field value : string)
  | Terms (field : string) (values : list string).

(** The [_source] of a hit, of which the queries ask two fields. *)
Record Source : Type := mkSource {
  MYIDSTRING : option string;
  COMPANY_ID : option string;
}.

(** The services index as the code sees it: what [es_client.search] answers
    to a query [{"bool": {"must": clauses}}], the [_source] of each hit or an
    exception.  A search leaves the index as it is. *)
Record Elastic : Type := mkElastic {
  hits_of : list Clause → res (list (option Source));
}.

(** The character [:]. *)
Definition colon : Ascii.ascii :=
  Ascii.Ascii false true false true true true false false.

(** [token.split(":", 1)] when [":" in token]. *)
Fixpoint split_colon (s : string) : option (string * string) :=
  match s with
  | EmptyString => None
  | String c rest =>
      if Ascii.eqb c colon then Some (EmptyString, rest)
      else (λ lr, (String c lr.1, lr.2)) <$> split_colon rest
  end.

Module main_services_py.

Section string_methods.

(** [str.strip] and [str.upper] *)
Variables strip upper : string → string.

(** [es_client.search(index=SERVICES_INDEX, body=...)] with a [must] query,
    then [resp.get("hits", {}).get("hits", [])] and the [_source] of each. *)
Definition search (must : list Clause) : M Elastic (list (option Source)) :=
  answer <- gets (λ es, hits_of es must) ;;
  match answer with
  | Ok hits => ret hits
  | Raise e => raise e
  end.

(** [_service_clause_for_token] *)
Definition _service_clause_for_token (token : string) : list Clause :=
  let token := upper (strip token) in
  if bool_decide (token = "") then []
  else if bool_decide (token = "EDS") then
    [Term "IDTEXT" "EDS"; Terms "VAR_IDNAME" ["EFOOD"; "WOLT"; "BOX"]]
  else
    match split_colon token with
    | Some (l, r) => [Term "IDTEXT" (strip l); Term "VAR_IDNAME" (strip r)]
    | None => [Term "IDTEXT" token]
    end.

(** [_extract_company_id] *)
Definition _extract_company_id (src : option Source) : option string :=
  match src with
  | Some s => if truthy_str (MYIDSTRING s) then MYIDSTRING s else COMPANY_ID s
  | None => None
  end.

(** [_company_ids_for_single_token] *)
Definition _company_ids_for_single_token (token : string) : M Elastic (gset string) :=
  let must := _service_clause_for_token token in
  match must with
  | [] => ret ∅
  | _ =>
      hits <- search must ;;
      for_acc hits ∅ (λ ids h,
        match _extract_company_id h with
        | Some cid => if bool_decide (cid = "") then ret ids else ret (ids ∪ {[cid]})
        | None => ret ids
        end)
  end.

(** [_company_ids_for_services_any] *)
Definition _company_ids_for_services_any (tokens : option (list string))
    : M Elastic (gset string) :=
  for_acc (default [] tokens) ∅ (λ union_ids t,
    ids <- _company_ids_for_single_token t ;;
    ret (union_ids ∪ ids)).

(** The loop [for t in tokens[1:]:] of [_company_ids_for_services_all],
    which the function leaves with [return set()] from inside. *)
Fixpoint all_loop (tokens : list string) (acc : gset string) : M Elastic (gset string) :=
  match tokens with
  | [] => ret acc
  | t :: rest =>
      ids <- _company_ids_for_single_token t ;;
      if bool_decide (ids = ∅) then ret ∅
      else
        let acc := acc ∩ ids in
        if bool_decide (acc = ∅) then ret ∅ else all_loop rest acc
  end.

(** [_company_ids_for_services_all] *)
Definition _company_ids_for_services_all (tokens : option (list string))
    : M Elastic (gset string) :=
  let tokens := filter (λ t, strip t ≠ "") (default [] tokens) in
  match tokens with
  | [] => ret ∅
  | first :: rest =>
      acc <- _company_ids_for_single_token first ;;
      if bool_decide (acc = ∅) then ret ∅ else all_loop rest acc
  end.

End string_methods.

End main_services_py.

(* ===================================================================== *)
(** ** sales.py: offers and the activity log                              *)
(* ===================================================================== *)

(** A row of [sales_offers]: the columns the code under study reads or
    writes.  The columns a request fills come from a JSON body of any
    shape, so they hold JSON values. *)
Record Offer : Type := mkOffer {
  o_id : Z;
  o_lead_id : Z;
  o_version : Z;
  o_status : string;
  o_currency : Json;
  o_valid_until : Json;
  o_notes : Json;
}.

(** A row of [sales_leads]: key, stage and time of the last activity. *)
Record Lead : Type := mkLead {
  l_id : Z;
  l_stage : string;
  l_last_activity_at : option string;
}.

(** A row of [sales_activities]; a column an INSERT does not name is NULL. *)
Record Activity : Type := mkActivity {
  act_lead_id : Z;
  act_user_id : option Z;
  act_type : string;
  act_content : option string;
  act_meta : option Json;
}.

Record SalesTables : Type := mkSalesTables {
  sales_offers : list Offer;
  sales_leads : list Lead;
  sales_activities : list Activity;
}.

(** The statements of the code under study, with what they are about. *)
Inductive Stmt : Type :=
  | InsertActivityFull (row : Activity)       (* lead_id, user_id, type, content, meta *)
  | InsertActivityNoMeta (row : Activity)     (* lead_id, user_id, type, content *)
  | InsertActivityBare (row : Activity)       (* lead_id, type, content *)
  | TouchLead (lead_id : Z)
  | SelectNextVersion (lead_id : Z)
  | InsertOffer (lead_id version : Z)
  | SetOfferStatus (offer_id : Z) (status : string)
  | SelectOffer (offer_id : Z)
  | SetLeadWon (lead_id : Z).

(** The sales tables as one connection sees them, as [Database] above.
    [rejects] tells which statements the store answers with a
    [mysql.connector.Error], and with which message; a rejected statement
    changes nothing and the transaction goes on. *)
Record SalesStore : Type := mkSalesStore {
  s_work : SalesTables;
  s_durable : SalesTables;
  next_offer_id : Z;
  utc_now : string;
  rejects : Stmt → option string;
}.

Definition set_s_work (f : SalesTables → SalesTables) (s : SalesStore) : SalesStore :=
  mkSalesStore (f (s_work s)) (s_durable s) (next_offer_id s) (utc_now s) (rejects s).
Definition set_sales_offers (f : list Offer → list Offer) (t : SalesTables) : SalesTables :=
  mkSalesTables (f (sales_offers t)) (sales_leads t) (sales_activities t).
Definition set_sales_leads (f : list Lead → list Lead) (t : SalesTables) : SalesTables :=
  mkSalesTables (sales_offers t) (f (sales_leads t)) (sales_activities t).
Definition set_sales_activities (f : list Activity → list Activity) (t : SalesTables)
    : SalesTables :=
  mkSalesTables (sales_offers t) (sales_leads t) (f (sales_activities t)).

(** [try: c except mysql.connector.Error: h] *)
Definition try_except_mysql {S A} (c : M S A) (h : string → M S A) : M S A :=
  λ s, match c s with
       | (Raise (DatabaseError msg), s') => h msg s'
       | r => r
       end.

Module sales_offers_py.

(** [get_db()] of sales.py: autocommit off, the committed rows. *)
Definition get_db : M SalesStore unit :=
  modify (λ s, set_s_work (λ _, s_durable s) s).

Definition commit : M SalesStore unit :=
  modify (λ s, mkSalesStore (s_work s) (s_work s) (next_offer_id s) (utc_now s) (rejects s)).

Definition rollback : M SalesStore unit :=
  modify (λ s, set_s_work (λ _, s_durable s) s).

(** [cur.close(); conn.close()] *)
Definition close : M SalesStore unit :=
  modify (λ s, set_s_work (λ _, s_durable s) s).

(** [cur.execute(...)]: the store rejects the statement or runs it. *)
Definition execute {A} (stmt : Stmt) (run : M SalesStore A) : M SalesStore A :=
  rejected <- gets (λ s, rejects s stmt) ;;
  match rejected with
  | Some msg => raise (DatabaseError msg)
  | None => run
  end.

Definition insert_activity (row : Activity) : M SalesStore unit :=
  modify (set_s_work (set_sales_activities (λ rows, rows ++ [row]))).

(** [_user_id(user)] on a [CurrentUser], which has [id] and neither
    [user_id] nor [uid]. *)
Definition _user_id (user : CurrentUser) : option Z :=
  if bool_decide (cu_id user = 0) then None else Some (cu_id user).

(** [log_activity] *)
Definition log_activity (lead_id : Z) (type_ : string) (content : option string)
    (meta : option Json) (user_id : option Z) : M SalesStore unit :=
  let payload_meta := meta in
  try_except_mysql
    (let row := mkActivity lead_id user_id type_ content payload_meta in
     execute (InsertActivityFull row) (insert_activity row))
    (λ _,
      try_except_mysql
        (let row := mkActivity lead_id user_id type_ content None in
         execute (InsertActivityNoMeta row) (insert_activity row))
        (λ _,
          try_except_mysql
            (let row := mkActivity lead_id None type_ content None in
             execute (InsertActivityBare row) (insert_activity row))
            (λ _, ret tt))) ;;                     (* printed *)
  try_except_mysql
    (now <- gets utc_now ;;
     execute (TouchLead lead_id)
       (modify (set_s_work (set_sales_leads (fmap (λ l,
          if bool_decide (l_id l = lead_id)
          then mkLead (l_id l) (l_stage l) (Some now) else l))))))
    (λ _, ret tt).





(** [UPDATE sales_offers SET status=%s WHERE id=%s] *)
Definition set_offer_status (offer_id : Z) (status : string) : M SalesStore unit :=
  execute (SetOfferStatus offer_id status)
    (modify (set_s_work (set_sales_offers (fmap (λ o,
       if bool_decide (o_id o = offer_id)
       then mkOffer (o_id o) (o_lead_id o) (o_version o) status (o_currency o)
              (o_valid_until o) (o_notes o)
       else o))))).

(** [SELECT lead_id, version FROM sales_offers WHERE id=%s], [fetchone()] *)
Definition select_offer (offer_id : Z) : M SalesStore (option (Z * Z)) :=
  execute (SelectOffer offer_id)
    (gets (λ s, (λ o, (o_lead_id o, o_version o)) <$>
                  head (filter (λ o, o_id o = offer_id) (sales_offers (s_work s))))).

(** [send_offer]; [tt] stands for the dict [{"ok": True}]. *)
Definition send_offer (offer_id : Z) (user : CurrentUser) : M SalesStore unit :=
  get_db ;;
  try_finally
    (try_except
       (set_offer_status offer_id "sent" ;;
        row <- select_offer offer_id ;;
        match row with
        | None => rollback ;; raise (HTTPException 404 "Offer not found")
        | Some (lead_id, version) =>
            log_activity lead_id "offer_sent"
              (Some ("Offer v" +:+ pretty version +:+ " sent"))
              (Some (JDict [("offer_id", JInt offer_id)])) (_user_id user) ;;
            commit ;;
            ret tt
        end)
       (λ e, rollback ;; raise (HTTPException 500 (str e))))
    close.

(** [typemap.get(status, "field_change")] *)
Definition typemap_get (status : string) : string :=
  if bool_decide (status = "viewed") then "offer_viewed"
  else if bool_decide (status = "sent") then "offer_sent"
  else "field_change".

(** [UPDATE sales_leads SET stage='Won' WHERE id=%s] *)
Definition set_lead_won (lead_id : Z) : M SalesStore unit :=
  execute (SetLeadWon lead_id)
    (modify (set_s_work (set_sales_leads (fmap (λ l,
       if bool_decide (l_id l = lead_id)
       then mkLead (l_id l) "Won" (l_last_activity_at l) else l))))).

(** [update_offer_status]; [status] is one of the six literals, [tt] stands
    for the dict [{"ok": True}]. *)
Definition update_offer_status (offer_id : Z) (status : string) (user : CurrentUser)
    : M SalesStore unit :=
  get_db ;;
  try_finally
    (try_except
       (set_offer_status offer_id status ;;
        row <- select_offer offer_id ;;
        match row with
        | None => rollback ;; raise (HTTPException 404 "Offer not found")
        | Some (lead_id, version) =>
            log_activity lead_id (typemap_get status)
              (Some ("Offer v" +:+ pretty version +:+ " " +:+ status))
              (Some (JDict [("offer_id", JInt offer_id)])) (_user_id user) ;;
            (if bool_decide (status = "accepted") then
               set_lead_won lead_id ;;
               log_activity lead_id "status_change" (Some "Stage → Won (offer accepted)")
                 None (_user_id user)
             else ret tt) ;;
            commit ;;
            ret tt
        end)
       (λ e, rollback ;; raise (HTTPException 500 (str e))))
    close.

End sales_offers_py.

(* ===================================================================== *)
(** ** installations.py: the list of undone jobs                          *)
(* ===================================================================== *)

Module installations_undone_py.

Section get_undone_jobs.

(** [int(v)] on a string, [None] when it raises; [str.lower], [str.strip]. *)
Variable int_of_string : string → option Z.
Variables lower strip : string → string.

(** The rows of the data query and the dicts built from them. *)
Variables Row Item : Type.
Variable item_of : Row → Item.

(** What the store answers to the data query without its LIMIT and OFFSET,
    given the values of [company_id], [assigned_user_id] and [q] that make
    the WHERE clause, and the ORDER BY text.  The count query has the same
    FROM and WHERE but for two LEFT JOINs on a key, so that it counts these
    rows. *)
Variable select_undone : option Z → option Z → option string → string → list Row.

(** [to_int(name, default)] with [default=None] *)
Definition to_int (qp : gmap string string) (name : string) : option Z :=
  match qp !! name with
  | None => None
  | Some v => if bool_decide (v = "") then None else int_of_string v
  end.

(** [sort_map.get(sort_val, ...)] after the check of [sort_val] *)
Definition order_by_of (qp : gmap string string) : string :=
  let given := match qp !! "sort" with
               | Some v => if bool_decide (v = "") then "company_asc" else v
               | None => "company_asc"
               end in
  let sort_val := strip (lower given) in
  let sort_val :=
    if bool_decide (sort_val ∈ ["company_asc"; "company_desc"; "job_asc"; "job_desc"])
    then sort_val else "company_asc" in
  if bool_decide (sort_val = "company_asc") then "c.name ASC, j.name ASC"
  else if bool_decide (sort_val = "company_desc") then "c.name DESC, j.name ASC"
  else if bool_decide (sort_val = "job_asc") then "j.name ASC, c.name ASC"
  else "j.name DESC, c.name ASC".

(** The value returned: the dict
    [{"items": items, "total": total, "page": page_i, "page_size": page_size_i}]. *)
Record Page : Type := mkPage {
  items : list Item;
  total : Z;
  page : Z;
  page_size : Z;
}.

(** [get_undone_jobs]; [qp] is [request.query_params]. *)
Definition get_undone_jobs (qp : gmap string string) : M Database Page :=
  try_finally
    (try_except
       (let company_id := to_int qp "company_id" in
        let assigned_user_id := to_int qp "assigned_user_id" in
        let q := match qp !! "q" with
                 | Some v => if bool_decide (v = "") then None else Some v
                 | None => None
                 end in
        let page_i := match int_of_string (default "1" (qp !! "page")) with
                      | Some n => Z.max 1 n
                      | None => 1
                      end in
        let page_size_i := match int_of_string (default "50" (qp !! "page_size")) with
                           | Some n => Z.max 1 (Z.min 200 n)
                           | None => 50
                           end in
        let order_by := order_by_of qp in
        mysql.get_db ;;
        let matching := select_undone company_id assigned_user_id q order_by in
        let total := Z.of_nat (length matching) in
        let offset := (page_i - 1) * page_size_i in
        let rows := take (Z.to_nat page_size_i) (drop (Z.to_nat offset) matching) in
        ret (mkPage (item_of <$> rows) total page_i page_size_i))
       (λ e, raise (HTTPException 500 (str e))))
    mysql.close.

End get_undone_jobs.

End installations_undone_py.

(* ===================================================================== *)
(** ** Vocabulary of the properties                                       *)
(* ===================================================================== *)

(** A socket on which a [send_json] would go through: the application side
    is connected and the transport works. *)
Definition healthy (w : World) (ws : WebSocket) : bool :=
  bool_decide (application_state w ws = CONNECTED) && negb (broken w ws).

(** The connections registered for a user; none when the user has no entry. *)
Definition sockets (w : World) (user_id : Z) : gset WebSocket :=
  default ∅ (connections w !! user_id).

(** The point-in-time copy [broadcast] takes of the registry. *)
Definition snapshot (w : World) : list (Z * list WebSocket) :=
  (λ '(uid, socks), (uid, elements socks)) <$> map_to_list (connections w).

(** Every (user, connection) pair of a snapshot, and of the registry. *)
Definition pairs (snap : list (Z * list WebSocket)) : list (Z * WebSocket) :=
  entry ← snap; (λ ws, (entry.1, ws)) <$> entry.2.

Definition registrations (w : World) : list (Z * WebSocket) := pairs (snapshot w).

(** The frames that went out to one socket, oldest first. *)
Definition received (w : World) (ws : WebSocket) : list Json :=
  (filter (λ f, f.1 = ws) (wire w)).*2.

(** No user entry with an empty connection set. *)
Definition no_empty_entries (conns : gmap Z (gset WebSocket)) : Prop :=
  ∀ user_id s, conns !! user_id = Some s → s ≠ ∅.

(** The operations of the registry, and the one thing the environment does
    to it: the peer of a socket going away. *)
Inductive Op : Type :=
  | Register (user_id : Z) (ws : WebSocket)
  | Unregister (user_id : Z) (ws : WebSocket)
  | UnregisterAll (user_id : Z)
  | SendToUser (user_id : Z) (message : Json)
  | Broadcast (message : Json)
  | PeerGone (ws : WebSocket).

Definition run_op (op : Op) : M World unit :=
  match op with
  | Register user_id ws => websocket_manager_py.connect user_id ws
  | Unregister user_id ws => websocket_manager_py.disconnect_socket user_id ws
  | UnregisterAll user_id => websocket_manager_py.disconnect user_id
  | SendToUser user_id message => websocket_manager_py.send_personal_message message user_id
  | Broadcast message => websocket_manager_py.broadcast message
  | PeerGone ws => modify (set_broken ws true)
  end.

(** The blocks of the manager that run under [self._lock]; the registry is
    written nowhere else, so any interleaving of concurrent operations
    changes it by a sequence of these. *)
Inductive LockedBlock : Type :=
  | AddSocket (user_id : Z) (ws : WebSocket)             (* connect *)
  | PopUser (user_id : Z)                                (* disconnect *)
  | RemoveSocket (user_id : Z) (ws : WebSocket)          (* disconnect_socket *)
  | DiscardDead (user_id : Z) (dead : list WebSocket).   (* both senders *)

Definition run_block (b : LockedBlock) (conns : gmap Z (gset WebSocket))
  : gmap Z (gset WebSocket) :=
  match b with
  | AddSocket user_id ws => <[user_id := default ∅ (conns !! user_id) ∪ {[ws]}]> conns
  | PopUser user_id => delete user_id conns
  | RemoveSocket user_id ws => websocket_manager_py.remove_socket user_id ws conns
  | DiscardDead user_id dead => websocket_manager_py.discard_dead user_id dead conns
  end.

(** The world after a sequence of operations; an operation that raises
    leaves the world as it was when it raised. *)
Definition run_ops (ops : list Op) (w : World) : World :=
  foldl (λ w op, (run_op op w).2) w ops.

(** One notification to make: the arguments of the INSERT and the message of
    the push that follows it. *)
Record Target : Type := mkTarget {
  t_user : Z;
  t_message : string;
  t_type : string;
  t_data : option Json;
  t_push : Json;
}.

(** The two statements every notifying loop runs for a target. *)
Definition notify_target (t : Target) : M App unit :=
  execute_insert_notification (t_user t) (t_message t) (t_type t) (t_data t) ;;
  await_send_personal_message (t_push t) (t_user t).

(** The targets of [create_full_installation]'s loop. *)
Definition recipient_target (message : string) (payload : Json) (now_str : string)
    (user : Z * string) : Target :=
  mkTarget user.1 message "new_installation" (Some payload)
    (installations_py.push_message message payload now_str).

(** The targets of a loop of [run_sales_notifications]: the leads with an
    owner. *)
Definition lead_targets (prefix type : string) (rows : list LeadRow) : list Target :=
  row ← rows;
  match owner_user_id row with
  | None | Some 0 => []
  | Some owner =>
      let msg := prefix +:+ company_name row in
      [mkTarget owner msg type None (sales_py.push_message type msg (lead_id row))]
  end.

Definition sales_targets (d : Database) : list Target :=
  lead_targets "Follow-up due today: " "sales_followup_due" (due_today d) ++
  lead_targets "5+ days since offer: " "sales_offer_stale" (stale_offers d).

(** The store after the INSERT of a target's row. *)
Definition insert_row (t : Target) (d : Database) : Database :=
  set_work (set_notifications (λ rows, rows ++
      [mkNotification (next_notification_id d) (t_user t) (t_message t) (t_type t)
         false (db_now d) (t_data t)]))
    (bump_notification_id d).

(** A loop over targets stops at the first one the store refuses.  Whether
    it gets through, the store it leaves, the rows it inserts and the events
    it adds to the trace depend on the targets and on the store only. *)
Fixpoint all_accepted (refused : Z → bool) (targets : list Target) : bool :=
  match targets with
  | [] => true
  | t :: rest => negb (refused (t_user t)) && all_accepted refused rest
  end.

Fixpoint db_after (targets : list Target) (d : Database) : Database :=
  match targets with
  | [] => d
  | t :: rest => if refuses d (t_user t) then d else db_after rest (insert_row t d)
  end.

Fixpoint events_of (refused : Z → bool) (next_id : Z) (targets : list Target)
  : list Event :=
  match targets with
  | [] => []
  | t :: rest =>
      if refused (t_user t) then []
      else EvInsert (t_user t) next_id :: EvPush (t_user t)
             :: events_of refused (next_id + 1) rest
  end.

(** The row the INSERT of a target makes, under a given key and clock. *)
Definition row_of (id : Z) (now : string) (t : Target) : Notification :=
  mkNotification id (t_user t) (t_message t) (t_type t) false now (t_data t).

Fixpoint rows_of (refused : Z → bool) (next_id : Z) (now : string)
    (targets : list Target) : list Notification :=
  match targets with
  | [] => []
  | t :: rest =>
      if refused (t_user t) then []
      else row_of next_id now t :: rows_of refused (next_id + 1) now rest
  end.

(** The targets the loop gets to: those before the first refused one. *)
Fixpoint accepted (refused : Z → bool) (targets : list Target) : list Target :=
  match targets with
  | [] => []
  | t :: rest => if refused (t_user t) then [] else t :: accepted refused rest
  end.

(** [w'] comes from [w] by pushes for [targets]: the registry only lost
    connections, and every frame added to the wire carries the push message
    of one of the targets and went to a connection registered for that
    target's user. *)
Definition pushed_from (targets : list Target) (w w' : World) : Prop :=
  (∀ u, sockets w' u ⊆ sockets w u) ∧
  ∃ frames, wire w' = wire w ++ frames ∧
    ∀ ws m, (ws, m) ∈ frames →
      ∃ t, t ∈ targets ∧ m = t_push t ∧ ws ∈ sockets w (t_user t).

(** Two stores whose open transactions differ in the company tables at most. *)
Definition same_notifications (d d' : Database) : Prop :=
  notifications (work d') = notifications (work d) ∧
  next_notification_id d' = next_notification_id d ∧
  db_now d' = db_now d ∧
  refuses d' = refuses d ∧
  recipients d' = recipients d ∧
  jobs d' = jobs d ∧
  due_today d' = due_today d ∧
  stale_offers d' = stale_offers d.

(** Two application states that differ in the company tables at most. *)
Definition company_step (a a' : App) : Prop :=
  world a' = world a ∧ calendar a' = calendar a ∧ now_str a' = now_str a ∧
  trace a' = trace a ∧ same_notifications (db a) (db a').

(** The targets of one call of [create_full_installation]. *)
Definition installation_targets (data : CompanyPayload) (a : App) : list Target :=
  let payload :=
    installations_py.payload_of data (next_company_id (db a)) (now_str a) (jobs (db a)) in
  recipient_target ("Νέα εγκατάσταση: " +:+ name data) payload (now_str a)
    <$> recipients (db a).

(** The rows [create_full_installation] inserts into [company_jobs] for the
    company with key [company_id]. *)
Definition job_rows_of (data : CompanyPayload) (company_id : Z) : list CompanyJob :=
  (λ job_id, mkCompanyJob company_id job_id
     (job_notes data ≫= (.!! job_id))
     (assigned_users data ≫= (.!! job_id))
     (job_due_dates data ≫= (.!! job_id)))
  <$> selected_jobs data.

(** The row it leaves in [companies]: the calendar is asked for an event
    when the request has a probable date, and its failure leaves the column
    empty. *)
Definition company_row_of (data : CompanyPayload) (company_id : Z) (now : string)
    (created_by : Z) (answer : option string) : Company :=
  mkCompany company_id data now created_by
    (if truthy_str (probable_installation_date data) then answer else None).

(** The rows of [company_jobs] of one company, those of the others, and the
    jobs the company has. *)
Definition jobs_of (company_id : Z) (t : Tables) : list CompanyJob :=
  filter (λ r, cj_company_id r = company_id) (company_jobs t).
Definition job_ids_of (company_id : Z) (t : Tables) : gset Z :=
  list_to_set (cj_job_id <$> jobs_of company_id t).

(** What the loop over [to_keep] makes of a row of the company. *)
Definition kept_row (data : CompanyPayload) (r : CompanyJob) : CompanyJob :=
  mkCompanyJob (cj_company_id r) (cj_job_id r)
    (from_option Some (cj_job_notes r)
       (installations_update_py.entry (job_notes data) (cj_job_id r)))
    (from_option Some (cj_assigned_user_id r)
       (installations_update_py.entry (assigned_users data) (cj_job_id r)))
    (from_option Some (cj_due_date r)
       (installations_update_py.entry (job_due_dates data) (cj_job_id r))).

(** Table [company_jobs] after the job diffs of [update_full_installation]. *)
Definition jobs_synced (company_id : Z) (data : CompanyPayload)
    (rows : list CompanyJob) : list CompanyJob :=
  let existing_ids : gset Z :=
    list_to_set (cj_job_id <$> filter (λ r, cj_company_id r = company_id) rows) in
  let desired_ids : gset Z := list_to_set (selected_jobs data) in
  let added := (λ job_id, mkCompanyJob company_id job_id
                   (job_notes data ≫= (.!! job_id))
                   (assigned_users data ≫= (.!! job_id))
                   (job_due_dates data ≫= (.!! job_id)))
               <$> elements (desired_ids ∖ existing_ids) in
  let remaining :=
    filter (λ r, ¬ (cj_company_id r = company_id ∧
                    cj_job_id r ∈ existing_ids ∖ desired_ids)) (rows ++ added) in
  if truthy_dict (job_notes data) || truthy_dict (assigned_users data)
  then (λ r, if bool_decide (cj_company_id r = company_id ∧
                             cj_job_id r ∈ desired_ids ∩ existing_ids)
             then kept_row data r else r) <$> remaining
  else remaining.

(** What a notifying endpoint does, given the events [before] that precede
    its loop, its [targets] and the value [ok_value] it returns when it gets
    through: the result, the trace, the committed notifications and the
    world of the run [r] that started in [a]. *)
Definition notify_outcome (before : list Event) (targets : list Target)
    (ok_value : Json) (a : App) (r : res Json * App) : Prop :=
  let refused := refuses (db a) in
  let next_id := next_notification_id (db a) in
  let ok := all_accepted refused targets in
  r.1 = (if ok then Ok ok_value
         else Raise (HTTPException 500 "INSERT INTO notifications")) ∧
  trace r.2 = trace a ++ before ++ events_of refused next_id targets
                ++ [if ok then EvCommit else EvRollback] ∧
  notifications (durable (db r.2)) =
    notifications (durable (db a)) ++
      (if ok then rows_of refused next_id (db_now (db a)) targets else []) ∧
  pushed_from (accepted refused targets) (world a) (world r.2).

(** The users pushed to, and the users a row was inserted for, in a trace. *)
Definition pushes_of (evs : list Event) : list Z :=
  omap (λ e, match e with EvPush u => Some u | _ => None end) evs.
Definition inserts_of (evs : list Event) : list Z :=
  omap (λ e, match e with EvInsert u _ => Some u | _ => None end) evs.

(** Every push comes right after the insert of a row for the same user. *)
Definition insert_then_push (evs : list Event) : Prop :=
  ∀ i u, evs !! i = Some (EvPush u) →
    ∃ j id, i = S j ∧ evs !! j = Some (EvInsert u id).

(** What a run [r] from [a] added to the trace, and to the wire. *)
Definition new_events (a : App) (r : res Json * App) : list Event :=
  drop (length (trace a)) (trace r.2).
Definition new_frames (a : App) (r : res Json * App) : list (WebSocket * Json) :=
  drop (length (wire (world a))) (wire (world r.2)).

(** The statement "persist, then push": in a run, every record is stored
    before any push is attempted, and a run that fails has made no push. *)
Definition durable_before_any_push (a : App) (r : res Json * App) : Prop :=
  (∀ i j u u' id,
     new_events a r !! i = Some (EvPush u) →
     new_events a r !! j = Some (EvInsert u' id) → (j < i)%nat) ∧
  ((∃ e, r.1 = Raise e) → pushes_of (new_events a r) = [] ∧ new_frames a r = []).

(** The order the endpoints keep: after the events [before], one insert and
    then one push for each target up to the first refused one, and then the
    commit, or the rollback when a target was refused; a run that fails
    raises 500 and leaves the committed notifications as they were. *)
Definition insert_push_commit (before : list Event) (targets : list Target)
    (a : App) (r : res Json * App) : Prop :=
  let refused := refuses (db a) in
  let evs := events_of refused (next_notification_id (db a)) targets in
  insert_then_push evs ∧
  inserts_of evs = t_user <$> accepted refused targets ∧
  pushes_of evs = t_user <$> accepted refused targets ∧
  if all_accepted refused targets
  then new_events a r = before ++ evs ++ [EvCommit] ∧ (∃ v, r.1 = Ok v) ∧
       notifications (durable (db r.2)) =
         notifications (durable (db a)) ++
           rows_of refused (next_notification_id (db a)) (db_now (db a)) targets
  else new_events a r = before ++ evs ++ [EvRollback] ∧
       r.1 = Raise (HTTPException 500 "INSERT INTO notifications") ∧
       notifications (durable (db r.2)) = notifications (durable (db a)).

(** The statement "every push has its record": each frame a run delivered
    carries the message of a notification that is in the committed store
    when the run has ended, and went to a connection of that notification's
    user. *)
Definition every_push_has_its_record (a : App) (r : res Json * App) : Prop :=
  ∀ ws m, (ws, m) ∈ new_frames a r →
    ∃ row, row ∈ notifications (durable (db r.2)) ∧
           dict_get "message" m = Some (JStr (n_message row)) ∧
           ws ∈ sockets (world a) (n_user_id row).

(** What holds of the code instead.  A run that returns its value has
    committed exactly one row per target, after the rows that were there,
    and every frame it delivered is the push of one target, sent to a
    connection of that target's user, with that target's row committed.  A
    run that raises has left the committed notifications as they were. *)
Definition push_derives_from_record (targets : list Target) (a : App)
    (r : res Json * App) : Prop :=
  let old := notifications (durable (db a)) in
  (∀ v, r.1 = Ok v →
     length (notifications (durable (db r.2))) = (length old + length targets)%nat ∧
     ∀ ws m, (ws, m) ∈ new_frames a r →
       ∃ i t, targets !! i = Some t ∧ m = t_push t ∧
              ws ∈ sockets (world a) (t_user t) ∧
              notifications (durable (db r.2)) !! (length old + i)%nat
                = Some (row_of (next_notification_id (db a) + Z.of_nat i)
                          (db_now (db a)) t)) ∧
  ((∃ e, r.1 = Raise e) → notifications (durable (db r.2)) = old).

(** The push of a target mirrors its record: same message, and the event
    name is the record's type. *)
Definition mirrors_record (t : Target) : Prop :=
  dict_get "message" (t_push t) = Some (JStr (t_message t)) ∧
  dict_get "event" (t_push t) = Some (JStr (t_type t)).

(** Result and committed notifications of a run do not depend on the
    registry, the sockets or the wire, that is, on any push. *)
Definition independent_of_pushes (run : App → res Json * App) (a : App) : Prop :=
  ∀ w, (run (set_world w a)).1 = (run a).1 ∧
       notifications (durable (db (run (set_world w a)).2))
       = notifications (durable (db (run a).2)).

(** The identifiers of the notifications a run committed. *)
Definition persisted_ids (a : App) (r : res Json * App) : gset Z :=
  list_to_set (n_id <$> drop (length (notifications (durable (db a))))
                          (notifications (durable (db r.2)))).

(** The statement "the operation returns the identifiers of the records it
    persisted", read as generously as can be: in whatever form the value
    returned holds them, they can be read off it. *)
Definition returns_persisted_ids (run : App → res Json * App) : Prop :=
  ∃ decode : Json → gset Z,
    ∀ a v, (run a).1 = Ok v → decode v = persisted_ids a (run a).

(** What the endpoints return instead: the value [summary a] when no target
    is refused, a 500 otherwise; and the same whatever the state of the
    registry and of the sockets. *)
Definition returns_summary (run : App → res Json * App) (targets : App → list Target)
    (summary : App → Json) (a : App) : Prop :=
  (run a).1 = (if all_accepted (refuses (db a)) (targets a) then Ok (summary a)
               else Raise (HTTPException 500 "INSERT INTO notifications")) ∧
  ∀ w, (run (set_world w a)).1 = (run a).1.

(** The fields of the push wire shape. *)
Definition push_fields : list string := ["event"; "type"; "message"; "data"; "timestamp"].

(** The test of [mark_single_read]'s UPDATE: [id=%s AND user_id=%s]. *)
Definition is_target (notif_id user_id : Z) (r : Notification) : bool :=
  bool_decide (n_id r = notif_id) && bool_decide (n_user_id r = user_id).

(** The tables after [UPDATE notifications SET is_read=1 WHERE cond]. *)
Definition marked (cond : Notification → bool) (t : Tables) : Tables :=
  set_notifications (fmap (λ r, if cond r then mysql.mark_read r else r)) t.

(** The number of unread notifications of a user in the committed store. *)
Definition unread (user_id : Z) (d : Database) : nat :=
  length (filter (λ r, n_user_id r = user_id ∧ n_is_read r = false)
            (notifications (durable d))).

(** A store that holds one notification, of user 7, already read. *)
Definition one_read_notification : Database :=
  let t := mkTables [mkNotification 1 7 "Follow-up due today: Acme"
                       "sales_followup_due" true "2025-01-01 10:00:00" None] [] [] in
  mkDatabase t t 2 1 "2025-01-01 12:00:00" (λ _, false) false [] [] [] [].

(** Two users with two open connections each, all peers present. *)
Definition four_sockets : World :=
  run_ops [Register 7 1%nat; Register 7 2%nat; Register 8 3%nat; Register 8 4%nat]
    (initial_world (λ _, false)).

(** The same, after the peer of socket 2 went away. *)
Definition one_peer_gone : World := run_ops [PeerGone 2%nat] four_sockets.

(** A store with two recipients of installation notices (users 7 and 8),
    two leads due today, one of them without owner, and one stale offer. *)
Definition sample_store (refused : Z → bool) : Database :=
  mkDatabase (mkTables [] [] []) (mkTables [] [] []) 1 1 "2025-01-01 12:00:00"
    refused false [(5, "cabling")] [(7, "tech"); (8, "sec")]
    [mkLeadRow 11 (Some 7) "Acme"; mkLeadRow 12 None "Nobody"]
    [mkLeadRow 13 (Some 8) "Stale"].

(** The application with users 7 and 8 online, two sockets each. *)
Definition office (refused : Z → bool) : App :=
  mkApp four_sockets (sample_store refused) (Some "event-1") "2025-01-01 14:00:00" [].

Definition refuses_8 : Z → bool := λ u, bool_decide (u = 8).

(** The same office when no lead has an owner and nobody is to be told of
    new installations. *)
Definition office_without_targets : App :=
  mkApp four_sockets
    (mkDatabase (mkTables [] [] []) (mkTables [] [] []) 1 1 "2025-01-01 12:00:00"
       (λ _, false) false [(5, "cabling")] []
       [mkLeadRow 11 None "Acme"; mkLeadRow 12 None "Nobody"]
       [mkLeadRow 13 None "Stale"])
    (Some "event-1") "2025-01-01 14:00:00" [].

Definition acme : CompanyPayload :=
  mkCompanyPayload "Acme" None (Some "2025-02-01") None None None (Some 3) None [5]
    None None None None None None.

(** An office whose store holds company 1 with job 5, which has no due date;
    the calendar does not answer. *)
Definition office_with_company : App :=
  let t := mkTables [] [mkCompany 1 acme "2025-01-01 14:00:00" 1 None]
             [mkCompanyJob 1 5 None None None] in
  mkApp four_sockets
    (mkDatabase t t 1 2 "2025-01-01 12:00:00" (λ _, false) false [(5, "cabling")] []
       [] [])
    None "2025-01-02 09:00:00" [].

(** Acme again, with a due date for job 5, and with a note for it as well. *)
Definition acme_due : CompanyPayload :=
  mkCompanyPayload "Acme" None (Some "2025-02-01") None None None (Some 3) None [5]
    None None None None None (Some {[5 := "2025-03-01"]}).
Definition acme_due_noted : CompanyPayload :=
  mkCompanyPayload "Acme" None (Some "2025-02-01") None None None (Some 3) None [5]
    (Some {[5 := "roof"]}) None None None None (Some {[5 := "2025-03-01"]}).

Definition secretary : CurrentUser :=
  mkCurrentUser 8 "sec" "Secretary" "secretary" "prognosi_secretar".

(** A services index with two companies: both have POS, the second has EDS
    with one of the delivery platforms as well. *)
Definition two_companies : Elastic :=
  mkElastic (λ must,
    match must with
    | [Term "IDTEXT" "POS"] =>
        Ok [Some (mkSource (Some "c1") None); Some (mkSource None (Some "c2"))]
    | [Term "IDTEXT" "EDS"; Terms "VAR_IDNAME" _] =>
        Ok [Some (mkSource (Some "c2") (Some "other"))]
    | _ => Ok []
    end).

(** What the index answers for a token, the empty set when the search
    raises. *)
Definition ids_of (strip upper : string → string) (es : Elastic) (token : string)
    : gset string :=
  match (main_services_py._company_ids_for_single_token strip upper token es).1 with
  | Ok ids => ids
  | Raise _ => ∅
  end.

(** The activity rows [log_activity] adds: the first of its three INSERTs
    that the store does not reject. *)
Definition logged_activity (rejected : Stmt → option string) (lead_id : Z)
    (type_ : string) (content : option string) (meta : option Json) (user_id : option Z)
    : list Activity :=
  let full := mkActivity lead_id user_id type_ content meta in
  let no_meta := mkActivity lead_id user_id type_ content None in
  let bare := mkActivity lead_id None type_ content None in
  match rejected (InsertActivityFull full) with
  | None => [full]
  | Some _ =>
      match rejected (InsertActivityNoMeta no_meta) with
      | None => [no_meta]
      | Some _ =>
          match rejected (InsertActivityBare bare) with
          | None => [bare]
          | Some _ => []
          end
      end
  end.

(** Keys and stages of the leads. *)
Definition stages (t : SalesTables) : list (Z * string) :=
  (λ l, (l_id l, l_stage l)) <$> sales_leads t.

(** A sales desk with lead 10, which has two offers. *)
Definition sales_desk (rejected : Stmt → option string) : SalesStore :=
  let t := mkSalesTables
             [mkOffer 1 10 1 "sent" (JStr "EUR") JNull JNull;
              mkOffer 2 10 2 "draft" (JStr "EUR") JNull JNull]
             [mkLead 10 "Negotiating" None; mkLead 11 "New" None] [] in
  mkSalesStore t t 3 "2025-01-01 10:00:00" rejected.


(** What [_safe_close] does to the world. *)
Definition close_state (ws : WebSocket) (w : World) : World :=
  if bool_decide (application_state w ws = CONNECTED)
  then set_application_state ws DISCONNECTED w else w.

(** The world after the sending loop over [socks]. *)
Definition after_loop (message : Json) (socks : list WebSocket) (w : World) : World :=
  mkWorld (connections w) (application_state w) (broken w)
    (wire w ++ ((λ ws, (ws, message)) <$> filter (λ ws, healthy w ws = true) socks)).

(** The world after the pruning of [dead]. *)
Definition after_prune (user_id : Z) (dead : list WebSocket) (w : World) : World :=
  match dead with
  | [] => w
  | _ => foldl (λ w ws, close_state ws w)
           (set_connections (websocket_manager_py.discard_dead user_id dead) w) dead
  end.

(** The world after one user's turn of [broadcast] (and after a
    [send_personal_message] to a user with connections). *)
Definition visit (message : Json) (entry : Z * list WebSocket) (w : World) : World :=
  after_prune entry.1 (filter (λ ws, healthy w ws = false) entry.2)
    (after_loop message entry.2 w).

(* ===================================================================== *)
(** ** The registry: what the senders do                                  *)
(* ===================================================================== *)

Import websocket_manager_py.

Ltac run := unfold bind, ret, gets, modify, raise, try_except, try_finally, zoom; simpl.

Lemma bind_ok {S A B} (c : M S A) (k : A → M S B) s a s' :
  c s = (Ok a, s') → bind c k s = k a s'.
Proof. unfold bind. by intros ->. Qed.

Lemma bind_raise {S A B} (c : M S A) (k : A → M S B) s e s' :
  c s = (Raise e, s') → bind c k s = (Raise e, s').
Proof. unfold bind. by intros ->. Qed.

Lemma for_each_ok {S A} (body : A → M S unit) (step : A → S → S) :
  (∀ x s, body x s = (Ok tt, step x s)) →
  ∀ xs s, for_each xs body s = (Ok tt, foldl (λ s x, step x s) s xs).
Proof.
  intros Hbody xs. induction xs as [|x xs IH]; intros s; simpl; [done|].
  erewrite bind_ok by apply Hbody. apply IH.
Qed.

Section registry_facts.

Implicit Types (w : World) (ws : WebSocket) (message : Json) (user_id : Z).

Lemma healthy_true w ws :
  healthy w ws = true ↔ application_state w ws = CONNECTED ∧ broken w ws = false.
Proof.
  unfold healthy. rewrite andb_true_iff, bool_decide_eq_true, negb_true_iff. done.
Qed.

Lemma try_send_spec message dead ws w :
  try_send message dead ws w =
    if healthy w ws then (Ok dead, push_wire ws message w)
    else (Ok (dead ++ [ws]), w).
Proof.
  unfold try_send, _is_open, Starlette.send_json, Starlette.transport_write, healthy.
  run. case_bool_decide as Hst; simpl; [|done].
  rewrite Hst. simpl. by destruct (broken w ws).
Qed.

(** The loop never raises; it writes one frame to each healthy socket and
    collects the others. *)
Lemma for_acc_try_send message socks : ∀ dead w,
  for_acc socks dead (try_send message) w
  = (Ok (dead ++ filter (λ ws, healthy w ws = false) socks),
     after_loop message socks w).
Proof.
  induction socks as [|ws socks IH]; intros dead w.
  - simpl. unfold ret, after_loop. simpl. rewrite !app_nil_r. by destruct w.
  - simpl for_acc. destruct (healthy w ws) eqn:Hh.
    + erewrite bind_ok by (rewrite try_send_spec, Hh; done).
      rewrite IH. change (healthy (push_wire ws message w)) with (healthy w).
      rewrite filter_cons_False by (by rewrite Hh).
      unfold after_loop. simpl.
      change (healthy (push_wire ws message w)) with (healthy w).
      rewrite filter_cons_True by done. simpl. by rewrite <- app_assoc.
    + erewrite bind_ok by (rewrite try_send_spec, Hh; done).
      rewrite IH. rewrite filter_cons_True, <- app_assoc by done.
      unfold after_loop. rewrite (filter_cons_False (λ ws, healthy w ws = true)); [done|].
      by rewrite Hh.
Qed.

Lemma send_to_sockets_spec message socks w :
  send_to_sockets message socks w
  = (Ok (filter (λ ws, healthy w ws = false) socks), after_loop message socks w).
Proof. unfold send_to_sockets. by rewrite for_acc_try_send. Qed.

Lemma _safe_close_spec ws w : _safe_close ws w = (Ok tt, close_state ws w).
Proof.
  unfold _safe_close, close_state, Starlette.close, Starlette.transport_write. run.
  case_bool_decide as Hst; [|done]. rewrite Hst. simpl.
  by destruct (broken w ws).
Qed.

Lemma prune_spec user_id dead w :
  prune user_id dead w = (Ok tt, after_prune user_id dead w).
Proof.
  unfold prune, after_prune. destruct dead as [|ws dead]; [done|].
  erewrite bind_ok by reflexivity.
  apply (for_each_ok _safe_close close_state). apply _safe_close_spec.
Qed.

(** One user's turn of either sender. *)
Lemma turn_spec message user_id socks w :
  (dead <- send_to_sockets message socks ;; prune user_id dead) w
  = (Ok tt, visit message (user_id, socks) w).
Proof.
  erewrite bind_ok by apply send_to_sockets_spec.
  rewrite prune_spec. done.
Qed.

Lemma send_personal_message_spec message user_id w :
  send_personal_message message user_id w =
    (Ok tt, match elements (sockets w user_id) with
            | [] => w
            | socks => visit message (user_id, socks) w
            end).
Proof.
  unfold send_personal_message.
  erewrite bind_ok by reflexivity.
  fold (sockets w user_id).
  destruct (elements (sockets w user_id)) as [|ws socks] eqn:Hs; [done|].
  apply turn_spec.
Qed.

Lemma broadcast_spec message w :
  broadcast message w =
    (Ok tt, foldl (λ w entry, visit message entry w) w (snapshot w)).
Proof.
  unfold broadcast. erewrite bind_ok by reflexivity.
  apply (for_each_ok _ (visit message)).
  intros [user_id socks] w'. apply turn_spec.
Qed.

End registry_facts.

(** Two conditionals with equivalent tests and the same branches. *)
Ltac same_test :=
  match goal with
  | |- (if bool_decide ?P then _ else _) = (if bool_decide ?Q then _ else _) =>
      rewrite (bool_decide_ext P Q); [reflexivity|]
  end.

Section visit_facts.

Implicit Types (w : World) (ws : WebSocket) (message : Json) (user_id : Z).
Implicit Types (dead socks : list WebSocket) (conns : gmap Z (gset WebSocket)).

Lemma foldl_discard (s : gset WebSocket) dead :
  foldl (λ acc ws, acc ∖ {[ws]}) s dead = s ∖ list_to_set dead.
Proof.
  revert s. induction dead as [|ws dead IH]; intros s; simpl.
  - set_solver.
  - rewrite IH. set_solver.
Qed.

(** The closing of the dead sockets touches nothing but their state. *)
Lemma foldl_close_frame dead : ∀ w,
  let w' := foldl (λ w ws, close_state ws w) w dead in
  connections w' = connections w ∧ broken w' = broken w ∧ wire w' = wire w.
Proof.
  induction dead as [|ws dead IH]; intros w; simpl; [done|].
  destruct (IH (close_state ws w)) as (-> & -> & ->).
  unfold close_state. by case_bool_decide.
Qed.

Lemma foldl_close_state dead : ∀ w ws,
  application_state (foldl (λ w ws, close_state ws w) w dead) ws =
    if bool_decide (ws ∈ dead ∧ application_state w ws = CONNECTED)
    then DISCONNECTED else application_state w ws.
Proof.
  induction dead as [|x dead IH]; intros w ws; simpl.
  - done.
  - rewrite IH. unfold close_state.
    destruct (decide (application_state w x = CONNECTED)) as [Hx|Hx].
    + rewrite (bool_decide_eq_true_2 _ Hx). simpl.
      destruct (decide (ws = x)) as [->|Hne].
      * rewrite fn_lookup_insert.
        assert (x ∈ x :: dead ∧ application_state w x = CONNECTED) as Hin
          by (split; [left|done]).
        rewrite (bool_decide_eq_true_2 _ Hin). by case_bool_decide.
      * rewrite fn_lookup_insert_ne by done.
        same_test. rewrite elem_of_cons. naive_solver.
    + rewrite (bool_decide_eq_false_2 _ Hx).
      same_test. rewrite elem_of_cons.
      split; [naive_solver|]. intros [[->|?] ?]; [done|naive_solver].
Qed.

Lemma after_prune_frame user_id dead w :
  broken (after_prune user_id dead w) = broken w ∧
  wire (after_prune user_id dead w) = wire w.
Proof.
  unfold after_prune. destruct dead as [|x dead]; [done|].
  pose proof (foldl_close_frame (x :: dead)
    (set_connections (discard_dead user_id (x :: dead)) w)) as (_ & -> & ->).
  done.
Qed.

Lemma after_prune_state user_id dead w ws :
  application_state (after_prune user_id dead w) ws =
    if bool_decide (ws ∈ dead ∧ application_state w ws = CONNECTED)
    then DISCONNECTED else application_state w ws.
Proof.
  unfold after_prune. destruct dead as [|x dead].
  - exact (foldl_close_state [] w ws).
  - by rewrite foldl_close_state.
Qed.

Lemma discard_dead_other user_id dead conns (u : Z) :
  u ≠ user_id → discard_dead user_id dead conns !! u = conns !! u.
Proof.
  intros Hne. unfold discard_dead.
  destruct (conns !! user_id) as [s|]; [|done].
  repeat case_bool_decide; simpl;
    first [done | by rewrite lookup_delete_ne | by rewrite lookup_insert_ne].
Qed.

Lemma discard_dead_same user_id dead conns :
  default ∅ (discard_dead user_id dead conns !! user_id)
  = default ∅ (conns !! user_id) ∖ list_to_set dead.
Proof.
  unfold discard_dead.
  destruct (conns !! user_id) as [s|] eqn:Hs; simpl; [|rewrite Hs; set_solver].
  rewrite foldl_discard.
  case_bool_decide as Hne; simpl.
  - case_bool_decide as He.
    + rewrite lookup_delete_eq. simpl. by rewrite He.
    + by rewrite lookup_insert_eq.
  - rewrite Hs. simpl. set_solver.
Qed.

Lemma discard_dead_no_empty user_id dead conns :
  no_empty_entries conns → no_empty_entries (discard_dead user_id dead conns).
Proof.
  intros Hinv. unfold discard_dead.
  destruct (conns !! user_id) as [s|] eqn:Hs; [|done].
  repeat case_bool_decide; simpl; try done.
  - intros u s' [_ Hu]%lookup_delete_Some. by eapply Hinv.
  - intros u s' [[_ <-]|[_ Hu]]%lookup_insert_Some; [done|]. by eapply Hinv.
Qed.

Lemma after_prune_connections user_id dead w :
  connections (after_prune user_id dead w) =
    match dead with
    | [] => connections w
    | _ => discard_dead user_id dead (connections w)
    end.
Proof.
  unfold after_prune. destruct dead as [|x dead]; [done|].
  by pose proof (foldl_close_frame (x :: dead)
    (set_connections (discard_dead user_id (x :: dead)) w)) as (-> & _ & _).
Qed.

Lemma after_prune_sockets user_id dead w (u : Z) :
  sockets (after_prune user_id dead w) u =
    if bool_decide (u = user_id) then sockets w u ∖ list_to_set dead else sockets w u.
Proof.
  unfold sockets. rewrite after_prune_connections.
  destruct dead as [|x dead].
  - case_bool_decide; set_solver.
  - case_bool_decide as Hu.
    + subst u. apply discard_dead_same.
    + by rewrite discard_dead_other.
Qed.

(** *** One turn *)

Lemma visit_wire message user_id socks w :
  wire (visit message (user_id, socks) w) =
    wire w ++ ((λ ws, (ws, message)) <$> filter (λ ws, healthy w ws = true) socks).
Proof. unfold visit. simpl. by destruct (after_prune_frame user_id
  (filter (λ ws, healthy w ws = false) socks) (after_loop message socks w)) as [_ ->]. Qed.

Lemma visit_broken message user_id socks w :
  broken (visit message (user_id, socks) w) = broken w.
Proof. unfold visit. simpl. by destruct (after_prune_frame user_id
  (filter (λ ws, healthy w ws = false) socks) (after_loop message socks w)) as [-> _]. Qed.

Lemma visit_state message user_id socks w ws :
  application_state (visit message (user_id, socks) w) ws =
    if bool_decide (ws ∈ socks ∧ healthy w ws = false ∧ application_state w ws = CONNECTED)
    then DISCONNECTED else application_state w ws.
Proof.
  unfold visit. simpl. rewrite after_prune_state. simpl.
  same_test. rewrite list_elem_of_filter. naive_solver.
Qed.

Lemma visit_sockets message user_id socks w (u : Z) :
  sockets (visit message (user_id, socks) w) u =
    if bool_decide (u = user_id)
    then sockets w u ∖ list_to_set (filter (λ ws, healthy w ws = false) socks)
    else sockets w u.
Proof. unfold visit. simpl. by rewrite after_prune_sockets. Qed.

(** A turn closes only sockets that were not healthy: health is the same
    before and after. *)
Lemma visit_healthy message user_id socks w ws :
  healthy (visit message (user_id, socks) w) ws = healthy w ws.
Proof.
  unfold healthy at 1. rewrite visit_state, visit_broken.
  destruct (decide (ws ∈ socks ∧ healthy w ws = false ∧
                    application_state w ws = CONNECTED)) as [Hdead|Hdead].
  - rewrite (bool_decide_eq_true_2 _ Hdead). by destruct Hdead as (_ & -> & _).
  - by rewrite (bool_decide_eq_false_2 _ Hdead).
Qed.

Lemma visit_no_empty message user_id socks w :
  no_empty_entries (connections w) →
  no_empty_entries (connections (visit message (user_id, socks) w)).
Proof.
  intros Hinv. unfold visit. simpl. rewrite after_prune_connections. simpl.
  destruct (filter _ socks); [done|]. by apply discard_dead_no_empty.
Qed.

End visit_facts.

Section broadcast_facts.

Implicit Types (w : World) (ws : WebSocket) (message : Json) (user_id : Z).
Implicit Types (snap : list (Z * list WebSocket)).

Lemma foldl_visit_healthy message snap : ∀ w ws,
  healthy (foldl (λ w entry, visit message entry w) w snap) ws = healthy w ws.
Proof.
  induction snap as [|[u l] snap IH]; intros w ws; simpl; [done|].
  by rewrite IH, visit_healthy.
Qed.

Lemma filter_healthy_visit message u l w (b : bool) (socks : list WebSocket) :
  filter (λ ws, healthy (visit message (u, l) w) ws = b) socks
  = filter (λ ws, healthy w ws = b) socks.
Proof. apply list_filter_iff. intros ws. by rewrite visit_healthy. Qed.

Lemma filter_pairs_healthy message u l w (b : bool) (rs : list (Z * WebSocket)) :
  filter (λ r, healthy (visit message (u, l) w) r.2 = b) rs
  = filter (λ r, healthy w r.2 = b) rs.
Proof. apply list_filter_iff. intros r. by rewrite visit_healthy. Qed.

Lemma frames_of_entry message w (u : Z) (l : list WebSocket) :
  (λ r : Z * WebSocket, (r.2, message)) <$>
    filter (λ r, healthy w r.2 = true) ((λ ws, (u, ws)) <$> l)
  = (λ ws, (ws, message)) <$> filter (λ ws, healthy w ws = true) l.
Proof.
  induction l as [|ws l IH]; [done|]. rewrite fmap_cons.
  destruct (healthy w ws) eqn:Hh.
  - rewrite !filter_cons_True by done. rewrite !fmap_cons. by rewrite IH.
  - rewrite !filter_cons_False by (simpl; by rewrite ?Hh). done.
Qed.

Lemma pairs_cons (u : Z) (l : list WebSocket) snap :
  pairs ((u, l) :: snap) = ((λ ws, (u, ws)) <$> l) ++ pairs snap.
Proof. done. Qed.

(** The frames a broadcast writes: one per healthy registration, in the
    order of the snapshot. *)
Lemma foldl_visit_wire message snap : ∀ w,
  wire (foldl (λ w entry, visit message entry w) w snap) =
    wire w ++ ((λ r : Z * WebSocket, (r.2, message)) <$>
                 filter (λ r, healthy w r.2 = true) (pairs snap)).
Proof.
  induction snap as [|[u l] snap IH]; intros w.
  - simpl. by rewrite app_nil_r.
  - simpl foldl. rewrite IH, visit_wire, filter_pairs_healthy, pairs_cons.
    by rewrite list.filter_app, fmap_app, frames_of_entry, <- app_assoc.
Qed.

Lemma foldl_visit_sockets message snap : ∀ w (u : Z) ws,
  ws ∈ sockets (foldl (λ w entry, visit message entry w) w snap) u ↔
  ws ∈ sockets w u ∧ (∀ l, (u, l) ∈ snap → ws ∈ l → healthy w ws = true).
Proof.
  induction snap as [|[u1 l1] snap IH]; intros w u ws; simpl.
  - split; [|naive_solver]. intros ?. split; [done|]. by intros l ?%elem_of_nil.
  - rewrite IH, visit_sockets. setoid_rewrite visit_healthy.
    setoid_rewrite elem_of_cons.
    case_bool_decide as Hu.
    + subst u1. rewrite elem_of_difference, elem_of_list_to_set, list_elem_of_filter.
      split.
      * intros [[Hin Hdead] Hrest]. split; [done|].
        intros l [[= ->]|Hl] Hws; [|by eapply Hrest].
        destruct (healthy w ws) eqn:Hh; [done|]. destruct Hdead. done.
      * intros [Hin Hall]. split; [split; [done|]|].
        -- intros [Hh Hws]. rewrite (Hall l1) in Hh by (by try left). done.
        -- intros l Hl Hws. apply (Hall l); [by right|done].
    + split.
      * intros [Hin Hrest]. split; [done|].
        intros l [[= ? ?]|Hl] Hws; [done|by eapply Hrest].
      * intros [Hin Hall]. split; [done|].
        intros l Hl Hws. apply (Hall l); [by right|done].
Qed.

Lemma visit_state_connected message u l w ws :
  application_state (visit message (u, l) w) ws = CONNECTED →
  application_state w ws = CONNECTED.
Proof. rewrite visit_state. by case_bool_decide. Qed.

Lemma foldl_visit_state_connected message snap : ∀ w ws,
  application_state (foldl (λ w entry, visit message entry w) w snap) ws = CONNECTED →
  application_state w ws = CONNECTED.
Proof.
  induction snap as [|[u l] snap IH]; intros w ws; simpl; [done|].
  intros H%IH. by eapply visit_state_connected.
Qed.

Lemma visit_closes message u l w ws :
  ws ∈ l → healthy w ws = false →
  application_state (visit message (u, l) w) ws ≠ CONNECTED.
Proof.
  intros Hin Hh. rewrite visit_state.
  case_bool_decide as Hd; [done|]. intros Hst. apply Hd. done.
Qed.

Lemma foldl_visit_closes message snap : ∀ w (u : Z) l ws,
  (u, l) ∈ snap → ws ∈ l → healthy w ws = false →
  application_state (foldl (λ w entry, visit message entry w) w snap) ws ≠ CONNECTED.
Proof.
  induction snap as [|[u1 l1] snap IH]; intros w u l ws Hin Hws Hh; simpl.
  - by apply elem_of_nil in Hin.
  - apply elem_of_cons in Hin as [[= <- <-]|Hin].
    + intros Hst%foldl_visit_state_connected. by eapply visit_closes.
    + eapply IH; [done..|]. by rewrite visit_healthy.
Qed.

Lemma foldl_visit_no_empty message snap : ∀ w,
  no_empty_entries (connections w) →
  no_empty_entries (connections (foldl (λ w entry, visit message entry w) w snap)).
Proof.
  induction snap as [|[u l] snap IH]; intros w Hinv; simpl; [done|].
  apply IH. by apply visit_no_empty.
Qed.

(** *** The snapshot *)

Lemma elem_of_snapshot w (u : Z) (l : list WebSocket) :
  (u, l) ∈ snapshot w ↔ ∃ s, connections w !! u = Some s ∧ l = elements s.
Proof.
  unfold snapshot. rewrite list_elem_of_fmap. split.
  - intros [[u' s] [[= -> ->] Hin%elem_of_map_to_list]]. eauto.
  - intros (s & Hs & ->). exists (u, s). split; [done|]. by apply elem_of_map_to_list.
Qed.

Lemma elem_of_sockets w (u : Z) ws :
  ws ∈ sockets w u ↔ ∃ s, connections w !! u = Some s ∧ ws ∈ s.
Proof.
  unfold sockets. destruct (connections w !! u) as [s|]; simpl.
  - naive_solver.
  - split; [set_solver|]. by intros (s & ? & _).
Qed.

Lemma length_filter_split (w : World) (rs : list (Z * WebSocket)) :
  (length (filter (λ r, healthy w r.2 = true) rs)
   + length (filter (λ r, healthy w r.2 = false) rs) = length rs)%nat.
Proof.
  induction rs as [|r rs IH]; [done|].
  destruct (healthy w r.2) eqn:Hh.
  - rewrite filter_cons_True, filter_cons_False by (by rewrite ?Hh). simpl. lia.
  - rewrite filter_cons_False, filter_cons_True by (by rewrite ?Hh). simpl. lia.
Qed.

Lemma length_pairs (M : nat) snap :
  (∀ u l, (u, l) ∈ snap → length l = M) → length (pairs snap) = (length snap * M)%nat.
Proof.
  induction snap as [|[u l] snap IH]; intros Hall; [done|].
  rewrite pairs_cons, length_app, length_fmap. simpl.
  rewrite (Hall u l) by left. f_equal. apply IH.
  intros u' l' Hin. eapply Hall. by right.
Qed.

(** [total_connection_count] counts the registrations. *)
Lemma total_connection_count_spec w :
  total_connection_count w = (Ok (length (registrations w)), w).
Proof.
  unfold total_connection_count, gets, registrations, snapshot. do 2 f_equal.
  induction (map_to_list (connections w)) as [|[u s] l IH]; [done|].
  rewrite !fmap_cons, pairs_cons, length_app, length_fmap. simpl. by rewrite IH.
Qed.

(** [N] users with [M] connections each: [N * M] registrations. *)
Lemma length_registrations (N M : nat) w :
  size (connections w) = N →
  (∀ u s, connections w !! u = Some s → size s = M) →
  length (registrations w) = (N * M)%nat.
Proof.
  intros HN HM. unfold registrations. rewrite (length_pairs M).
  - unfold snapshot. by rewrite length_fmap, length_map_to_list, HN.
  - intros u l (s & Hs & ->)%elem_of_snapshot. by apply HM in Hs.
Qed.

End broadcast_facts.

Section delivery_facts.

Implicit Types (w : World) (ws : WebSocket) (message : Json) (user_id : Z).

Lemma filter_frames_to ws message (l : list WebSocket) :
  NoDup l →
  filter (λ f : WebSocket * Json, f.1 = ws) ((λ x, (x, message)) <$> l)
  = if bool_decide (ws ∈ l) then [(ws, message)] else [].
Proof.
  induction 1 as [|x l Hx Hl IH]; [done|]. rewrite fmap_cons.
  destruct (decide (x = ws)) as [->|Hne].
  - rewrite filter_cons_True by done. rewrite IH.
    rewrite (bool_decide_eq_false_2 _ Hx).
    by rewrite bool_decide_eq_true_2 by left.
  - rewrite filter_cons_False by done. rewrite IH.
    same_test. rewrite elem_of_cons. naive_solver.
Qed.

(** What a socket has received after one turn over a duplicate-free list. *)
Lemma visit_received message user_id socks w ws :
  NoDup socks →
  received (visit message (user_id, socks) w) ws =
    received w ws ++ (if bool_decide (ws ∈ socks ∧ healthy w ws = true)
                      then [message] else []).
Proof.
  intros Hnd. unfold received. rewrite visit_wire, list.filter_app, fmap_app.
  f_equal. rewrite filter_frames_to by (by apply list.NoDup_filter).
  rewrite (bool_decide_ext (ws ∈ filter (λ ws, healthy w ws = true) socks)
             (ws ∈ socks ∧ healthy w ws = true))
    by (rewrite list_elem_of_filter; naive_solver).
  by case_bool_decide.
Qed.

Lemma elements_sockets_nil w user_id :
  elements (sockets w user_id) = [] ↔ sockets w user_id = ∅.
Proof.
  split.
  - intros H. apply elements_empty_inv in H. by apply leibniz_equiv.
  - intros ->. apply elements_empty.
Qed.

(** The state after [send_personal_message], in one formula that covers
    the user without connections too. *)
Lemma send_personal_message_visit message user_id w :
  send_personal_message message user_id w =
    (Ok tt, visit message (user_id, elements (sockets w user_id)) w) ∨
  (sockets w user_id = ∅ ∧ send_personal_message message user_id w = (Ok tt, w)).
Proof.
  rewrite send_personal_message_spec.
  destruct (elements (sockets w user_id)) as [|x l] eqn:Hs.
  - right. split; [|done]. by apply elements_sockets_nil.
  - by left.
Qed.

End delivery_facts.

(* ===================================================================== *)
(** ** Invariant of the registry                                          *)
(* ===================================================================== *)

Section registry_invariant.

Implicit Types (w : World) (ws : WebSocket) (user_id : Z).
Implicit Types (conns : gmap Z (gset WebSocket)).

Lemma insert_no_empty user_id ws conns :
  no_empty_entries conns →
  no_empty_entries (<[user_id := default ∅ (conns !! user_id) ∪ {[ws]}]> conns).
Proof.
  intros Hinv u s [[_ <-]|[_ Hu]]%lookup_insert_Some; [set_solver|by eapply Hinv].
Qed.

Lemma delete_no_empty user_id conns :
  no_empty_entries conns → no_empty_entries (delete user_id conns).
Proof. intros Hinv u s [_ Hu]%lookup_delete_Some. by eapply Hinv. Qed.

Lemma remove_socket_no_empty user_id ws conns :
  no_empty_entries conns → no_empty_entries (remove_socket user_id ws conns).
Proof.
  intros Hinv. unfold remove_socket.
  destruct (conns !! user_id) as [s|]; [|done].
  destruct (bool_decide (s ≠ ∅) && bool_decide (ws ∈ s)); [|done].
  case_bool_decide.
  - by apply delete_no_empty.
  - intros u s' [[_ <-]|[_ Hu]]%lookup_insert_Some; [done|by eapply Hinv].
Qed.

Lemma connect_connections user_id ws w :
  connections (connect user_id ws w).2 = connections w ∨
  connections (connect user_id ws w).2
    = <[user_id := default ∅ (connections w !! user_id) ∪ {[ws]}]> (connections w).
Proof.
  unfold connect, Starlette.accept, Starlette.transport_write, user_connection_count.
  run. destruct (application_state w ws); simpl; auto.
  destruct (broken w ws); simpl; auto.
Qed.

Lemma disconnect_spec user_id w :
  disconnect user_id w =
    (Ok tt, foldl (λ w ws, close_state ws w)
              (set_connections (delete user_id) w) (elements (sockets w user_id))).
Proof.
  unfold disconnect. erewrite bind_ok by reflexivity.
  erewrite bind_ok by reflexivity.
  apply (for_each_ok _safe_close close_state). apply _safe_close_spec.
Qed.

Lemma disconnect_socket_spec user_id ws w :
  disconnect_socket user_id ws w =
    (Ok tt, close_state ws (set_connections (remove_socket user_id ws) w)).
Proof.
  unfold disconnect_socket. erewrite bind_ok by reflexivity.
  apply _safe_close_spec.
Qed.

Lemma close_state_connections ws w :
  connections (close_state ws w) = connections w.
Proof. unfold close_state. by case_bool_decide. Qed.

Lemma run_op_no_empty op w :
  no_empty_entries (connections w) →
  no_empty_entries (connections (run_op op w).2).
Proof.
  intros Hinv. destruct op as [u ws|u ws|u|u m|m|ws]; simpl.
  - destruct (connect_connections u ws w) as [->| ->]; [done|].
    by apply insert_no_empty.
  - rewrite disconnect_socket_spec. simpl. rewrite close_state_connections. simpl.
    by apply remove_socket_no_empty.
  - rewrite disconnect_spec. simpl.
    pose proof (foldl_close_frame (elements (sockets w u))
      (set_connections (delete u) w)) as (-> & _ & _).
    simpl. by apply delete_no_empty.
  - rewrite send_personal_message_spec. simpl.
    destruct (elements (sockets w u)); [done|]. by apply visit_no_empty.
  - rewrite broadcast_spec. simpl. by apply foldl_visit_no_empty.
  - done.
Qed.

Lemma run_ops_no_empty ops : ∀ w,
  no_empty_entries (connections w) →
  no_empty_entries (connections (run_ops ops w)).
Proof.
  induction ops as [|op ops IH]; intros w Hinv; [done|].
  apply IH. by apply run_op_no_empty.
Qed.

Lemma run_blocks_no_empty (blocks : list LockedBlock) : ∀ conns,
  no_empty_entries conns →
  no_empty_entries (foldl (λ conns b, run_block b conns) conns blocks).
Proof.
  induction blocks as [|b blocks IH]; intros conns Hinv; [done|].
  apply IH. destruct b; simpl.
  - by apply insert_no_empty.
  - by apply delete_no_empty.
  - by apply remove_socket_no_empty.
  - by apply discard_dead_no_empty.
Qed.

End registry_invariant.

(* ===================================================================== *)
(** ** Properties of the registry                                         *)
(* ===================================================================== *)

Section registry_properties.

Implicit Types (w : World) (ws : WebSocket) (message : Json) (user_id : Z).

Lemma visit_connections_other message user_id socks w (u : Z) :
  u ≠ user_id → connections (visit message (user_id, socks) w) !! u = connections w !! u.
Proof.
  intros Hne. unfold visit. simpl. rewrite after_prune_connections. simpl.
  destruct (filter _ socks); [done|]. by apply discard_dead_other.
Qed.

Lemma visit_nil message user_id w : visit message (user_id, []) w = w.
Proof.
  unfold visit, after_loop. simpl. rewrite app_nil_r. by destruct w.
Qed.

(** What one [send_personal_message] does, for a user with or without
    connections: it returns, every healthy connection of the user gets the
    message once and stays, every other connection of the user is removed
    and closed, and no other user's entry changes. *)
Lemma send_personal_message_effect message user_id w :
  ∃ w', send_personal_message message user_id w = (Ok tt, w') ∧
    (∀ ws, ws ∈ sockets w user_id → healthy w ws = true →
       received w' ws = (received w ws ++ [message]) ∧ ws ∈ sockets w' user_id) ∧
    (∀ ws, ws ∈ sockets w user_id → healthy w ws = false →
       (ws ∉ sockets w' user_id) ∧ application_state w' ws ≠ CONNECTED) ∧
    (∀ u, u ≠ user_id → connections w' !! u = connections w !! u) ∧
    (sockets w user_id = ∅ → w' = w).
Proof.
  destruct (send_personal_message_visit message user_id w) as [Hrun|[Hempty Hrun]].
  - eexists. split; [exact Hrun|]. split; [|split; [|split]].
    + intros ws Hin Hh. split.
      * rewrite visit_received by apply NoDup_elements.
        rewrite bool_decide_eq_true_2; [done|]. by rewrite elem_of_elements.
      * rewrite visit_sockets, bool_decide_eq_true_2 by done.
        rewrite elem_of_difference, elem_of_list_to_set, list_elem_of_filter.
        split; [done|]. intros [Hd _]. congruence.
    + intros ws Hin Hh. split.
      * rewrite visit_sockets, bool_decide_eq_true_2 by done.
        rewrite elem_of_difference, elem_of_list_to_set, list_elem_of_filter.
        intros [_ Hn]. apply Hn. by rewrite elem_of_elements.
      * apply visit_closes; [by rewrite elem_of_elements|done].
    + intros u Hne. by apply visit_connections_other.
    + intros Hempty. rewrite Hempty, elements_empty. apply visit_nil.
  - exists w. split; [done|]. rewrite Hempty. set_solver.
Qed.

End registry_properties.

(** C3.  For every user id and message, [send_personal_message] returns
    normally and delivers the message to every live connection registered
    for that user (each receives it exactly once more; with two live
    connections both do); for a user with no registered connection it
    returns normally too and changes nothing. *)
Theorem send_personal_message_reaches_every_live_connection
    (message : Json) (user_id : Z) (w : World) :
  ∃ w', send_personal_message message user_id w = (Ok tt, w') ∧
    (∀ ws, ws ∈ sockets w user_id → healthy w ws = true →
       received w' ws = received w ws ++ [message]) ∧
    (∀ a b, a ≠ b → a ∈ sockets w user_id → b ∈ sockets w user_id →
       healthy w a = true → healthy w b = true →
       received w' a = received w a ++ [message] ∧
       received w' b = received w b ++ [message]) ∧
    (sockets w user_id = ∅ → w' = w).
Proof.
  destruct (send_personal_message_effect message user_id w)
    as (w' & Hrun & Hlive & _ & _ & Hnone).
  exists w'. split; [done|]. split; [|split; [|done]].
  - intros ws Hin Hh. by destruct (Hlive ws Hin Hh).
  - intros a b _ Ha Hb Hha Hhb.
    destruct (Hlive a Ha Hha) as [-> _]. by destruct (Hlive b Hb Hhb) as [-> _].
Qed.

(** A user with two open tabs: both sockets receive the message. *)
Lemma send_personal_message_two_tabs :
  ∃ w', send_personal_message (JStr "hello") 7 four_sockets = (Ok tt, w') ∧
    received w' 1%nat = [JStr "hello"] ∧ received w' 2%nat = [JStr "hello"].
Proof.
  destruct (send_personal_message_reaches_every_live_connection
              (JStr "hello") 7 four_sockets) as (w' & Hrun & _ & Hboth & _).
  exists w'. split; [exact Hrun|].
  apply (Hboth 1%nat 2%nat).
  - discriminate.
  - apply (bool_decide_unpack _). vm_compute. exact I.
  - apply (bool_decide_unpack _). vm_compute. exact I.
  - reflexivity.
  - reflexivity.
Defined.

(** C4.  A send failure on one connection is isolated.  Neither sender ever
    raises.  [send_personal_message] still delivers to every healthy
    connection of the user, removes each failed one from the registry and
    leaves it closed, and touches no other user's entry.  [broadcast] writes
    one frame per healthy registration and none to the others, removes each
    failed connection from its user's set and leaves it closed; so with [N]
    users of [M] connections each, [k] of them failed beforehand, it
    delivers [N * M - k] messages. *)
Theorem send_failure_is_isolated (message : Json) (w : World) :
  (∀ user_id, ∃ w',
     send_personal_message message user_id w = (Ok tt, w') ∧
     (∀ ws, ws ∈ sockets w user_id → healthy w ws = true →
        received w' ws = (received w ws ++ [message]) ∧ ws ∈ sockets w' user_id) ∧
     (∀ ws, ws ∈ sockets w user_id → healthy w ws = false →
        (ws ∉ sockets w' user_id) ∧ application_state w' ws ≠ CONNECTED) ∧
     (∀ u, u ≠ user_id → connections w' !! u = connections w !! u)) ∧
  (∃ w',
     broadcast message w = (Ok tt, w') ∧
     wire w' = wire w ++ ((λ r : Z * WebSocket, (r.2, message)) <$>
                            filter (λ r, healthy w r.2 = true) (registrations w)) ∧
     (∀ u ws, ws ∈ sockets w u → healthy w ws = true → ws ∈ sockets w' u) ∧
     (∀ u ws, ws ∈ sockets w u → healthy w ws = false →
        (ws ∉ sockets w' u) ∧ application_state w' ws ≠ CONNECTED) ∧
     (∀ N M k : nat,
        size (connections w) = N →
        (∀ u s, connections w !! u = Some s → size s = M) →
        length (filter (λ r, healthy w r.2 = false) (registrations w)) = k →
        (k ≤ N * M)%nat ∧
        length (wire w') = (length (wire w) + (N * M - k))%nat)).
Proof.
  split.
  - intros user_id.
    destruct (send_personal_message_effect message user_id w)
      as (w' & Hrun & Hlive & Hdead & Hother & _).
    by exists w'.
  - eexists. split; [apply broadcast_spec|].
    split; [apply foldl_visit_wire|]. split; [|split].
    + intros u ws Hin Hh. apply foldl_visit_sockets. done.
    + intros u ws Hin Hh.
      destruct (proj1 (elem_of_sockets w u ws) Hin) as (s & Hs & Hws).
      assert ((u, elements s) ∈ snapshot w) as Hentry
        by (apply elem_of_snapshot; eauto).
      split.
      * intros [_ Hall]%foldl_visit_sockets.
        rewrite (Hall (elements s)) in Hh; [done|done|by apply elem_of_elements].
      * eapply foldl_visit_closes; [exact Hentry|by apply elem_of_elements|done].
    + intros N M k HN HM Hk.
      pose proof (length_filter_split w (registrations w)) as Hsplit.
      rewrite (length_registrations N M) in Hsplit by done.
      rewrite foldl_visit_wire, length_app, length_fmap.
      fold (registrations w). lia.
Qed.

(** Two users with two connections each, one peer gone: the broadcast
    delivers three messages and the dead socket leaves the registry. *)
Lemma broadcast_with_one_peer_gone :
  ∃ w', broadcast (JStr "hello") one_peer_gone = (Ok tt, w') ∧
    length (wire w') = 3%nat ∧ (2%nat ∉ sockets w' 7).
Proof.
  destruct (send_failure_is_isolated (JStr "hello") one_peer_gone)
    as (_ & w' & Hrun & _ & _ & Hdead & Hcount).
  exists w'. split; [exact Hrun|]. split.
  - refine (proj2 (Hcount 2%nat 2%nat 1%nat _ _ _)).
    + vm_compute. reflexivity.
    + apply (bool_decide_unpack
        (map_Forall (λ _ (s : gset nat), size s = 2%nat) (connections one_peer_gone))).
      vm_compute. exact I.
    + vm_compute. reflexivity.
  - refine (proj1 (Hdead 7 2%nat _ _)).
    + apply (bool_decide_unpack _). vm_compute. exact I.
    + reflexivity.
Defined.

(** C7.  After any sequence of registry operations (with peers going away
    in between), started from the empty registry, no user entry has an empty
    connection set; and the same after any sequence of the blocks that run
    under the lock, that is, at every point of any interleaving of
    concurrent operations. *)
Theorem registry_never_keeps_an_empty_entry (broken0 : WebSocket → bool) :
  (∀ ops : list Op,
     no_empty_entries (connections (run_ops ops (initial_world broken0)))) ∧
  (∀ blocks : list LockedBlock,
     no_empty_entries (foldl (λ conns b, run_block b conns) ∅ blocks)).
Proof.
  assert (no_empty_entries (∅ : gmap Z (gset nat))) as Hempty
    by (intros u s Hu; by rewrite lookup_empty in Hu).
  split.
  - intros ops. by apply run_ops_no_empty.
  - intros blocks. by apply run_blocks_no_empty.
Qed.

(* ===================================================================== *)
(** ** The [/ws/live] endpoint                                            *)
(* ===================================================================== *)

Section endpoint_facts.

Implicit Types (w : World) (ws : WebSocket) (user_id : Z).

(** The read loop of a connected socket ends by raising, once the client
    has sent its frames and gone; the registry is as it was. *)
Lemma read_loop_raises ws frames : ∀ w,
  application_state w ws = CONNECTED →
  main_py.read_loop ws frames w = (Raise WebSocketDisconnect, set_broken ws true w).
Proof.
  induction frames as [|text frames IH]; intros w Hst; simpl.
  - unfold main_py.receive_text. run. by rewrite Hst.
  - erewrite bind_ok; [by apply IH|].
    unfold main_py.receive_text. run. by rewrite Hst.
Qed.

Lemma connect_fresh user_id ws w :
  application_state w ws = CONNECTING → broken w ws = false →
  connect user_id ws w =
    (Ok tt, set_connections
              (λ conns, <[user_id := default ∅ (conns !! user_id) ∪ {[ws]}]> conns)
              (set_application_state ws CONNECTED w)).
Proof.
  intros Hst Hbr.
  unfold connect, Starlette.accept, Starlette.transport_write, user_connection_count.
  run. rewrite Hst. simpl. by rewrite Hbr.
Qed.

End endpoint_facts.

(** C9 (the code departs from it).  A client with a valid token connects,
    sends some frames, and its transport closes: the read loop raises, the
    handler builds the coroutine of [manager.disconnect(user_id)] and drops
    it, and the endpoint returns with the socket still registered for the
    user and still marked connected, although its peer is gone. *)
Theorem websocket_endpoint_leaves_dead_socket_registered
    (ws : WebSocket) (user_id : Z) (frames : list string) (w : World) :
  application_state w ws = CONNECTING →
  broken w ws = false →
  ∃ w', main_py.websocket_endpoint ws (Subject user_id) frames w = (Ok tt, w') ∧
    ws ∈ sockets w' user_id ∧
    application_state w' ws = CONNECTED ∧
    broken w' ws = true.
Proof.
  intros Hst Hbr. unfold main_py.websocket_endpoint.
  eexists. split.
  - erewrite bind_ok.
    2:{ unfold try_except. erewrite bind_ok by (by apply connect_fresh). reflexivity. }
    simpl. unfold try_except. rewrite read_loop_raises.
    + reflexivity.
    + simpl. apply fn_lookup_insert.
  - unfold sockets. simpl. rewrite lookup_insert_eq. simpl.
    rewrite !fn_lookup_insert. set_solver.
Qed.

(** User 7 opens socket 1, sends one frame and disconnects. *)
Lemma websocket_endpoint_after_disconnect :
  ∃ w', main_py.websocket_endpoint 1%nat (Subject 7) ["ping"]
          (initial_world (λ _, false)) = (Ok tt, w') ∧
    1%nat ∈ sockets w' 7 ∧ application_state w' 1%nat = CONNECTED ∧ broken w' 1%nat = true.
Proof.
  apply (websocket_endpoint_leaves_dead_socket_registered 1%nat 7 ["ping"]
           (initial_world (λ _, false))); reflexivity.
Defined.

(* ===================================================================== *)
(** ** The notification store: mark-read                                  *)
(* ===================================================================== *)

Section mark_read_facts.

Implicit Types (d : Database) (r : Notification) (notif_id user_id : Z).

(** The endpoint works on the committed rows, whatever an earlier
    connection left uncommitted; it commits its UPDATE before it looks at
    [rowcount]. *)
Lemma mark_single_read_spec notif_id user_id d :
  notifications_py.mark_single_read notif_id user_id d =
    (if bool_decide
          (length (filter (λ r, is_target notif_id user_id r = true ∧ n_is_read r = false)
                     (notifications (durable d))) = 0%nat)
     then Raise (HTTPException 404 "Notification not found")
     else Ok 1%nat,
     set_found_rows false
       (set_durable (marked (is_target notif_id user_id) (durable d))
          (set_work (λ _, marked (is_target notif_id user_id) (durable d)) d))).
Proof.
  unfold notifications_py.mark_single_read, mysql.get_db, mysql.update_is_read,
    mysql.commit, mysql.close.
  run. unfold is_target. by case_bool_decide.
Qed.

Lemma mark_read_read r : n_is_read r = true → mysql.mark_read r = r.
Proof. destruct r. simpl. by intros ->. Qed.

Lemma marked_nothing (cond : Notification → bool) (t : Tables) :
  (∀ r, r ∈ notifications t → cond r = true → n_is_read r = true) →
  marked cond t = t.
Proof.
  intros Hread. unfold marked, set_notifications. destruct t as [rows cs cjs].
  simpl in *. f_equal. rewrite <- (list_fmap_id rows) at 2.
  apply list_fmap_ext. intros i r Hr%list_elem_of_lookup_2. simpl.
  destruct (cond r) eqn:Hc; [|done]. apply mark_read_read. by apply Hread.
Qed.

Lemma nothing_to_change (cond : Notification → bool) (rows : list Notification) :
  (∀ r, r ∈ rows → cond r = true → n_is_read r = true) →
  length (filter (λ r, cond r = true ∧ n_is_read r = false) rows) = 0%nat.
Proof.
  intros Hread. induction rows as [|r rows IH]; [done|].
  rewrite filter_cons_False.
  - apply IH. intros r' Hr'. apply Hread. by right.
  - intros [Hc Hr]. rewrite (Hread r) in Hr; [done|by left|done].
Qed.

(** The sibling endpoint is idempotent: marking all of a user's
    notifications read when they are read already succeeds, reports 0
    updated rows and changes nothing. *)
Lemma mark_all_read_again user_id d :
  (∀ r, r ∈ notifications (durable d) → n_user_id r = user_id → n_is_read r = true) →
  ∃ d', notifications_py.mark_all_read user_id d = (Ok 0%nat, d') ∧
        durable d' = durable d.
Proof.
  intros Hread.
  set (cond := λ r, bool_decide (n_user_id r = user_id) && negb (n_is_read r)).
  assert (∀ r, r ∈ notifications (durable d) → cond r = true → n_is_read r = true)
    as Hread'.
  { intros r Hr [Hu _]%andb_true_iff. apply bool_decide_eq_true in Hu. by apply Hread. }
  exists (set_found_rows false
            (set_durable (marked cond (durable d))
               (set_work (λ _, marked cond (durable d)) d))).
  split.
  - unfold notifications_py.mark_all_read, mysql.get_db, mysql.update_is_read,
      mysql.commit, mysql.close.
    run. f_equal. f_equal. exact (nothing_to_change cond _ Hread').
  - simpl. by apply marked_nothing.
Qed.

(** What [rowcount] reports after the UPDATE of [mark_single_read] on a row
    that is read already: 0 on the connection [get_db()] opens, 1 on a
    connection with CLIENT_FOUND_ROWS. *)
Example rowcount_of_unchanged_row :
  (mysql.update_is_read (is_target 1 7) one_read_notification).1 = Ok 0%nat ∧
  (mysql.update_is_read (is_target 1 7) (set_found_rows true one_read_notification)).1
  = Ok 1%nat.
Proof. split; reflexivity. Qed.

(** The unread-count endpoint reports [unread]. *)
Lemma unread_count_spec user_id d :
  (notifications_py.unread_count user_id d).1 = Ok (unread user_id d).
Proof. done. Qed.

End mark_read_facts.

(** C10.  [mark_single_read] changes no record but those with the given id
    that belong to the caller; called with an id that no record of the
    caller has (no such record, or another user's), it answers 404 and the
    store is as before. *)
Theorem mark_single_read_respects_ownership (notif_id user_id : Z) (d : Database) :
  (∀ result d', notifications_py.mark_single_read notif_id user_id d = (result, d') →
     companies (durable d') = companies (durable d) ∧
     company_jobs (durable d') = company_jobs (durable d) ∧
     length (notifications (durable d')) = length (notifications (durable d)) ∧
     ∀ i r r', notifications (durable d) !! i = Some r →
               notifications (durable d') !! i = Some r' →
               r' = r ∨ (n_id r = notif_id ∧ n_user_id r = user_id ∧
                          r' = mysql.mark_read r)) ∧
  ((∀ r, r ∈ notifications (durable d) →
         ¬ (n_id r = notif_id ∧ n_user_id r = user_id)) →
   ∃ d', notifications_py.mark_single_read notif_id user_id d
           = (Raise (HTTPException 404 "Notification not found"), d') ∧
         durable d' = durable d).
Proof.
  split.
  - intros result d'. rewrite mark_single_read_spec. intros [= _ <-]. simpl.
    split; [done|]. split; [done|]. split; [by rewrite length_fmap|].
    intros i r r' Hr. rewrite list_lookup_fmap, Hr. simpl. intros [= <-].
    destruct (is_target notif_id user_id r) eqn:Ht; [right|by left].
    unfold is_target in Ht.
    apply andb_true_iff in Ht as [?%bool_decide_eq_true ?%bool_decide_eq_true]. done.
  - intros Hnone. eexists. split.
    + rewrite mark_single_read_spec. rewrite bool_decide_eq_true_2; [reflexivity|].
      apply nothing_to_change. intros r Hr Ht. exfalso. apply (Hnone r Hr).
      unfold is_target in Ht.
      apply andb_true_iff in Ht as [?%bool_decide_eq_true ?%bool_decide_eq_true]. done.
    + simpl. apply marked_nothing. intros r Hr Ht. exfalso. apply (Hnone r Hr).
      unfold is_target in Ht.
      apply andb_true_iff in Ht as [?%bool_decide_eq_true ?%bool_decide_eq_true]. done.
Qed.

(** User 8 asks to mark user 7's notification: 404, nothing changes. *)
Lemma mark_single_read_of_another_user :
  ∃ d', notifications_py.mark_single_read 1 8 one_read_notification
          = (Raise (HTTPException 404 "Notification not found"), d') ∧
        durable d' = durable one_read_notification.
Proof.
  apply (mark_single_read_respects_ownership 1 8 one_read_notification).
  intros r Hr [_ Hu]. apply list_elem_of_singleton in Hr. subst r. discriminate Hu.
Defined.

(** C8 (the code departs from it).  Marking again, with [mark_single_read],
    a record of the caller that is already read leaves the store and the
    unread count as they were, but the call does not succeed: no row was
    changed, [rowcount] is 0 on a connection without CLIENT_FOUND_ROWS, and
    the endpoint raises 404 "Notification not found". *)
Theorem mark_single_read_again_raises_404 (notif_id user_id : Z) (d : Database) :
  (∃ r, r ∈ notifications (durable d) ∧ n_id r = notif_id ∧ n_user_id r = user_id) →
  (∀ r, r ∈ notifications (durable d) → n_id r = notif_id → n_user_id r = user_id →
        n_is_read r = true) →
  ∃ d', notifications_py.mark_single_read notif_id user_id d
          = (Raise (HTTPException 404 "Notification not found"), d') ∧
        durable d' = durable d ∧
        unread user_id d' = unread user_id d.
Proof.
  intros _ Hread.
  assert (∀ r, r ∈ notifications (durable d) → is_target notif_id user_id r = true →
               n_is_read r = true) as Hread'.
  { intros r Hr Ht. unfold is_target in Ht.
    apply andb_true_iff in Ht as [?%bool_decide_eq_true ?%bool_decide_eq_true].
    by apply Hread. }
  pose proof (marked_nothing (is_target notif_id user_id) (durable d) Hread') as Hsame.
  eexists. split; [|split].
  - rewrite mark_single_read_spec. rewrite bool_decide_eq_true_2; [reflexivity|].
    by apply nothing_to_change.
  - exact Hsame.
  - unfold unread. f_equal. f_equal. f_equal. exact Hsame.
Qed.

(** User 7 marks the already-read notification 1 once more. *)
Lemma mark_single_read_again_on_read_record :
  ∃ d', notifications_py.mark_single_read 1 7 one_read_notification
          = (Raise (HTTPException 404 "Notification not found"), d') ∧
        durable d' = durable one_read_notification ∧
        unread 7 d' = unread 7 one_read_notification.
Proof.
  apply (mark_single_read_again_raises_404 1 7 one_read_notification).
  - eexists. split; [by apply list_elem_of_singleton|]. done.
  - intros r Hr _ _. apply list_elem_of_singleton in Hr. by subst r.
Defined.

(* ===================================================================== *)
(** ** The notifying loops                                                *)
(* ===================================================================== *)

Section loop_facts.

Implicit Types (a : App) (t : Target) (targets : list Target) (d : Database).
Implicit Types (w : World).

Lemma set_db_id a : set_db (db a) a = a.
Proof. by destruct a. Qed.

Lemma set_world_id a : set_world (world a) a = a.
Proof. by destruct a. Qed.

Lemma execute_insert_notification_spec t a :
  execute_insert_notification (t_user t) (t_message t) (t_type t) (t_data t) a =
    if refuses (db a) (t_user t)
    then (Raise (DatabaseError "INSERT INTO notifications"), a)
    else (Ok tt, log_event (EvInsert (t_user t) (next_notification_id (db a)))
                   (set_db (insert_row t (db a)) a)).
Proof.
  unfold execute_insert_notification, in_db, mysql.insert_notification. run.
  destruct (refuses (db a) (t_user t)); simpl; [|done].
  by rewrite set_db_id.
Qed.

Lemma send_personal_message_ok message (user_id : Z) w :
  send_personal_message message user_id w
  = (Ok tt, (send_personal_message message user_id w).2).
Proof. by rewrite send_personal_message_spec. Qed.

Lemma await_send_personal_message_spec message (user_id : Z) a :
  await_send_personal_message message user_id a =
    (Ok tt, set_world (send_personal_message message user_id (world a)).2
              (log_event (EvPush user_id) a)).
Proof.
  unfold await_send_personal_message, in_world. run.
  by rewrite send_personal_message_ok.
Qed.

Lemma notify_target_spec t a :
  notify_target t a =
    if refuses (db a) (t_user t)
    then (Raise (DatabaseError "INSERT INTO notifications"), a)
    else (Ok tt,
          mkApp (send_personal_message (t_push t) (t_user t) (world a)).2
            (insert_row t (db a)) (calendar a) (now_str a)
            (trace a ++ [EvInsert (t_user t) (next_notification_id (db a));
                         EvPush (t_user t)])).
Proof.
  unfold notify_target. destruct (refuses (db a) (t_user t)) eqn:Href.
  - erewrite bind_raise; [done|]. by rewrite execute_insert_notification_spec, Href.
  - erewrite bind_ok by (by rewrite execute_insert_notification_spec, Href).
    rewrite await_send_personal_message_spec. unfold set_world, log_event. simpl.
    by rewrite <- app_assoc.
Qed.

(** What a push does to the world. *)
Lemma send_personal_message_pushed message (user_id : Z) w :
  let w' := (send_personal_message message user_id w).2 in
  (∀ u, sockets w' u ⊆ sockets w u) ∧
  ∃ frames, wire w' = wire w ++ frames ∧
    ∀ ws m, (ws, m) ∈ frames → m = message ∧ ws ∈ sockets w user_id.
Proof.
  simpl. rewrite send_personal_message_spec. simpl.
  destruct (elements (sockets w user_id)) as [|x l] eqn:Hs.
  - split; [done|]. exists []. rewrite app_nil_r. split; [done|].
    by intros ws m ?%elem_of_nil.
  - split.
    + intros u. rewrite visit_sockets. case_bool_decide; set_solver.
    + eexists. split; [apply visit_wire|].
      intros ws m [x' [[= -> ->] [_ Hin]%list_elem_of_filter]]%list_elem_of_fmap.
      split; [done|]. rewrite <- Hs in Hin. by apply elem_of_elements in Hin.
Qed.

Lemma pushed_from_refl targets w : pushed_from targets w w.
Proof.
  split; [done|]. exists []. rewrite app_nil_r. split; [done|].
  by intros ws m ?%elem_of_nil.
Qed.

(** A loop over targets: it stops at the first refused target; result,
    store and trace are those the targets and the store determine, and the
    world is reached by pushes for the targets it got to. *)
Lemma for_each_notify_target targets : ∀ a,
  ∃ w', for_each targets notify_target a =
          (if all_accepted (refuses (db a)) targets then Ok tt
           else Raise (DatabaseError "INSERT INTO notifications"),
           mkApp w' (db_after targets (db a)) (calendar a) (now_str a)
             (trace a ++ events_of (refuses (db a)) (next_notification_id (db a)) targets)) ∧
        pushed_from (accepted (refuses (db a)) targets) (world a) w'.
Proof.
  induction targets as [|t targets IH]; intros a.
  - exists (world a). simpl. rewrite app_nil_r. split; [by destruct a|].
    apply pushed_from_refl.
  - simpl. destruct (refuses (db a) (t_user t)) eqn:Href.
    + exists (world a). split; [|apply pushed_from_refl].
      erewrite bind_raise by (by rewrite notify_target_spec, Href).
      simpl. rewrite app_nil_r. by destruct a.
    + erewrite bind_ok by (by rewrite notify_target_spec, Href).
      edestruct IH as (w' & Hrun & Hsub & frames & Hwire & Hframes).
      exists w'. split.
      * rewrite Hrun. simpl. by rewrite <- app_assoc.
      * simpl in *.
        destruct (send_personal_message_pushed (t_push t) (t_user t) (world a))
          as (Hsub1 & frames1 & Hwire1 & Hframes1). simpl in *.
        split; [intros u; etrans; [apply Hsub|apply Hsub1]|].
        exists (frames1 ++ frames). split.
        -- by rewrite Hwire, Hwire1, <- app_assoc.
        -- intros ws m [Hin|Hin]%elem_of_app.
           ++ destruct (Hframes1 ws m Hin) as [-> Hws].
              exists t. split; [left|done].
           ++ destruct (Hframes ws m Hin) as (t' & Ht' & -> & Hws).
              exists t'. split; [by right|]. split; [done|]. by apply Hsub1.
Qed.

(** *** The store after a loop *)

Lemma db_after_frame targets : ∀ d,
  let d' := db_after targets d in
  durable d' = durable d ∧ refuses d' = refuses d ∧ recipients d' = recipients d ∧
  due_today d' = due_today d ∧ stale_offers d' = stale_offers d ∧
  jobs d' = jobs d ∧
  companies (work d') = companies (work d) ∧
  company_jobs (work d') = company_jobs (work d) ∧
  db_now d' = db_now d ∧
  notifications (work d') =
    notifications (work d) ++
      rows_of (refuses d) (next_notification_id d) (db_now d) targets.
Proof.
  induction targets as [|t targets IH]; intros d; simpl.
  - by rewrite app_nil_r.
  - destruct (refuses d (t_user t)) eqn:Href; simpl.
    + by rewrite app_nil_r.
    + destruct (IH (insert_row t d))
        as (-> & -> & -> & -> & -> & -> & -> & -> & -> & ->).
      simpl. by rewrite <- app_assoc.
Qed.

Lemma all_accepted_accepted (refused : Z → bool) targets :
  all_accepted refused targets = true → accepted refused targets = targets.
Proof.
  induction targets as [|t targets IH]; simpl; [done|].
  intros [Ht Hrest]%andb_true_iff. apply negb_true_iff in Ht. rewrite Ht.
  f_equal. by apply IH.
Qed.

End loop_facts.

(* ===================================================================== *)
(** ** [create_full_installation]: the company part                       *)
(* ===================================================================== *)

Section store_company_facts.

Implicit Types (a : App) (d : Database) (data : CompanyPayload).

Lemma company_step_refl a : company_step a a.
Proof. by repeat split. Qed.

Lemma company_step_trans a1 a2 a3 :
  company_step a1 a2 → company_step a2 a3 → company_step a1 a3.
Proof.
  unfold company_step, same_notifications. intros H12 H23.
  destruct_and!. repeat split; congruence.
Qed.

Lemma company_jobs_loop_step (rows : list CompanyJob) : ∀ a,
  company_step a
    (foldl (λ a row, set_db (set_work (set_company_jobs (λ rs, rs ++ [row])) (db a)) a)
       a rows).
Proof.
  induction rows as [|row rows IH]; intros a; simpl; [apply company_step_refl|].
  eapply company_step_trans; [|apply IH]. by repeat split.
Qed.

Lemma company_jobs_loop (f : Z → CompanyJob) (job_ids : list Z) a :
  ∃ a', for_each job_ids (λ job_id, in_db (mysql.insert_company_job (f job_id))) a
          = (Ok tt, a') ∧ company_step a a'.
Proof.
  eexists. split.
  - apply (for_each_ok _
      (λ job_id a, set_db (set_work (set_company_jobs (λ rs, rs ++ [f job_id])) (db a)) a)).
    intros job_id a0. reflexivity.
  - rewrite <- (foldl_fmap
      (λ a row, set_db (set_work (set_company_jobs (λ rs, rs ++ [row])) (db a)) a)
      a job_ids f).
    apply company_jobs_loop_step.
Qed.

Lemma calendar_part data (company_id : Z) a :
  ∃ a', (if truthy_str (probable_installation_date data) then
           try_except
             (event_id <- google_calendar_py.upsert_installation_event ;;
              in_db (mysql.update_calendar_event_id event_id company_id))
             (λ _, ret tt)
         else ret tt) a = (Ok tt, a') ∧ company_step a a'.
Proof.
  destruct (truthy_str (probable_installation_date data)).
  - unfold google_calendar_py.upsert_installation_event, in_db,
      mysql.update_calendar_event_id. run.
    destruct (calendar a); simpl; eexists; (split; [reflexivity|by repeat split]).
  - exists a. split; [done|apply company_step_refl].
Qed.

(** The company part never raises; it commits, and leaves the notification
    side of the store and the registry as they were. *)
Lemma store_company_spec data (now : string) (current_user_id : Z) a :
  ∃ a', installations_py.store_company data now current_user_id a
          = (Ok (next_company_id (db a)), a') ∧
        world a' = world a ∧ calendar a' = calendar a ∧ now_str a' = now_str a ∧
        trace a' = trace a ++ [EvCommit] ∧
        same_notifications (db a) (db a') ∧
        notifications (durable (db a')) = notifications (work (db a)).
Proof.
  unfold installations_py.store_company.
  erewrite bind_ok by reflexivity.
  match goal with |- context [bind (for_each _ _) _ ?a0] => set (a1 := a0) end.
  destruct (company_jobs_loop
    (λ job_id, mkCompanyJob (next_company_id (db a)) job_id
       (job_notes data ≫= (.!! job_id)) (assigned_users data ≫= (.!! job_id))
       (job_due_dates data ≫= (.!! job_id))) (selected_jobs data) a1)
    as (a2 & Hloop & Hstep2).
  erewrite bind_ok by exact Hloop.
  destruct (calendar_part data (next_company_id (db a)) a2) as (a3 & Hcal & Hstep3).
  erewrite bind_ok by exact Hcal.
  assert (company_step a a3) as Hstep.
  { eapply company_step_trans; [|exact Hstep3].
    eapply company_step_trans; [|exact Hstep2]. by repeat split. }
  eexists. split; [reflexivity|].
  destruct Hstep as (Hw & Hc & Hn & Ht & Hd). unfold same_notifications in *.
  simpl. destruct_and!. repeat split; simpl; congruence.
Qed.

End store_company_facts.

(* ===================================================================== *)
(** ** The two notifying endpoints                                        *)
(* ===================================================================== *)

Section endpoint_outcomes.

Implicit Types (a : App) (d : Database) (data : CompanyPayload).

Lemma try_except_ok {S A} (c : M S A) (h : exn → M S A) s x s' :
  c s = (Ok x, s') → try_except c h s = (Ok x, s').
Proof. unfold try_except. by intros ->. Qed.

Lemma try_except_raise {S A} (c : M S A) (h : exn → M S A) s e s' :
  c s = (Raise e, s') → try_except c h s = h e s'.
Proof. unfold try_except. by intros ->. Qed.

Lemma try_finally_run {S A} (c : M S A) (f : M S unit) s r s' s'' :
  c s = (r, s') → f s' = (Ok tt, s'') → try_finally c f s = (r, s'').
Proof. unfold try_finally. by intros -> ->. Qed.

Lemma bind_unfold {S A B} (c : M S A) (k : A → M S B) s :
  bind c k s = match c s with
               | (Ok x, s') => k x s'
               | (Raise e, s') => (Raise e, s')
               end.
Proof. done. Qed.

Lemma bind_assoc {S A B C} (c : M S A) (k1 : A → M S B) (k2 : B → M S C) s :
  bind (bind c k1) k2 s = bind c (λ x, bind (k1 x) k2) s.
Proof. unfold bind. by destruct (c s) as [[x|e] s']. Qed.

Lemma for_each_fmap {S A B} (f : A → B) (body : B → M S unit) (xs : list A) s :
  for_each (f <$> xs) body s = for_each xs (λ x, body (f x)) s.
Proof.
  revert s. induction xs as [|x xs IH]; intros s; [done|].
  rewrite fmap_cons. simpl for_each. rewrite !(bind_unfold (body (f x))).
  destruct (body (f x) s) as [[[]|e] s']; [apply IH|done].
Qed.

Lemma for_each_app {S A} (body : A → M S unit) (xs ys : list A) s :
  for_each (xs ++ ys) body s = (for_each xs body ;; for_each ys body) s.
Proof.
  revert s. induction xs as [|x xs IH]; intros s; [done|].
  simpl for_each. rewrite bind_assoc, !(bind_unfold (body x)).
  destruct (body x s) as [[[]|e] s']; [apply IH|done].
Qed.

(** The loop of [create_full_installation] is a loop over its targets. *)
Lemma for_each_recipients (message : string) (payload : Json) (now : string)
    (rows : list (Z * string)) a :
  for_each rows (installations_py.notify_recipient message payload now) a
  = for_each (recipient_target message payload now <$> rows) notify_target a.
Proof. by rewrite for_each_fmap. Qed.

Lemma lead_targets_cons (prefix type : string) (row : LeadRow) (rows : list LeadRow) :
  lead_targets prefix type (row :: rows) =
    match owner_user_id row with
    | None | Some 0 => []
    | Some owner =>
        let msg := prefix +:+ company_name row in
        [mkTarget owner msg type None (sales_py.push_message type msg (lead_id row))]
    end ++ lead_targets prefix type rows.
Proof. done. Qed.

(** A loop of [run_sales_notifications] is a loop over the leads that have an
    owner. *)
Lemma for_each_leads (prefix type : string) (rows : list LeadRow) : ∀ a,
  for_each rows (sales_py.notify_owner prefix type) a
  = for_each (lead_targets prefix type rows) notify_target a.
Proof.
  induction rows as [|row rows IH]; intros a; [done|].
  rewrite lead_targets_cons. simpl for_each at 1.
  unfold sales_py.notify_owner at 1.
  destruct (owner_user_id row) as [[|owner|owner]|].
  - apply IH.
  - simpl for_each.
    change (execute_insert_notification _ _ _ _ ;; await_send_personal_message _ _)
      with (notify_target (mkTarget (Z.pos owner) (prefix +:+ company_name row) type None
              (sales_py.push_message type (prefix +:+ company_name row) (lead_id row)))).
    rewrite !(bind_unfold (notify_target _)).
    destruct (notify_target _ a) as [[[]|e] a']; [apply IH|done].
  - simpl for_each.
    change (execute_insert_notification _ _ _ _ ;; await_send_personal_message _ _)
      with (notify_target (mkTarget (Z.neg owner) (prefix +:+ company_name row) type None
              (sales_py.push_message type (prefix +:+ company_name row) (lead_id row)))).
    rewrite !(bind_unfold (notify_target _)).
    destruct (notify_target _ a) as [[[]|e] a']; [apply IH|done].
  - apply IH.
Qed.

Ltac run_app :=
  unfold conn_commit, conn_rollback, in_db, mysql.get_db, mysql.commit,
    mysql.rollback, mysql.close;
  run.

Lemma create_full_installation_outcome data (current_user_id : Z) a :
  notify_outcome [EvCommit] (installation_targets data a)
    (installations_py.response data (next_company_id (db a)) (now_str a)) a
    (installations_py.create_full_installation data current_user_id a).
Proof.
  destruct a as [w d c n tr].
  unfold installations_py.create_full_installation, notify_outcome,
    installation_targets.
  run_app.
  match goal with
  | |- context [installations_py.store_company ?x ?y ?z ?s] =>
      destruct (store_company_spec x y z s)
        as ([w1 d1 c1 n1 tr1] & Hs & Hw & Hc & Hn & Ht & Hsame & Hdur);
      rewrite Hs
  end.
  simpl in Hw, Hc, Hn, Ht, Hsame, Hdur. subst w1 c1 n1 tr1.
  destruct Hsame as (Hwork & Hid & Hnow & Href & Hrec & Hjobs & _ & _).
  simpl in Hwork, Hid, Hnow, Href, Hrec, Hjobs. simpl.
  rewrite for_each_recipients, Hrec, Hjobs.
  match goal with
  | |- context [for_each ?ts notify_target ?s] =>
      destruct (for_each_notify_target ts s) as (w' & Hrun & Hpushed);
      rewrite Hrun; set (targets := ts) in *
  end.
  simpl in Hpushed. simpl. rewrite Href, Hid.
  destruct (db_after_frame targets d1)
    as (Hdur' & _ & _ & _ & _ & _ & _ & _ & _ & Hrows). simpl in Hdur', Hrows.
  rewrite Href in Hpushed.
  destruct (all_accepted (refuses d) targets) eqn:Hok; simpl.
  - rewrite Hrows, Hwork, Hid, Hnow, Href. simpl.
    split; [done|]. split; [by rewrite <- !app_assoc|]. split; [done|exact Hpushed].
  - rewrite Hdur', Hdur, app_nil_r. simpl.
    split; [done|]. split; [by rewrite <- !app_assoc|]. split; [done|exact Hpushed].
Qed.

(** The two loops of [run_sales_notifications], with the SELECT between
    them, are one loop over the targets of both. *)
Lemma sales_loops {A} (K : list LeadRow → M App A) a :
  (for_each (due_today (db a))
     (sales_py.notify_owner "Follow-up due today: " "sales_followup_due") ;;
   stale_list <- in_db (gets stale_offers) ;;
   for_each stale_list
     (sales_py.notify_owner "5+ days since offer: " "sales_offer_stale") ;;
   K stale_list) a
  = (for_each (sales_targets (db a)) notify_target ;; K (stale_offers (db a))) a.
Proof.
  unfold sales_targets.
  set (t1 := lead_targets "Follow-up due today: " "sales_followup_due" (due_today (db a))).
  rewrite (bind_unfold (for_each (t1 ++ _) _)), for_each_app.
  rewrite !(bind_unfold (for_each _ _)), for_each_leads. fold t1.
  destruct (for_each_notify_target t1 a) as (w1 & Hrun1 & _). rewrite Hrun1.
  destruct (all_accepted (refuses (db a)) t1); [|done].
  unfold in_db. run.
  destruct (db_after_frame t1 (db a)) as (_ & _ & _ & _ & -> & _).
  rewrite for_each_leads. done.
Qed.

Lemma sales_body a :
  (due_list <- in_db (gets due_today) ;;
   for_each due_list
     (sales_py.notify_owner "Follow-up due today: " "sales_followup_due") ;;
   stale_list <- in_db (gets stale_offers) ;;
   for_each stale_list
     (sales_py.notify_owner "5+ days since offer: " "sales_offer_stale") ;;
   conn_commit ;;
   ret (sales_py.response due_list stale_list)) a
  = (for_each (sales_targets (db a)) notify_target ;;
     conn_commit ;;
     ret (sales_py.response (due_today (db a)) (stale_offers (db a)))) a.
Proof.
  erewrite bind_ok; [|unfold in_db, zoom, gets; rewrite set_db_id; reflexivity].
  apply (sales_loops
    (λ stale_list, conn_commit ;; ret (sales_py.response (due_today (db a)) stale_list)) a).
Qed.

Lemma run_sales_notifications_outcome a :
  notify_outcome [] (sales_targets (db a))
    (sales_py.response (due_today (db a)) (stale_offers (db a))) a
    (sales_py.run_sales_notifications a).
Proof.
  destruct a as [w d c n tr].
  unfold sales_py.run_sales_notifications, notify_outcome.
  erewrite bind_ok by reflexivity.
  unfold try_finally, try_except.
  rewrite sales_body, bind_unfold.
  match goal with
  | |- context [for_each ?ts notify_target ?s] =>
      destruct (for_each_notify_target ts s) as (w' & Hrun & Hpushed);
      destruct (db_after_frame ts (db s)) as (Hdur' & _ & _ & _ & _ & _ & _ & _ & _ & Hrows);
      rewrite Hrun
  end.
  simpl in Hpushed, Hdur', Hrows. simpl.
  destruct (all_accepted (refuses d) (sales_targets _)) eqn:Hok.
  - run_app. rewrite Hrows.
    split; [done|]. split; [by rewrite <- !app_assoc|]. split; [done|exact Hpushed].
  - run_app. rewrite Hdur', app_nil_r.
    split; [done|]. split; [by rewrite <- !app_assoc|]. split; [done|exact Hpushed].
Qed.

End endpoint_outcomes.

(* ===================================================================== *)
(** ** Order of persistence and push                                      *)
(* ===================================================================== *)

Section order_facts.

Implicit Types (a : App) (targets : list Target) (refused : Z → bool).

Lemma events_of_insert_then_push refused targets : ∀ next_id,
  insert_then_push (events_of refused next_id targets).
Proof.
  induction targets as [|t targets IH]; intros next_id i u; simpl.
  - by rewrite lookup_nil.
  - destruct (refused (t_user t)); [by rewrite lookup_nil|].
    destruct i as [|[|i]]; simpl.
    + done.
    + intros [= ->]. by exists 0%nat, next_id.
    + intros (j & id & -> & Hj)%IH. by exists (S (S j)), id.
Qed.

Lemma inserts_of_events_of refused targets : ∀ next_id,
  inserts_of (events_of refused next_id targets) = t_user <$> accepted refused targets.
Proof.
  induction targets as [|t targets IH]; intros next_id; simpl; [done|].
  destruct (refused (t_user t)); [done|].
  unfold inserts_of in *. simpl. by rewrite IH.
Qed.

Lemma pushes_of_events_of refused targets : ∀ next_id,
  pushes_of (events_of refused next_id targets) = t_user <$> accepted refused targets.
Proof.
  induction targets as [|t targets IH]; intros next_id; simpl; [done|].
  destruct (refused (t_user t)); [done|].
  unfold pushes_of in *. simpl. by rewrite IH.
Qed.

Lemma notify_outcome_order before targets (v : Json) a r :
  notify_outcome before targets v a r → insert_push_commit before targets a r.
Proof.
  intros (Hres & Htrace & Hrows & _). unfold insert_push_commit.
  split; [apply events_of_insert_then_push|].
  split; [apply inserts_of_events_of|].
  split; [apply pushes_of_events_of|].
  unfold new_events. rewrite Htrace, drop_app_length.
  destruct (all_accepted (refuses (db a)) targets).
  - split; [done|]. split; [by exists v|done].
  - split; [done|]. split; [done|]. by rewrite app_nil_r in Hrows.
Qed.

End order_facts.

(** C1, as the code has it.  In every run of [create_full_installation] and
    of [run_sales_notifications], each target's record is inserted in the
    open transaction and the push to that target follows at once, before the
    next target's insert; the commit that makes the records durable comes
    after all pushes and keeps one row per target.  The run stops at the
    first insert the store refuses:
    that target and the later ones get neither record nor push, the
    transaction is rolled back, the committed notifications are as before,
    and the caller gets a 500. *)
Theorem insert_precedes_push_and_commit_comes_last (a : App) :
  (∀ data current_user_id,
     insert_push_commit [EvCommit] (installation_targets data a) a
       (installations_py.create_full_installation data current_user_id a)) ∧
  insert_push_commit [] (sales_targets (db a)) a (sales_py.run_sales_notifications a).
Proof.
  split.
  - intros data current_user_id.
    eapply notify_outcome_order, create_full_installation_outcome.
  - eapply notify_outcome_order, run_sales_notifications_outcome.
Qed.

(** C1, as stated, fails.  With two recipients the push to the first is
    attempted before the second record is inserted and before anything is
    committed; and when the store refuses the second insert, the run fails
    after a push to the first recipient went out on both of her sockets. *)
Lemma push_attempted_before_records_are_durable :
  ¬ durable_before_any_push (office (λ _, false))
      (installations_py.create_full_installation acme 1 (office (λ _, false))) ∧
  ¬ durable_before_any_push (office refuses_8)
      (installations_py.create_full_installation acme 1 (office refuses_8)).
Proof.
  split.
  - intros [Horder _].
    assert (3 < 2)%nat; [|lia].
    apply (Horder 2%nat 3%nat 7 8 2); vm_compute; reflexivity.
  - intros [_ Hfail].
    destruct Hfail as [Hpush _]; [eexists; vm_compute; reflexivity|].
    vm_compute in Hpush. discriminate Hpush.
Qed.

(* ===================================================================== *)
(** ** Pushes and records                                                 *)
(* ===================================================================== *)

Section record_facts.

Implicit Types (a : App) (targets : list Target) (refused : Z → bool).

Lemma rows_of_lookup refused (now : string) targets : ∀ (next_id : Z) (i : nat) t,
  all_accepted refused targets = true → targets !! i = Some t →
  rows_of refused next_id now targets !! i
  = Some (row_of (next_id + Z.of_nat i) now t).
Proof.
  induction targets as [|t0 targets IH]; intros next_id i t; simpl; [done|].
  intros [Ht Hrest]%andb_true_iff. apply negb_true_iff in Ht. rewrite Ht.
  destruct i as [|i]; simpl.
  - intros [= ->]. by rewrite Z.add_0_r.
  - intros Hi. rewrite (IH (next_id + 1) i t Hrest Hi). do 2 f_equal. lia.
Qed.

Lemma rows_of_length refused (now : string) targets : ∀ (next_id : Z),
  all_accepted refused targets = true →
  length (rows_of refused next_id now targets) = length targets.
Proof.
  induction targets as [|t0 targets IH]; intros next_id; simpl; [done|].
  intros [Ht Hrest]%andb_true_iff. apply negb_true_iff in Ht. rewrite Ht.
  simpl. by rewrite IH.
Qed.

Lemma notify_outcome_records before targets (v : Json) a r :
  notify_outcome before targets v a r → push_derives_from_record targets a r.
Proof.
  intros (Hres & _ & Hrows & Hsub & frames & Hwire & Hframes).
  unfold push_derives_from_record.
  destruct (all_accepted (refuses (db a)) targets) eqn:Hok;
    (split; [intros v0 Hv0|intros [e He]]); rewrite Hres in *; try done.
  - rewrite Hrows. split; [by rewrite length_app, rows_of_length|].
    intros ws m. unfold new_frames. rewrite Hwire, drop_app_length.
    intros (t & Ht & -> & Hws)%Hframes.
    rewrite all_accepted_accepted in Ht by done.
    apply list_elem_of_lookup in Ht as [i Hi].
    exists i, t. split; [done|]. split; [done|]. split; [done|].
    rewrite lookup_app_r by lia.
    replace (length (notifications (durable (db a))) + i
             - length (notifications (durable (db a))))%nat with i by lia.
    by apply rows_of_lookup.
  - by rewrite app_nil_r in Hrows.
Qed.

Lemma notify_outcome_independent (run : App → res Json * App)
    (before : list Event) (targets : App → list Target) (v : App → Json) a :
  (∀ a, notify_outcome before (targets a) (v a) a (run a)) →
  (∀ w, targets (set_world w a) = targets a ∧ v (set_world w a) = v a) →
  independent_of_pushes run a.
Proof.
  intros Hout Hsame w. destruct (Hsame w) as [Ht Hv].
  destruct (Hout a) as (Hres & _ & Hrows & _).
  destruct (Hout (set_world w a)) as (Hres' & _ & Hrows' & _).
  rewrite Ht, Hv in *. simpl in *. by rewrite Hres, Hres', Hrows, Hrows'.
Qed.

Lemma installation_targets_mirror data a t :
  t ∈ installation_targets data a → mirrors_record t.
Proof.
  unfold installation_targets. intros (user & -> & _)%list_elem_of_fmap. by split.
Qed.

Lemma lead_targets_mirror (prefix type : string) (rows : list LeadRow) t :
  t ∈ lead_targets prefix type rows → mirrors_record t.
Proof.
  unfold lead_targets. intros (row & Ht & _)%list_elem_of_bind.
  destruct (owner_user_id row) as [[|owner|owner]|];
    try (by apply elem_of_nil in Ht);
    apply list_elem_of_singleton in Ht; subst t; by split.
Qed.

Lemma sales_targets_mirror (d : Database) t : t ∈ sales_targets d → mirrors_record t.
Proof.
  unfold sales_targets. intros [Ht|Ht]%elem_of_app; by eapply lead_targets_mirror.
Qed.

End record_facts.

(** C2, as the code has it.  In a run of either endpoint that returns its
    value, every push delivered over a live connection is the push of one
    target of the run, it went to a connection of that target's user, and
    that target's record, one per target, is committed when the run ends;
    the push carries the record's message.  Whether the run gets through and
    which notifications are committed never depends on a push succeeding.
    In a run that raises, no notification of the run is kept, whatever was
    pushed before. *)
Theorem pushes_follow_records (a : App) :
  (∀ data current_user_id,
     push_derives_from_record (installation_targets data a) a
       (installations_py.create_full_installation data current_user_id a) ∧
     independent_of_pushes
       (installations_py.create_full_installation data current_user_id) a ∧
     Forall mirrors_record (installation_targets data a)) ∧
  push_derives_from_record (sales_targets (db a)) a
    (sales_py.run_sales_notifications a) ∧
  independent_of_pushes sales_py.run_sales_notifications a ∧
  Forall mirrors_record (sales_targets (db a)).
Proof.
  split; [intros data current_user_id; split; [|split]|split; [|split]].
  - eapply notify_outcome_records, create_full_installation_outcome.
  - apply (notify_outcome_independent _ [EvCommit] (installation_targets data)
             (λ a, installations_py.response data (next_company_id (db a)) (now_str a))).
    + intros a'. apply create_full_installation_outcome.
    + done.
  - apply list.Forall_forall. intros t. apply installation_targets_mirror.
  - eapply notify_outcome_records, run_sales_notifications_outcome.
  - apply (notify_outcome_independent _ [] (λ a, sales_targets (db a))
             (λ a, sales_py.response (due_today (db a)) (stale_offers (db a)))).
    + intros a'. apply run_sales_notifications_outcome.
    + done.
  - apply list.Forall_forall. intros t. apply sales_targets_mirror.
Qed.

(** C2, as stated, fails on the failure path: the store refuses the insert
    for the second recipient, the run is rolled back and no notification is
    in the store, yet the push to the first recipient was delivered. *)
Lemma delivered_push_without_record :
  ¬ every_push_has_its_record (office refuses_8)
      (installations_py.create_full_installation acme 1 (office refuses_8)).
Proof.
  intros Hall.
  destruct (new_frames (office refuses_8)
              (installations_py.create_full_installation acme 1 (office refuses_8)))
    as [|[ws m] frames] eqn:Hframes.
  - vm_compute in Hframes. discriminate Hframes.
  - destruct (Hall ws m) as (row & Hrow & _); [rewrite Hframes; left|].
    vm_compute in Hrow. by apply elem_of_nil in Hrow.
Qed.

(* ===================================================================== *)
(** ** What the endpoints return, and the shape of what they push         *)
(* ===================================================================== *)

Section return_facts.

Implicit Types (a : App) (targets : list Target) (refused : Z → bool).

Lemma notify_outcome_summary (run : App → res Json * App)
    (before : list Event) (targets : App → list Target) (v : App → Json) a :
  (∀ a, notify_outcome before (targets a) (v a) a (run a)) →
  (∀ w, targets (set_world w a) = targets a ∧ v (set_world w a) = v a) →
  returns_summary run targets v a.
Proof.
  intros Hout Hsame. split.
  - by destruct (Hout a) as (-> & _).
  - intros w. by destruct (notify_outcome_independent run before targets v a Hout Hsame w).
Qed.

Lemma accepted_subseteq refused targets t :
  t ∈ accepted refused targets → t ∈ targets.
Proof.
  induction targets as [|t0 targets IH]; simpl; [done|].
  destruct (refused (t_user t0)); [by intros ?%elem_of_nil|].
  intros [->|Hin]%elem_of_cons; [left|right; by apply IH].
Qed.

(** Every frame a run delivered is the push of one of its targets. *)
Lemma notify_outcome_frames before targets (v : Json) a r ws m :
  notify_outcome before targets v a r → (ws, m) ∈ new_frames a r →
  ∃ t, t ∈ targets ∧ m = t_push t.
Proof.
  intros (_ & _ & _ & _ & frames & Hwire & Hframes). unfold new_frames.
  rewrite Hwire, drop_app_length. intros (t & Ht & -> & _)%Hframes.
  exists t. split; [by eapply accepted_subseteq|done].
Qed.

Lemma installation_targets_keys data a t :
  t ∈ installation_targets data a → keys (t_push t) = push_fields.
Proof. unfold installation_targets. by intros (user & -> & _)%list_elem_of_fmap. Qed.

Lemma lead_targets_keys (prefix type : string) (rows : list LeadRow) t :
  t ∈ lead_targets prefix type rows →
  keys (t_push t) = ["event"; "type"; "message"; "data"].
Proof.
  unfold lead_targets. intros (row & Ht & _)%list_elem_of_bind.
  destruct (owner_user_id row) as [[|owner|owner]|];
    try (by apply elem_of_nil in Ht);
    apply list_elem_of_singleton in Ht; by subst t.
Qed.

End return_facts.

(** C5, as the code has it.  A run that gets through returns a summary, not
    record identifiers: [create_full_installation] the status and the echo
    of the company it stored, [run_sales_notifications] the status and the
    numbers of leads the two SELECTs returned; a run that an insert stops
    raises 500.  Push outcomes are no part of it: the result is the same
    whatever the registry and the sockets are. *)
Theorem endpoints_return_a_summary (a : App) :
  (∀ data current_user_id,
     returns_summary (installations_py.create_full_installation data current_user_id)
       (installation_targets data)
       (λ a, installations_py.response data (next_company_id (db a)) (now_str a)) a) ∧
  returns_summary sales_py.run_sales_notifications
    (λ a, sales_targets (db a))
    (λ a, sales_py.response (due_today (db a)) (stale_offers (db a))) a.
Proof.
  split.
  - intros data current_user_id.
    apply (notify_outcome_summary _ [EvCommit]); [|done].
    intros a'. apply create_full_installation_outcome.
  - apply (notify_outcome_summary _ []); [|done].
    intros a'. apply run_sales_notifications_outcome.
Qed.

(** C5, as stated, fails: the value returned does not tell which records
    were persisted.  Each endpoint returns the same value in the office with
    targets, where it persists records 1 and 2, and in the office without
    targets, where it persists none. *)
Lemma returned_value_hides_the_persisted_ids :
  ¬ returns_persisted_ids sales_py.run_sales_notifications ∧
  ¬ returns_persisted_ids (installations_py.create_full_installation acme 1).
Proof.
  split.
  - intros [decode Hdecode].
    set (v := JDict [("status", JStr "ok"); ("followup", JInt 2); ("stale", JInt 1)]).
    assert ((sales_py.run_sales_notifications (office (λ _, false))).1 = Ok v) as Hr1
      by (vm_compute; reflexivity).
    assert ((sales_py.run_sales_notifications office_without_targets).1 = Ok v) as Hr2
      by (vm_compute; reflexivity).
    apply Hdecode in Hr1, Hr2.
    assert (1 ∈ persisted_ids (office (λ _, false))
                  (sales_py.run_sales_notifications (office (λ _, false)))) as Hin
      by (apply (bool_decide_unpack _); vm_compute; exact I).
    assert (1 ∉ persisted_ids office_without_targets
                  (sales_py.run_sales_notifications office_without_targets)) as Hout
      by (apply (bool_decide_unpack _); vm_compute; exact I).
    rewrite <- Hr1, Hr2 in Hin. done.
  - intros [decode Hdecode].
    set (v := installations_py.response acme 1 "2025-01-01 14:00:00").
    assert ((installations_py.create_full_installation acme 1 (office (λ _, false))).1
            = Ok v) as Hr1 by (vm_compute; reflexivity).
    assert ((installations_py.create_full_installation acme 1 office_without_targets).1
            = Ok v) as Hr2 by (vm_compute; reflexivity).
    apply Hdecode in Hr1, Hr2.
    assert (1 ∈ persisted_ids (office (λ _, false))
                  (installations_py.create_full_installation acme 1
                     (office (λ _, false)))) as Hin
      by (apply (bool_decide_unpack _); vm_compute; exact I).
    assert (1 ∉ persisted_ids office_without_targets
                  (installations_py.create_full_installation acme 1
                     office_without_targets)) as Hout
      by (apply (bool_decide_unpack _); vm_compute; exact I).
    rewrite <- Hr1, Hr2 in Hin. done.
Qed.

(** C6 (the code departs from it).  Every frame [create_full_installation]
    delivers has the five fields of the wire shape; every frame
    [run_sales_notifications] delivers has four of them: its dict has no
    ["timestamp"]. *)
Theorem sales_push_has_no_timestamp (a : App) :
  (∀ data current_user_id ws m,
     (ws, m) ∈ new_frames a
                 (installations_py.create_full_installation data current_user_id a) →
     keys m = push_fields) ∧
  (∀ ws m,
     (ws, m) ∈ new_frames a (sales_py.run_sales_notifications a) →
     keys m = ["event"; "type"; "message"; "data"] ∧ dict_get "timestamp" m = None).
Proof.
  split.
  - intros data current_user_id ws m Hin.
    destruct (notify_outcome_frames _ _ _ _ _ ws m
                (create_full_installation_outcome data current_user_id a) Hin)
      as (t & Ht & ->).
    by eapply installation_targets_keys.
  - intros ws m Hin.
    destruct (notify_outcome_frames _ _ _ _ _ ws m
                (run_sales_notifications_outcome a) Hin) as (t & Ht & ->).
    unfold sales_targets in Ht.
    assert (keys (t_push t) = ["event"; "type"; "message"; "data"]) as Hkeys
      by (apply elem_of_app in Ht as [Ht|Ht]; by eapply lead_targets_keys).
    split; [done|].
    destruct (t_push t) as [| | | |fields]; try done. simpl in *.
    destruct fields as [|[k1 v1] [|[k2 v2] [|[k3 v3] [|[k4 v4] [|? ?]]]]]; try done.
    simpl in Hkeys. by injection Hkeys as -> -> -> ->.
Qed.

(** The sales run in the office: a frame goes out, without timestamp. *)
Lemma sales_push_in_the_office :
  ∃ ws m, (ws, m) ∈ new_frames (office (λ _, false))
                      (sales_py.run_sales_notifications (office (λ _, false))) ∧
    keys m = ["event"; "type"; "message"; "data"] ∧ dict_get "timestamp" m = None.
Proof.
  exists 2%nat, (sales_py.push_message "sales_followup_due" "Follow-up due today: Acme" 11).
  assert ((2%nat, sales_py.push_message "sales_followup_due"
                    "Follow-up due today: Acme" 11)
          ∈ new_frames (office (λ _, false))
              (sales_py.run_sales_notifications (office (λ _, false)))) as Hin
    by (vm_compute; left).
  split; [exact Hin|].
  exact (proj2 (sales_push_has_no_timestamp (office (λ _, false))) _ _ Hin).
Defined.

(* ===================================================================== *)
(** ** More on the registry: connect, disconnect, counts                  *)
(* ===================================================================== *)

Section registry_operations.

Implicit Types (w : World) (ws : WebSocket) (message : Json) (user_id : Z).

Lemma sockets_remove_socket user_id ws (conns : gmap Z (gset WebSocket)) :
  default ∅ (remove_socket user_id ws conns !! user_id)
  = default ∅ (conns !! user_id) ∖ {[ws]}.
Proof.
  unfold remove_socket. destruct (conns !! user_id) as [s|] eqn:Hs; simpl.
  - destruct (decide (s ≠ ∅ ∧ ws ∈ s)) as [[Hne Hin]|Hno].
    + rewrite (bool_decide_eq_true_2 _ Hne), (bool_decide_eq_true_2 _ Hin). simpl.
      case_bool_decide as He.
      * rewrite lookup_delete_eq. simpl. by rewrite He.
      * by rewrite lookup_insert_eq.
    + assert (bool_decide (s ≠ ∅) && bool_decide (ws ∈ s) = false) as ->.
      { apply andb_false_iff. rewrite !bool_decide_eq_false.
        destruct (decide (s ≠ ∅)); [right|left]; naive_solver. }
      rewrite Hs. simpl. destruct (decide (ws ∈ s)); [|set_solver].
      destruct (decide (s = ∅)); [set_solver|naive_solver].
  - rewrite Hs. set_solver.
Qed.

Lemma remove_socket_other user_id ws (conns : gmap Z (gset WebSocket)) (u : Z) :
  u ≠ user_id → remove_socket user_id ws conns !! u = conns !! u.
Proof.
  intros Hne. unfold remove_socket. destruct (conns !! user_id) as [s|]; [|done].
  destruct (bool_decide (s ≠ ∅) && bool_decide (ws ∈ s)); [|done].
  case_bool_decide; [by rewrite lookup_delete_ne|by rewrite lookup_insert_ne].
Qed.

Lemma close_state_not_connected ws w : application_state (close_state ws w) ws ≠ CONNECTED.
Proof.
  unfold close_state. case_bool_decide as Hst; [|done].
  simpl. by rewrite fn_lookup_insert.
Qed.

Lemma close_state_other ws ws' w :
  ws' ≠ ws → application_state (close_state ws w) ws' = application_state w ws'.
Proof.
  intros Hne. unfold close_state. case_bool_decide; [|done].
  simpl. by rewrite fn_lookup_insert_ne.
Qed.

Lemma close_state_frame ws w :
  connections (close_state ws w) = connections w ∧
  broken (close_state ws w) = broken w ∧ wire (close_state ws w) = wire w.
Proof. unfold close_state. by case_bool_decide. Qed.

Lemma elem_of_registrations w (u : Z) ws :
  (u, ws) ∈ registrations w ↔ ws ∈ sockets w u.
Proof.
  unfold registrations, pairs. rewrite list_elem_of_bind. split.
  - intros ([u' l] & Hin & Hentry). simpl in Hin.
    apply list_elem_of_fmap in Hin as (ws' & [= -> ->] & Hws).
    apply elem_of_snapshot in Hentry as (s & Hs & ->).
    apply elem_of_sockets. exists s. split; [done|]. by apply elem_of_elements.
  - intros (s & Hs & Hws)%elem_of_sockets. exists (u, elements s). split.
    + simpl. apply list_elem_of_fmap. exists ws. split; [done|]. by apply elem_of_elements.
    + apply elem_of_snapshot. eauto.
Qed.

End registry_operations.

(** X1.  [connect] on a socket that is still connecting and whose transport
    works accepts it and adds it to the user's set: the user's connections
    are the old ones and this one, the count grows by one when the socket is
    new, no other user's entry changes and nothing is written. *)
Theorem connect_registers (user_id : Z) (ws : WebSocket) (w : World) :
  application_state w ws = CONNECTING →
  broken w ws = false →
  ∃ w', connect user_id ws w = (Ok tt, w') ∧
    sockets w' user_id = sockets w user_id ∪ {[ws]} ∧
    application_state w' ws = CONNECTED ∧
    (∀ u, u ≠ user_id → connections w' !! u = connections w !! u) ∧
    (ws ∉ sockets w user_id →
       user_connection_count user_id w' = (Ok (S (size (sockets w user_id))), w')) ∧
    wire w' = wire w.
Proof.
  intros Hst Hbr. eexists. split; [by apply connect_fresh|].
  assert (∀ w0, sockets
            (set_connections
               (λ conns, <[user_id := default ∅ (conns !! user_id) ∪ {[ws]}]> conns) w0)
            user_id = sockets w0 user_id ∪ {[ws]}) as Hsock.
  { intros w0. unfold sockets. simpl. by rewrite lookup_insert_eq. }
  split; [by rewrite Hsock|]. split; [simpl; by rewrite fn_lookup_insert|].
  split; [intros u Hne; simpl; by rewrite lookup_insert_ne|]. split; [|done].
  intros Hnew. unfold user_connection_count, gets. f_equal. f_equal.
  fold (sockets (set_connections
    (λ conns, <[user_id := default ∅ (conns !! user_id) ∪ {[ws]}]> conns)
    (set_application_state ws CONNECTED w)) user_id).
  rewrite Hsock.
  change (sockets (set_application_state ws CONNECTED w) user_id)
    with (sockets w user_id).
  rewrite size_union by set_solver. rewrite size_singleton. lia.
Qed.

(** A third tab for user 7. *)
Lemma connect_third_tab :
  ∃ w', connect 7 5%nat four_sockets = (Ok tt, w') ∧
    user_connection_count 7 w' = (Ok 3%nat, w').
Proof.
  destruct (connect_registers 7 5%nat four_sockets eq_refl eq_refl)
    as (w' & Hrun & _ & _ & _ & Hcount & _).
  exists w'. split; [exact Hrun|].
  apply Hcount. apply (bool_decide_unpack _). vm_compute. exact I.
Defined.

(** X2.  A socket whose handshake cannot be completed is never registered:
    when the socket has been accepted or closed before, or its transport
    fails during the accept, [connect] raises and the registry and the wire
    are as they were. *)
Theorem connect_failure_registers_nothing (user_id : Z) (ws : WebSocket) (w : World) :
  application_state w ws ≠ CONNECTING ∨ broken w ws = true →
  ∃ e w', connect user_id ws w = (Raise e, w') ∧
    connections w' = connections w ∧ wire w' = wire w.
Proof.
  intros Hbad.
  unfold connect, Starlette.accept, Starlette.transport_write, user_connection_count.
  run.
  destruct (application_state w ws) eqn:Hst; simpl;
    try (by do 2 eexists).
  destruct Hbad as [?| ->]; [done|]. simpl. by do 2 eexists.
Qed.

(** Socket 1 is connected already: connecting it again fails. *)
Lemma connect_twice_fails :
  ∃ e w', connect 7 1%nat four_sockets = (Raise e, w') ∧
    connections w' = connections four_sockets ∧ wire w' = wire four_sockets.
Proof.
  apply (connect_failure_registers_nothing 7 1%nat four_sockets).
  left. discriminate.
Defined.

(** X3.  [disconnect_socket] never raises; it takes exactly that socket out
    of that user's set (nothing when it is not there), leaves the sets of
    the other users alone, leaves the socket not connected whether or not it
    was registered, and touches no other socket. *)
Theorem disconnect_socket_removes_one (user_id : Z) (ws : WebSocket) (w : World) :
  ∃ w', disconnect_socket user_id ws w = (Ok tt, w') ∧
    sockets w' user_id = sockets w user_id ∖ {[ws]} ∧
    (∀ u, u ≠ user_id → connections w' !! u = connections w !! u) ∧
    application_state w' ws ≠ CONNECTED ∧
    (∀ ws', ws' ≠ ws → application_state w' ws' = application_state w ws') ∧
    wire w' = wire w.
Proof.
  eexists. split; [apply disconnect_socket_spec|].
  destruct (close_state_frame ws (set_connections (remove_socket user_id ws) w))
    as (Hc & _ & Hw).
  split; [|split; [|split; [|split]]].
  - unfold sockets. rewrite Hc. simpl. apply sockets_remove_socket.
  - intros u Hne. rewrite Hc. simpl. by apply remove_socket_other.
  - apply close_state_not_connected.
  - intros ws' Hne. by rewrite close_state_other.
  - by rewrite Hw.
Qed.

(** X4.  [disconnect] never raises; it removes the user's entry, leaves
    every socket the user had not connected, and touches neither the other
    users' entries, nor the other sockets, nor the wire.  For a user without
    entry the registry is unchanged. *)
Theorem disconnect_removes_user (user_id : Z) (w : World) :
  ∃ w', disconnect user_id w = (Ok tt, w') ∧
    connections w' = delete user_id (connections w) ∧
    (∀ ws, ws ∈ sockets w user_id → application_state w' ws ≠ CONNECTED) ∧
    (∀ ws, ws ∉ sockets w user_id → application_state w' ws = application_state w ws) ∧
    wire w' = wire w ∧
    (connections w !! user_id = None → connections w' = connections w).
Proof.
  eexists. split; [apply disconnect_spec|].
  destruct (foldl_close_frame (elements (sockets w user_id))
              (set_connections (delete user_id) w)) as (Hc & _ & Hw).
  split; [by rewrite Hc|]. split; [|split; [|split]].
  - intros ws Hin. rewrite foldl_close_state. case_bool_decide as Hd; [done|].
    intros Hst. apply Hd. split; [by apply elem_of_elements|done].
  - intros ws Hout. rewrite foldl_close_state. case_bool_decide as Hd; [|done].
    destruct Hd as [Hin%elem_of_elements _]. done.
  - by rewrite Hw.
  - intros Hnone. rewrite Hc. simpl. by apply delete_id.
Qed.

(** X5.  Registering a new socket and unregistering it again gives back the
    registry one started from, in a registry without empty entries. *)
Theorem connect_then_disconnect_socket (user_id : Z) (ws : WebSocket) (w : World) :
  no_empty_entries (connections w) →
  ws ∉ sockets w user_id →
  application_state w ws = CONNECTING →
  broken w ws = false →
  ∃ w1 w2, connect user_id ws w = (Ok tt, w1) ∧
           disconnect_socket user_id ws w1 = (Ok tt, w2) ∧
           connections w2 = connections w ∧
           application_state w2 ws = DISCONNECTED.
Proof.
  intros Hinv Hnew Hst Hbr. do 2 eexists.
  split; [by apply connect_fresh|]. split; [apply disconnect_socket_spec|].
  split.
  - rewrite close_state_connections. simpl. unfold remove_socket.
    rewrite lookup_insert_eq.
    assert (default ∅ (connections w !! user_id) ∪ {[ws]} ≠ (∅ : gset nat)) as Hne
      by set_solver.
    assert (ws ∈ default ∅ (connections w !! user_id) ∪ {[ws]}) as Hin by set_solver.
    rewrite (bool_decide_eq_true_2 _ Hne), (bool_decide_eq_true_2 _ Hin). simpl.
    unfold sockets in Hnew.
    destruct (connections w !! user_id) as [s|] eqn:Hs; simpl in *.
    + assert ((s ∪ {[ws]}) ∖ {[ws]} = s) as -> by set_solver.
      rewrite bool_decide_eq_false_2 by (by eapply Hinv).
      rewrite insert_insert_eq. by apply insert_id.
    + assert (((∅ : gset nat) ∪ {[ws]}) ∖ {[ws]} = ∅) as -> by set_solver.
      rewrite bool_decide_eq_true_2 by done.
      rewrite delete_insert_eq. by apply delete_id.
  - unfold close_state. simpl. rewrite fn_lookup_insert.
    rewrite bool_decide_eq_true_2 by done. simpl. by rewrite fn_lookup_insert.
Qed.

(** A fifth socket comes and goes. *)
Lemma connect_then_disconnect_socket_5 :
  ∃ w1 w2, connect 7 5%nat four_sockets = (Ok tt, w1) ∧
           disconnect_socket 7 5%nat w1 = (Ok tt, w2) ∧
           connections w2 = connections four_sockets ∧
           application_state w2 5%nat = DISCONNECTED.
Proof.
  apply (connect_then_disconnect_socket 7 5%nat four_sockets).
  - apply (run_ops_no_empty _ (initial_world (λ _, false))).
    intros u s Hu. simpl in Hu. by rewrite lookup_empty in Hu.
  - apply (bool_decide_unpack _). vm_compute. exact I.
  - reflexivity.
  - reflexivity.
Defined.

(** X6.  [send_personal_message] reaches nobody else: a socket that is not
    registered for the user receives nothing from it and keeps its state. *)
Theorem send_personal_message_reaches_nobody_else
    (message : Json) (user_id : Z) (w : World) (ws : WebSocket) :
  ws ∉ sockets w user_id →
  ∃ w', send_personal_message message user_id w = (Ok tt, w') ∧
    received w' ws = received w ws ∧
    application_state w' ws = application_state w ws.
Proof.
  intros Hout. eexists. split; [apply send_personal_message_spec|].
  destruct (elements (sockets w user_id)) as [|x l] eqn:Hs; [done|].
  assert (ws ∉ x :: l) as Hout' by (rewrite <- Hs; by rewrite elem_of_elements).
  split.
  - rewrite visit_received by (rewrite <- Hs; apply NoDup_elements).
    rewrite bool_decide_eq_false_2 by (by intros [? _]). by rewrite app_nil_r.
  - rewrite visit_state. by rewrite bool_decide_eq_false_2 by (by intros [? _]).
Qed.

(** A message for user 7 does not reach socket 3, which is user 8's. *)
Lemma send_to_7_spares_socket_3 :
  ∃ w', send_personal_message (JStr "hello") 7 four_sockets = (Ok tt, w') ∧
    received w' 3%nat = received four_sockets 3%nat ∧
    application_state w' 3%nat = application_state four_sockets 3%nat.
Proof.
  apply (send_personal_message_reaches_nobody_else (JStr "hello") 7 four_sockets 3%nat).
  apply (bool_decide_unpack _). vm_compute. exact I.
Defined.

Section broadcast_again.

Implicit Types (w : World) (ws : WebSocket) (message : Json).

Lemma filter_none {A} (P : A → Prop) `{!∀ x, Decision (P x)} (l : list A) :
  (∀ x, x ∈ l → ¬ P x) → filter P l = [].
Proof.
  induction l as [|x l IH]; intros Hno; [done|].
  rewrite filter_cons_False by (apply Hno; left).
  apply IH. intros y Hy. apply Hno. by right.
Qed.

Lemma filter_all {A} (P : A → Prop) `{!∀ x, Decision (P x)} (l : list A) :
  (∀ x, x ∈ l → P x) → filter P l = l.
Proof.
  induction l as [|x l IH]; intros Hall; [done|].
  rewrite filter_cons_True by (apply Hall; left).
  f_equal. apply IH. intros y Hy. apply Hall. by right.
Qed.

(** A broadcast over healthy sockets only changes nothing but the wire. *)
Lemma foldl_visit_all_healthy message (snap : list (Z * list WebSocket)) : ∀ w,
  (∀ u l ws, (u, l) ∈ snap → ws ∈ l → healthy w ws = true) →
  connections (foldl (λ w entry, visit message entry w) w snap) = connections w ∧
  ∀ ws, application_state (foldl (λ w entry, visit message entry w) w snap) ws
        = application_state w ws.
Proof.
  induction snap as [|[u l] snap IH]; intros w Hall; simpl; [done|].
  assert (filter (λ ws, healthy w ws = false) l = []) as Hnone.
  { apply filter_none. intros ws Hws. rewrite (Hall u l ws); [done|left|done]. }
  assert (visit message (u, l) w = after_loop message l w) as Hvisit
    by (unfold visit; simpl; by rewrite Hnone).
  destruct (IH (visit message (u, l) w)) as [Hc Hst].
  { intros u' l' ws Hin Hws. rewrite visit_healthy. apply (Hall u' l' ws); [by right|done]. }
  rewrite Hc. split; [by rewrite Hvisit|].
  intros ws. rewrite Hst. by rewrite Hvisit.
Qed.

End broadcast_again.

(** X7.  After a broadcast every connection that is still registered is
    healthy, so that a second broadcast (no peer going away in between)
    prunes nothing and writes one frame to every registered connection. *)
Theorem broadcast_leaves_only_healthy (message message' : Json) (w : World) :
  ∃ w1 w2, broadcast message w = (Ok tt, w1) ∧
    (∀ u ws, ws ∈ sockets w1 u → healthy w1 ws = true) ∧
    broadcast message' w1 = (Ok tt, w2) ∧
    connections w2 = connections w1 ∧
    wire w2 = wire w1 ++ ((λ r : Z * WebSocket, (r.2, message')) <$> registrations w1).
Proof.
  do 2 eexists. split; [apply broadcast_spec|].
  set (w1 := foldl (λ w entry, visit message entry w) w (snapshot w)).
  assert (∀ u ws, ws ∈ sockets w1 u → healthy w1 ws = true) as Hhealthy.
  { intros u ws [Hin Hall]%foldl_visit_sockets.
    unfold w1. rewrite foldl_visit_healthy.
    apply elem_of_sockets in Hin as (s & Hs & Hws).
    apply (Hall (elements s)); [|by apply elem_of_elements].
    apply elem_of_snapshot. eauto. }
  split; [exact Hhealthy|]. split; [apply broadcast_spec|].
  assert (∀ u l ws, (u, l) ∈ snapshot w1 → ws ∈ l → healthy w1 ws = true) as Hsnap.
  { intros u l ws (s & Hs & ->)%elem_of_snapshot Hws%elem_of_elements.
    apply (Hhealthy u). apply elem_of_sockets. eauto. }
  split; [by apply foldl_visit_all_healthy|].
  rewrite foldl_visit_wire. fold (registrations w1). do 2 f_equal.
  apply filter_all. intros [u ws] Hr%elem_of_registrations. by apply (Hhealthy u).
Qed.

(** X8.  In every registry reached from the empty one, a user's connection
    count is 0 exactly when the user has no entry, and the total count is
    the number of (user, connection) pairs, 0 exactly when the registry is
    empty. *)
Theorem counts_of_reachable_registry (broken0 : WebSocket → bool) (ops : list Op) :
  let w := run_ops ops (initial_world broken0) in
  (∀ user_id,
     user_connection_count user_id w = (Ok (size (sockets w user_id)), w) ∧
     (size (sockets w user_id) = 0%nat ↔ connections w !! user_id = None)) ∧
  total_connection_count w = (Ok (length (registrations w)), w) ∧
  (length (registrations w) = 0%nat ↔ connections w = ∅).
Proof.
  intros w.
  assert (no_empty_entries (connections w)) as Hinv.
  { apply run_ops_no_empty. intros u s Hu. simpl in Hu. by rewrite lookup_empty in Hu. }
  split; [|split].
  - intros user_id. split; [done|]. unfold sockets.
    destruct (connections w !! user_id) as [s|] eqn:Hs; simpl.
    + split; [|done]. intros Hsize%size_empty_inv. apply leibniz_equiv in Hsize.
      by apply Hinv in Hs.
    + split; [done|]. intros _. exact (size_empty (C := gset nat)).
  - apply total_connection_count_spec.
  - split.
    + intros Hlen. apply length_zero_iff_nil in Hlen.
      apply map_empty. intros u.
      destruct (connections w !! u) as [s|] eqn:Hs; [|done]. exfalso.
      destruct (set_choose_L s) as [ws Hws]; [by eapply Hinv|].
      assert ((u, ws) ∈ registrations w) as Hin
        by (apply elem_of_registrations, elem_of_sockets; eauto).
      rewrite Hlen in Hin. by apply elem_of_nil in Hin.
    + intros Hempty. unfold registrations, snapshot. rewrite Hempty.
      by rewrite map_to_list_empty.
Qed.

(* ===================================================================== *)
(** ** More on the [/ws/live] endpoint and on the notification store      *)
(* ===================================================================== *)

(** X9.  A handshake that fails registers nothing.  With a token that does
    not verify, the endpoint closes the socket and returns; with a token
    that verifies but names no user, the conversion of the subject raises,
    the exception leaves the endpoint, and the socket is neither accepted
    nor closed.  In both cases registry and wire are as before. *)
Theorem websocket_endpoint_failed_handshake
    (ws : WebSocket) (frames : list string) (w : World) :
  application_state w ws = CONNECTING →
  broken w ws = false →
  (∃ w', main_py.websocket_endpoint ws BadToken frames w = (Ok tt, w') ∧
     connections w' = connections w ∧ wire w' = wire w ∧
     application_state w' ws = DISCONNECTED) ∧
  (∃ e w', main_py.websocket_endpoint ws NoSubject frames w = (Raise e, w') ∧
     connections w' = connections w ∧ wire w' = wire w ∧
     application_state w' ws = CONNECTING).
Proof.
  intros Hst Hbr. split.
  - unfold main_py.websocket_endpoint, Starlette.close, Starlette.transport_write.
    run. rewrite Hst. simpl. rewrite Hbr. simpl.
    eexists. split; [reflexivity|]. simpl. by rewrite fn_lookup_insert.
  - unfold main_py.websocket_endpoint. run. by do 2 eexists.
Qed.

(** Socket 9 presents a bad token, or a token without subject. *)
Lemma websocket_endpoint_failed_handshake_9 :
  (∃ w', main_py.websocket_endpoint 9%nat BadToken [] four_sockets = (Ok tt, w') ∧
     connections w' = connections four_sockets ∧ wire w' = wire four_sockets ∧
     application_state w' 9%nat = DISCONNECTED) ∧
  (∃ e w', main_py.websocket_endpoint 9%nat NoSubject [] four_sockets = (Raise e, w') ∧
     connections w' = connections four_sockets ∧ wire w' = wire four_sockets ∧
     application_state w' 9%nat = CONNECTING).
Proof.
  apply (websocket_endpoint_failed_handshake 9%nat [] four_sockets); reflexivity.
Defined.

Section more_mark_read_facts.

Implicit Types (d : Database) (r : Notification) (notif_id user_id : Z).

Lemma mark_all_read_spec user_id d :
  let cond := λ r, bool_decide (n_user_id r = user_id) && negb (n_is_read r) in
  notifications_py.mark_all_read user_id d =
    (Ok (unread user_id d),
     set_found_rows false
       (set_durable (marked cond (durable d))
          (set_work (λ _, marked cond (durable d)) d))).
Proof.
  unfold notifications_py.mark_all_read, mysql.get_db, mysql.update_is_read,
    mysql.commit, mysql.close, unread.
  run. do 3 f_equal. apply list_filter_iff. intros r.
  rewrite andb_true_iff, bool_decide_eq_true, negb_true_iff. naive_solver.
Qed.

Lemma unread_marked (cond : Notification → bool) (user_id : Z) (rows : list Notification) :
  length (filter (λ r, n_user_id r = user_id ∧ n_is_read r = false)
            ((λ r, if cond r then mysql.mark_read r else r) <$> rows))
  = length (filter (λ r, n_user_id r = user_id ∧ n_is_read r = false ∧ cond r = false)
              rows).
Proof.
  induction rows as [|r rows IH]; [done|]. rewrite fmap_cons.
  destruct (cond r) eqn:Hc.
  - rewrite filter_cons_False by (simpl; intros [_ ?]; done).
    rewrite filter_cons_False by (intros (_ & _ & ?); congruence). exact IH.
  - destruct (decide (n_user_id r = user_id ∧ n_is_read r = false)) as [Hr|Hr].
    + rewrite !filter_cons_True by naive_solver. simpl. by rewrite IH.
    + rewrite !filter_cons_False by naive_solver. done.
Qed.

End more_mark_read_facts.

(** X10.  [mark_all_read] answers with the number of the caller's unread
    notifications; afterwards the caller has none unread, every other
    user's unread count is as before, and no row changed but rows of the
    caller, which were marked read. *)
Theorem mark_all_read_clears_unread (user_id : Z) (d : Database) :
  ∃ d', notifications_py.mark_all_read user_id d = (Ok (unread user_id d), d') ∧
    unread user_id d' = 0%nat ∧
    (∀ u, u ≠ user_id → unread u d' = unread u d) ∧
    length (notifications (durable d')) = length (notifications (durable d)) ∧
    (∀ i r r', notifications (durable d) !! i = Some r →
               notifications (durable d') !! i = Some r' →
               r' = r ∨ (n_user_id r = user_id ∧ r' = mysql.mark_read r)).
Proof.
  eexists. split; [apply mark_all_read_spec|].
  split; [|split; [|split]].
  - unfold unread. simpl. rewrite unread_marked.
    rewrite filter_none; [done|].
    intros r _ (Hu & Hr & Hc). rewrite Hr in Hc. simpl in Hc.
    rewrite andb_true_r in Hc. by apply bool_decide_eq_false in Hc.
  - intros u Hne. unfold unread. simpl. rewrite unread_marked.
    f_equal. apply list_filter_iff. intros r. split; [naive_solver|].
    intros [Hu Hr]. split; [done|]. split; [done|].
    apply andb_false_iff. left. apply bool_decide_eq_false. congruence.
  - simpl. by rewrite length_fmap.
  - intros i r r' Hr. simpl. rewrite list_lookup_fmap, Hr. simpl. intros [= <-].
    destruct (bool_decide (n_user_id r = user_id) && negb (n_is_read r)) eqn:Hc;
      [right|by left].
    apply andb_true_iff in Hc as [Hu%bool_decide_eq_true _]. done.
Qed.

Section single_read_facts.

Implicit Types (d : Database) (r : Notification) (notif_id user_id : Z).

Lemma filter_ext_in {A} (P Q : A → Prop) `{!∀ x, Decision (P x)} `{!∀ x, Decision (Q x)}
    (l : list A) :
  (∀ x, x ∈ l → P x ↔ Q x) → filter P l = filter Q l.
Proof.
  induction l as [|x l IH]; intros Hext; [done|].
  assert (filter P l = filter Q l) as Hl by (apply IH; intros y Hy; apply Hext; by right).
  destruct (decide (P x)) as [HP|HP].
  - assert (Q x) as HQ by (apply (Hext x); [left|done]).
    rewrite !filter_cons_True by done. by rewrite Hl.
  - assert (¬ Q x) as HQ by (intros HQ; apply HP, (Hext x); [left|done]).
    by rewrite !filter_cons_False by done.
Qed.

(** With identifiers that are keys, one unread row of the caller is the
    only unread row the UPDATE of [mark_single_read] changes. *)
Lemma unread_minus_target (rows : list Notification) r :
  NoDup (n_id <$> rows) → r ∈ rows → n_is_read r = false →
  length (filter (λ x, n_user_id x = n_user_id r ∧ n_is_read x = false) rows)
  = S (length (filter (λ x, n_user_id x = n_user_id r ∧ n_is_read x = false ∧
                            is_target (n_id r) (n_user_id r) x = false) rows)).
Proof.
  intros Hnd Hin Hunread. induction rows as [|x rows IH]; [by apply elem_of_nil in Hin|].
  rewrite fmap_cons in Hnd. apply list.NoDup_cons in Hnd as [Hx Hnd].
  apply elem_of_cons in Hin as [->|Hin].
  - rewrite filter_cons_True by done.
    rewrite (filter_cons_False _ x).
    2:{ intros (_ & _ & Ht). unfold is_target in Ht.
        by rewrite !bool_decide_eq_true_2 in Ht by done. }
    simpl. do 2 f_equal. apply filter_ext_in. intros y Hy.
    split; [|naive_solver]. intros [Hu Hr]. split; [done|]. split; [done|].
    unfold is_target. apply andb_false_iff. left. apply bool_decide_eq_false.
    intros Hid. apply Hx. rewrite <- Hid. apply list_elem_of_fmap. by exists y.
  - assert (n_id x ≠ n_id r) as Hne.
    { intros Hid. apply Hx. rewrite Hid. apply list_elem_of_fmap. by exists r. }
    assert (is_target (n_id r) (n_user_id r) x = false) as Hx'.
    { unfold is_target. apply andb_false_iff. left. by apply bool_decide_eq_false. }
    destruct (decide (n_user_id x = n_user_id r ∧ n_is_read x = false)) as [HP|HP].
    + rewrite !filter_cons_True by naive_solver. simpl. f_equal. by apply IH.
    + rewrite !filter_cons_False by naive_solver. by apply IH.
Qed.

Lemma unread_other_user (cond : Notification → bool) (user_id u : Z)
    (rows : list Notification) :
  (∀ r, cond r = true → n_user_id r = user_id) → u ≠ user_id →
  length (filter (λ r, n_user_id r = u ∧ n_is_read r = false)
            ((λ r, if cond r then mysql.mark_read r else r) <$> rows))
  = length (filter (λ r, n_user_id r = u ∧ n_is_read r = false) rows).
Proof.
  intros Hcond Hne. rewrite unread_marked. f_equal. apply list_filter_iff. intros r.
  split; [naive_solver|]. intros [Hu Hr]. split; [done|]. split; [done|].
  destruct (cond r) eqn:Hc; [|done]. apply Hcond in Hc. congruence.
Qed.

End single_read_facts.

(** X11.  In a store whose notification ids are keys, [mark_single_read] on
    an unread notification of the caller succeeds with [updated = 1], the
    notification is read afterwards, the caller's unread count is one less
    and the other users' counts are as before. *)
Theorem mark_single_read_marks_unread_record (r : Notification) (d : Database) :
  NoDup (n_id <$> notifications (durable d)) →
  r ∈ notifications (durable d) →
  n_is_read r = false →
  ∃ d', notifications_py.mark_single_read (n_id r) (n_user_id r) d = (Ok 1%nat, d') ∧
    mysql.mark_read r ∈ notifications (durable d') ∧
    unread (n_user_id r) d = S (unread (n_user_id r) d') ∧
    (∀ u, u ≠ n_user_id r → unread u d' = unread u d).
Proof.
  intros Hnd Hin Hunread. eexists. split; [|split; [|split]].
  - rewrite mark_single_read_spec. rewrite bool_decide_eq_false_2; [reflexivity|].
    intros Hlen%length_zero_iff_nil.
    assert (r ∈ filter (λ x, is_target (n_id r) (n_user_id r) x = true ∧
                             n_is_read x = false) (notifications (durable d))) as Hr.
    { apply list_elem_of_filter. split; [|done]. split; [|done].
      unfold is_target. by rewrite !bool_decide_eq_true_2. }
    rewrite Hlen in Hr. by apply elem_of_nil in Hr.
  - simpl. apply list_elem_of_fmap. exists r. split; [|done].
    unfold is_target. by rewrite !bool_decide_eq_true_2.
  - unfold unread. simpl. rewrite unread_marked. by apply unread_minus_target.
  - intros u Hne. unfold unread. simpl.
    apply (unread_other_user _ (n_user_id r)); [|done].
    intros x [_ Hu%bool_decide_eq_true]%andb_true_iff. done.
Qed.

(** One unread notification of user 7 is marked read. *)
Lemma mark_single_read_first_time :
  let r := mkNotification 1 7 "Follow-up due today: Acme" "sales_followup_due"
             false "2025-01-01 10:00:00" None in
  let d := mkDatabase (mkTables [r] [] []) (mkTables [r] [] []) 2 1
             "2025-01-01 12:00:00" (λ _, false) false [] [] [] [] in
  ∃ d', notifications_py.mark_single_read 1 7 d = (Ok 1%nat, d') ∧
    mysql.mark_read r ∈ notifications (durable d') ∧
    unread 7 d = S (unread 7 d') ∧
    (∀ u, u ≠ 7 → unread u d' = unread u d).
Proof.
  intros r d. apply (mark_single_read_marks_unread_record r d).
  - simpl. apply NoDup_singleton.
  - simpl. by apply list_elem_of_singleton.
  - reflexivity.
Defined.

(** X12.  [list_notifications] returns rows of the store that belong to the
    caller, unread ones only when asked so, at most [limit] of them, and
    leaves the store as it was; with [offset = 0] and a limit that is not
    reached it returns every such row. *)
Theorem list_notifications_selects_own_rows
    (order_by : list Notification → list Notification)
    (limit offset : nat) (unread_only : bool) (user_id : Z) (d : Database) :
  (∀ l, order_by l ≡ₚ l) →
  ∃ rows d', notifications_list_py.list_notifications order_by limit offset unread_only
               user_id d = (Ok rows, d') ∧
    durable d' = durable d ∧
    (length rows ≤ limit)%nat ∧
    (∀ r, r ∈ rows → r ∈ notifications (durable d) ∧ n_user_id r = user_id ∧
                     (unread_only = true → n_is_read r = false)) ∧
    (offset = 0%nat →
     (length (filter (λ r, n_user_id r = user_id ∧
                           (unread_only = true → n_is_read r = false))
                (notifications (durable d))) ≤ limit)%nat →
     ∀ r, r ∈ notifications (durable d) → n_user_id r = user_id →
          (unread_only = true → n_is_read r = false) → r ∈ rows).
Proof.
  intros Hperm. do 2 eexists. split; [reflexivity|]. simpl.
  split; [done|]. split; [rewrite length_take; lia|]. split.
  - intros r Hr%subseteq_take%subseteq_drop. rewrite Hperm in Hr.
    apply list_elem_of_filter in Hr as [[Hu Hun] Hin]. done.
  - intros -> Hlen r Hin Hu Hun. rewrite drop_0, take_ge.
    + rewrite Hperm. apply list_elem_of_filter. done.
    + by rewrite Hperm.
Qed.

(** The store with one read notification, listed for its owner. *)
Lemma list_notifications_of_user_7 :
  ∃ rows d', notifications_list_py.list_notifications (λ l, l) 10 0 false 7
               one_read_notification = (Ok rows, d') ∧
    durable d' = durable one_read_notification ∧
    (length rows ≤ 10)%nat ∧
    (∀ r, r ∈ rows → r ∈ notifications (durable one_read_notification) ∧
                     n_user_id r = 7%Z ∧ (false = true → n_is_read r = false)) ∧
    (0%nat = 0%nat →
     (length (filter (λ r, n_user_id r = 7%Z ∧ (false = true → n_is_read r = false))
                (notifications (durable one_read_notification))) ≤ 10)%nat →
     ∀ r, r ∈ notifications (durable one_read_notification) → n_user_id r = 7%Z →
          (false = true → n_is_read r = false) → r ∈ rows).
Proof.
  apply (list_notifications_selects_own_rows (λ l, l) 10 0 false 7 one_read_notification).
  intros l. reflexivity.
Defined.

(* ===================================================================== *)
(** ** Notifying endpoints and the unread count                           *)
(* ===================================================================== *)

Section unread_after_notify.

Implicit Types (a : App) (targets : list Target) (refused : Z → bool).

Lemma unread_rows_of refused (now : string) (u : Z) targets : ∀ next_id,
  all_accepted refused targets = true →
  length (filter (λ r, n_user_id r = u ∧ n_is_read r = false)
            (rows_of refused next_id now targets))
  = length (filter (λ t, t_user t = u) targets).
Proof.
  induction targets as [|t targets IH]; intros next_id; simpl; [done|].
  intros [Ht Hrest]%andb_true_iff. apply negb_true_iff in Ht. rewrite Ht.
  destruct (decide (t_user t = u)) as [Hu|Hu].
  - rewrite !filter_cons_True by done. simpl. by rewrite IH.
  - rewrite !filter_cons_False by (simpl; naive_solver). by apply IH.
Qed.

Lemma notify_outcome_unread before targets (v : Json) a r (u : Z) :
  notify_outcome before targets v a r →
  unread u (db r.2) =
    (unread u (db a) +
     if all_accepted (refuses (db a)) targets
     then length (filter (λ t, t_user t = u) targets) else 0)%nat.
Proof.
  intros (_ & _ & Hrows & _). unfold unread. rewrite Hrows.
  rewrite list.filter_app, length_app. f_equal.
  destruct (all_accepted (refuses (db a)) targets) eqn:Hok; [|done].
  by apply unread_rows_of.
Qed.

(** The unread counts after a run, by what the store does with the inserts. *)
Lemma unread_after_run a (u : Z) :
  (∀ data current_user_id,
     unread u (db (installations_py.create_full_installation data current_user_id a).2) =
       (unread u (db a) +
        if all_accepted (refuses (db a)) (installation_targets data a)
        then length (filter (λ user, user.1 = u) (recipients (db a))) else 0)%nat) ∧
  unread u (db (sales_py.run_sales_notifications a).2) =
    (unread u (db a) +
     if all_accepted (refuses (db a)) (sales_targets (db a))
     then length (filter (λ row, owner_user_id row = Some u ∧ u ≠ 0%Z)
                    (due_today (db a) ++ stale_offers (db a))) else 0)%nat.
Proof.
  split.
  - intros data current_user_id.
    rewrite (notify_outcome_unread _ _ _ _ _ u
               (create_full_installation_outcome data current_user_id a)).
    f_equal. destruct (all_accepted _ _); [|done].
    unfold installation_targets.
    induction (recipients (db a)) as [|user rows IH]; [done|]. rewrite fmap_cons.
    destruct (decide (user.1 = u)) as [Hu|Hu].
    + rewrite !filter_cons_True by done. simpl. by rewrite IH.
    + rewrite !filter_cons_False by done. exact IH.
  - rewrite (notify_outcome_unread _ _ _ _ _ u (run_sales_notifications_outcome a)).
    f_equal. destruct (all_accepted _ _); [|done].
    unfold sales_targets. rewrite !list.filter_app, !length_app.
    assert (∀ prefix type rows,
      length (filter (λ t, t_user t = u) (lead_targets prefix type rows))
      = length (filter (λ row, owner_user_id row = Some u ∧ u ≠ 0%Z) rows)) as Hleads.
    { intros prefix type rows. induction rows as [|row rows IH]; [done|].
      rewrite lead_targets_cons, list.filter_app, length_app, IH.
      destruct (owner_user_id row) as [[|owner|owner]|] eqn:Ho.
      - rewrite (filter_cons_False _ row) by (intros [? ?]; congruence). done.
      - destruct (decide (Z.pos owner = u)) as [Hu|Hu].
        + rewrite filter_cons_True by done.
          rewrite (filter_cons_True _ row) by (split; [congruence|lia]). done.
        + rewrite filter_cons_False by done.
          rewrite (filter_cons_False _ row) by (intros [? _]; congruence). done.
      - destruct (decide (Z.neg owner = u)) as [Hu|Hu].
        + rewrite filter_cons_True by done.
          rewrite (filter_cons_True _ row) by (split; [congruence|lia]). done.
        + rewrite filter_cons_False by done.
          rewrite (filter_cons_False _ row) by (intros [? _]; congruence). done.
      - rewrite (filter_cons_False _ row) by (intros [? _]; congruence). done. }
    by rewrite !Hleads.
Qed.

End unread_after_notify.

(** X13.  A run of either notifying endpoint that returns its value has
    raised each user's unread count by the number of targets of that user,
    whether or not the user has a live connection; a run that raises has
    left every unread count as it was. *)
Theorem notify_raises_unread_count (a : App) (u : Z) :
  (∀ data current_user_id,
     let r := installations_py.create_full_installation data current_user_id a in
     (∀ v, r.1 = Ok v →
        unread u (db r.2) =
          (unread u (db a) +
           length (filter (λ user, user.1 = u) (recipients (db a))))%nat) ∧
     ((∃ e, r.1 = Raise e) → unread u (db r.2) = unread u (db a))) ∧
  (let r := sales_py.run_sales_notifications a in
   (∀ v, r.1 = Ok v →
      unread u (db r.2) =
        (unread u (db a) +
         length (filter (λ row, owner_user_id row = Some u ∧ u ≠ 0%Z)
                   (due_today (db a) ++ stale_offers (db a))))%nat) ∧
   ((∃ e, r.1 = Raise e) → unread u (db r.2) = unread u (db a))).
Proof.
  destruct (unread_after_run a u) as [Hinstallation Hsales]. split.
  - intros data current_user_id. simpl.
    destruct (create_full_installation_outcome data current_user_id a) as (Hres & _).
    rewrite Hinstallation, Hres.
    destruct (all_accepted (refuses (db a)) (installation_targets data a));
      (split; [intros v Hv|intros [e He]]); try done; lia.
  - simpl. destruct (run_sales_notifications_outcome a) as (Hres & _).
    rewrite Hsales, Hres.
    destruct (all_accepted (refuses (db a)) (sales_targets (db a)));
      (split; [intros v Hv|intros [e He]]); try done; lia.
Qed.

(* ===================================================================== *)
(** ** [create_full_installation]: what becomes of the company            *)
(* ===================================================================== *)

Ltac run_conn :=
  unfold conn_commit, conn_rollback, in_db, mysql.get_db, mysql.commit,
    mysql.rollback, mysql.close;
  run.

Section company_rows.

Implicit Types (a : App) (d : Database) (data : CompanyPayload).

Lemma company_jobs_loop_tables (rows : list CompanyJob) : ∀ a,
  let a' := foldl (λ a row, set_db (set_work (set_company_jobs (λ rs, rs ++ [row])) (db a)) a)
              a rows in
  companies (work (db a')) = companies (work (db a)) ∧
  company_jobs (work (db a')) = company_jobs (work (db a)) ++ rows ∧
  next_company_id (db a') = next_company_id (db a) ∧
  calendar a' = calendar a.
Proof.
  induction rows as [|row rows IH]; intros a; simpl.
  - by rewrite app_nil_r.
  - destruct (IH (set_db (set_work (set_company_jobs (λ rs, rs ++ [row])) (db a)) a))
      as (-> & -> & -> & ->).
    simpl. by rewrite <- app_assoc.
Qed.

Lemma set_event_other (event_id : string) (company_id : Z) (rows : list Company) :
  (∀ c, c ∈ rows → c_id c ≠ company_id) →
  (λ c, if bool_decide (c_id c = company_id)
        then mkCompany (c_id c) (c_data c) (c_creation_date c) (c_created_by c)
               (Some event_id)
        else c) <$> rows = rows.
Proof.
  intros Hother. induction rows as [|c rows IH]; [done|].
  rewrite fmap_cons, IH by (intros c' Hc'; apply Hother; by right).
  rewrite bool_decide_eq_false_2 by (apply Hother; by left). done.
Qed.

Lemma store_company_tables data (now : string) (current_user_id : Z) a :
  (∀ c, c ∈ companies (work (db a)) → c_id c ≠ next_company_id (db a)) →
  let r := installations_py.store_company data now current_user_id a in
  companies (durable (db r.2)) =
    companies (work (db a)) ++
      [company_row_of data (next_company_id (db a)) now current_user_id (calendar a)] ∧
  company_jobs (durable (db r.2)) =
    company_jobs (work (db a)) ++ job_rows_of data (next_company_id (db a)) ∧
  next_company_id (db r.2) = next_company_id (db a) + 1 ∧
  companies (work (db r.2)) = companies (durable (db r.2)) ∧
  company_jobs (work (db r.2)) = company_jobs (durable (db r.2)).
Proof.
  intros Hfresh. unfold installations_py.store_company.
  erewrite bind_ok by reflexivity.
  match goal with |- context [bind (for_each _ _) _ ?a0] => set (a1 := a0) end.
  erewrite bind_ok; cycle 1.
  { apply (for_each_ok _
      (λ job_id a, set_db (set_work (set_company_jobs (λ rs, rs ++
         [mkCompanyJob (next_company_id (db a1) - 1) job_id
            (job_notes data ≫= (.!! job_id)) (assigned_users data ≫= (.!! job_id))
            (job_due_dates data ≫= (.!! job_id))])) (db a)) a)).
    intros job_id a0. subst a1. simpl.
    replace (next_company_id (db a) + 1 - 1) with (next_company_id (db a)) by lia.
    reflexivity. }
  rewrite <- (foldl_fmap
    (λ a row, set_db (set_work (set_company_jobs (λ rs, rs ++ [row])) (db a)) a)
    a1 (selected_jobs data)
    (λ job_id, mkCompanyJob (next_company_id (db a1) - 1) job_id
       (job_notes data ≫= (.!! job_id)) (assigned_users data ≫= (.!! job_id))
       (job_due_dates data ≫= (.!! job_id)))).
  match goal with |- context [foldl ?f a1 ?rows] =>
    destruct (company_jobs_loop_tables rows a1) as (Hc & Hj & Hn & Hcal);
    set (a2 := foldl f a1 rows) in *
  end.
  subst a1. simpl in Hc, Hj, Hn, Hcal.
  replace (next_company_id (db a) + 1 - 1) with (next_company_id (db a)) in Hj by lia.
  unfold company_row_of, job_rows_of.
  destruct (truthy_str (probable_installation_date data)).
  - unfold google_calendar_py.upsert_installation_event, in_db,
      mysql.update_calendar_event_id. run_conn. rewrite Hcal.
    destruct (calendar a) as [event_id|]; simpl.
    + rewrite Hc, Hj, Hn, fmap_app, set_event_other by done. simpl.
      by rewrite bool_decide_eq_true_2.
    + by rewrite Hc, Hj, Hn.
  - run_conn. by rewrite Hc, Hj, Hn.
Qed.

Lemma db_after_next_company_id targets : ∀ d,
  next_company_id (db_after targets d) = next_company_id d.
Proof.
  induction targets as [|t targets IH]; intros d; simpl; [done|].
  destruct (refuses d (t_user t)); [done|]. by rewrite IH.
Qed.

End company_rows.

(** The company tables after a run in which the store takes the company
    and its jobs. *)
Lemma create_full_installation_tables (data : CompanyPayload)
    (current_user_id : Z) (a : App) :
  (∀ c, c ∈ companies (durable (db a)) → c_id c ≠ next_company_id (db a)) →
  let r := installations_py.create_full_installation data current_user_id a in
  let company_id := next_company_id (db a) in
  companies (durable (db r.2)) =
    companies (durable (db a)) ++
      [company_row_of data company_id (now_str a) current_user_id (calendar a)] ∧
  company_jobs (durable (db r.2)) =
    company_jobs (durable (db a)) ++ job_rows_of data company_id ∧
  next_company_id (db r.2) = company_id + 1 ∧
  work (db r.2) = durable (db r.2).
Proof.
  intros Hfresh. destruct a as [w d c n tr]. simpl in Hfresh.
  unfold installations_py.create_full_installation.
  run_conn.
  match goal with
  | |- context [installations_py.store_company ?x ?y ?z ?s] =>
      destruct (store_company_tables x y z s Hfresh) as (Hc & Hj & Hn & Hwc1 & Hwj1);
      destruct (store_company_spec x y z s)
        as ([w1 d1 c1 n1 tr1] & Hs & Hw & Hcal & Hnow & Ht & Hsame & Hdur);
      rewrite Hs in Hc, Hj, Hn, Hwc1, Hwj1 |- *
  end.
  simpl in Hc, Hj, Hn, Hwc1, Hwj1, Hw, Hcal, Hnow, Ht, Hsame, Hdur. simpl.
  rewrite for_each_recipients.
  match goal with
  | |- context [for_each ?ts notify_target ?s] =>
      destruct (for_each_notify_target ts s) as (w' & Hrun & _);
      rewrite Hrun; set (targets := ts) in *
  end.
  simpl.
  destruct (db_after_frame targets d1) as (Hdur' & _). simpl in Hdur'.
  pose proof (db_after_next_company_id targets d1) as Hn'.
  destruct (all_accepted (refuses d1) targets) eqn:Hok; simpl.
  - destruct (db_after_frame targets d1)
      as (_ & _ & _ & _ & _ & _ & Hwc & Hwj & _). simpl in Hwc, Hwj.
    rewrite Hn', Hn, Hwc, Hwj, Hwc1, Hwj1, Hc, Hj. done.
  - rewrite Hdur', Hn', Hc, Hj, Hn. done.
Qed.

(** X14.  Once the first commit of [create_full_installation] has gone
    through, for a request that selects jobs of the jobs table, the company
    row and one job row per selected job are in the committed store when the
    call ends, under the key the store gave, with the calendar event if the
    request has a probable date and the calendar answered.  What follows the
    commit does not undo it: the rollback after a refused notification comes
    too late for the company. *)
Theorem create_full_installation_keeps_the_company (data : CompanyPayload)
    (current_user_id : Z) (a : App) :
  (∀ c, c ∈ companies (durable (db a)) → c_id c ≠ next_company_id (db a)) →
  (∀ job_id, job_id ∈ selected_jobs data → job_id ∈ (jobs (db a)).*1) →
  let r := installations_py.create_full_installation data current_user_id a in
  let company_id := next_company_id (db a) in
  EvCommit ∈ new_events a r →
  companies (durable (db r.2)) =
    companies (durable (db a)) ++
      [company_row_of data company_id (now_str a) current_user_id (calendar a)] ∧
  company_jobs (durable (db r.2)) =
    company_jobs (durable (db a)) ++ job_rows_of data company_id ∧
  next_company_id (db r.2) = company_id + 1 ∧
  work (db r.2) = durable (db r.2).
Proof.
  intros Hfresh _ r company_id _.
  by apply create_full_installation_tables.
Qed.

(** The office where the store refuses the notification of user 8: the call
    ends in a 500 and the company Acme is stored. *)
Lemma create_full_installation_keeps_acme :
  (installations_py.create_full_installation acme 1 (office refuses_8)).1 =
    Raise (HTTPException 500 "INSERT INTO notifications") ∧
  companies (durable (db
      (installations_py.create_full_installation acme 1 (office refuses_8)).2)) =
    [company_row_of acme 1 "2025-01-01 14:00:00" 1 (Some "event-1")] ∧
  company_jobs (durable (db
      (installations_py.create_full_installation acme 1 (office refuses_8)).2)) =
    job_rows_of acme 1 ∧
  next_company_id (db
      (installations_py.create_full_installation acme 1 (office refuses_8)).2) = 2 ∧
  work (db (installations_py.create_full_installation acme 1 (office refuses_8)).2) =
    durable (db (installations_py.create_full_installation acme 1 (office refuses_8)).2).
Proof.
  split; [vm_compute; reflexivity|].
  apply (create_full_installation_keeps_the_company acme 1 (office refuses_8)).
  - intros c Hc. simpl in Hc. by apply elem_of_nil in Hc.
  - intros job_id Hjob. simpl in *. exact Hjob.
  - apply (list_elem_of_lookup_2 _ 0%nat). vm_compute. reflexivity.
Defined.

(* ===================================================================== *)
(** ** [update_full_installation]                                         *)
(* ===================================================================== *)

Section job_diffs.

Implicit Types (a : App) (d : Database) (data : CompanyPayload) (rows : list CompanyJob).

(** The statement of one kept job, on the rows. *)
Lemma keep_job_spec data (company_id job_id : Z) a :
  ∃ a', installations_update_py.keep_job data company_id job_id a = (Ok tt, a') ∧
    company_jobs (work (db a')) =
      (λ r, if bool_decide (cj_company_id r = company_id ∧ cj_job_id r = job_id)
            then kept_row data r else r) <$> company_jobs (work (db a)).
Proof.
  unfold installations_update_py.keep_job.
  assert (∀ r, cj_job_id r = job_id →
    kept_row data r =
      mkCompanyJob (cj_company_id r) (cj_job_id r)
        (from_option Some (cj_job_notes r)
           (installations_update_py.entry (job_notes data) job_id))
        (from_option Some (cj_assigned_user_id r)
           (installations_update_py.entry (assigned_users data) job_id))
        (from_option Some (cj_due_date r)
           (installations_update_py.entry (job_due_dates data) job_id))) as Hrow.
  { intros r <-. done. }
  assert ((λ r, if bool_decide (cj_company_id r = company_id ∧ cj_job_id r = job_id)
                then kept_row data r else r) <$> company_jobs (work (db a)) =
          (λ r, if bool_decide (cj_company_id r = company_id ∧ cj_job_id r = job_id)
                then mkCompanyJob (cj_company_id r) (cj_job_id r)
                       (from_option Some (cj_job_notes r)
                          (installations_update_py.entry (job_notes data) job_id))
                       (from_option Some (cj_assigned_user_id r)
                          (installations_update_py.entry (assigned_users data) job_id))
                       (from_option Some (cj_due_date r)
                          (installations_update_py.entry (job_due_dates data) job_id))
                else r) <$> company_jobs (work (db a))) as ->.
  { apply list_fmap_ext. intros i r _. case_bool_decide as Hr; [|done].
    apply Hrow, Hr. }
  destruct (installations_update_py.entry (job_notes data) job_id),
    (installations_update_py.entry (assigned_users data) job_id),
    (installations_update_py.entry (job_due_dates data) job_id);
    (eexists; split; [reflexivity|]); try done.
  simpl. symmetry. etrans; [|apply list_fmap_id].
  apply list_fmap_ext. intros i [] _. by case_bool_decide.
Qed.

Lemma keep_jobs_loop data (company_id : Z) (job_ids : list Z) : ∀ a,
  ∃ a', for_each job_ids (installations_update_py.keep_job data company_id) a
          = (Ok tt, a') ∧
    company_jobs (work (db a')) =
      (λ r, if bool_decide (cj_company_id r = company_id ∧ cj_job_id r ∈ job_ids)
            then kept_row data r else r) <$> company_jobs (work (db a)).
Proof.
  induction job_ids as [|job_id job_ids IH]; intros a.
  - exists a. split; [done|]. symmetry. etrans; [|apply list_fmap_id].
    apply list_fmap_ext. intros i r _. rewrite bool_decide_eq_false_2; [done|].
    intros [_ Hin]. by apply elem_of_nil in Hin.
  - destruct (keep_job_spec data company_id job_id a) as (a1 & Hrun1 & Hrows1).
    destruct (IH a1) as (a' & Hrun & Hrows).
    exists a'. split.
    + simpl. erewrite bind_ok by exact Hrun1. exact Hrun.
    + rewrite Hrows, Hrows1, <- list_fmap_compose.
      apply list_fmap_ext. intros i r _. simpl.
      destruct (decide (cj_company_id r = company_id ∧ cj_job_id r = job_id))
        as [[Hc Hj]|Hno].
      * rewrite (bool_decide_eq_true_2 (_ ∧ cj_job_id r = job_id)) by done.
        rewrite (bool_decide_eq_true_2 (_ ∧ cj_job_id r ∈ job_id :: job_ids))
          by (split; [done|set_solver]).
        case_bool_decide; [|done]. unfold kept_row. simpl.
        by destruct (installations_update_py.entry (job_notes data) (cj_job_id r)),
          (installations_update_py.entry (assigned_users data) (cj_job_id r)),
          (installations_update_py.entry (job_due_dates data) (cj_job_id r)).
      * rewrite (bool_decide_eq_false_2 (_ ∧ cj_job_id r = job_id)) by done.
        rewrite (bool_decide_ext
          (cj_company_id r = company_id ∧ cj_job_id r ∈ job_id :: job_ids)
          (cj_company_id r = company_id ∧ cj_job_id r ∈ job_ids)); [done|].
        rewrite elem_of_cons. naive_solver.
Qed.

Lemma add_jobs_loop data (company_id : Z) (job_ids : list Z) : ∀ a,
  ∃ a', for_each job_ids (installations_update_py.add_job data company_id) a
          = (Ok tt, a') ∧
    company_jobs (work (db a')) =
      company_jobs (work (db a)) ++
        ((λ job_id, mkCompanyJob company_id job_id
            (job_notes data ≫= (.!! job_id))
            (assigned_users data ≫= (.!! job_id))
            (job_due_dates data ≫= (.!! job_id))) <$> job_ids).
Proof.
  induction job_ids as [|job_id job_ids IH]; intros a.
  - exists a. split; [done|]. by rewrite app_nil_r.
  - edestruct IH as (a' & Hrun & Hrows).
    exists a'. split.
    + simpl. erewrite bind_ok by reflexivity. exact Hrun.
    + rewrite Hrows. simpl. by rewrite <- app_assoc.
Qed.

Lemma sync_jobs_spec (company_id : Z) data a :
  ∃ a', installations_update_py.sync_jobs company_id data a = (Ok tt, a') ∧
    company_jobs (work (db a')) =
      jobs_synced company_id data (company_jobs (work (db a))).
Proof.
  unfold installations_update_py.sync_jobs, jobs_synced.
  erewrite bind_ok by reflexivity. replace (set_db (db a) a) with a by (by destruct a).
  simpl.
  set (existing_ids := list_to_set (cj_job_id <$> filter _ _) : gset Z).
  set (desired_ids := list_to_set (selected_jobs data) : gset Z).
  destruct (add_jobs_loop data company_id (elements (desired_ids ∖ existing_ids)) a)
    as (a1 & Hrun1 & Hrows1).
  assert ((if bool_decide (desired_ids ∖ existing_ids ≠ ∅)
           then for_each (elements (desired_ids ∖ existing_ids))
                  (installations_update_py.add_job data company_id)
           else ret tt) a = (Ok tt, a1)) as Hadd.
  { destruct (bool_decide_reflect (desired_ids ∖ existing_ids ≠ ∅)) as [Hne|Hne];
      [done|].
    apply dec_stable in Hne. rewrite Hne, elements_empty in Hrun1. exact Hrun1. }
  erewrite bind_ok by exact Hadd.
  set (a2 := ((if bool_decide (existing_ids ∖ desired_ids ≠ ∅)
               then in_db (installations_update_py.delete_company_jobs company_id
                             (existing_ids ∖ desired_ids))
               else ret tt) a1).2).
  assert ((if bool_decide (existing_ids ∖ desired_ids ≠ ∅)
           then in_db (installations_update_py.delete_company_jobs company_id
                         (existing_ids ∖ desired_ids))
           else ret tt) a1 = (Ok tt, a2)) as Hdel.
  { subst a2. by destruct (bool_decide (existing_ids ∖ desired_ids ≠ ∅)). }
  assert (company_jobs (work (db a2)) =
            filter (λ r, ¬ (cj_company_id r = company_id ∧
                            cj_job_id r ∈ existing_ids ∖ desired_ids))
              (company_jobs (work (db a1)))) as Hrows2.
  { subst a2.
    destruct (bool_decide_reflect (existing_ids ∖ desired_ids ≠ ∅)) as [Hne|Hne];
      [done|].
    apply dec_stable in Hne. rewrite Hne. simpl.
    symmetry. apply filter_all. intros r _ [_ Hin]. set_solver. }
  erewrite bind_ok by exact Hdel.
  rewrite Hrows1 in Hrows2. rewrite <- Hrows2.
  destruct (keep_jobs_loop data company_id (elements (desired_ids ∩ existing_ids)) a2)
    as (a3 & Hrun3 & Hrows3).
  destruct (truthy_dict (job_notes data) || truthy_dict (assigned_users data)); simpl.
  - destruct (bool_decide_reflect (desired_ids ∩ existing_ids ≠ ∅)) as [Hne|Hne].
    + exists a3. split; [done|]. rewrite Hrows3.
      apply list_fmap_ext. intros i r _.
      rewrite (bool_decide_ext
        (cj_company_id r = company_id ∧
         cj_job_id r ∈ elements (desired_ids ∩ existing_ids))
        (cj_company_id r = company_id ∧ cj_job_id r ∈ desired_ids ∩ existing_ids));
        [done|].
      by rewrite elem_of_elements.
    + exists a2. split; [done|]. apply dec_stable in Hne. rewrite Hne.
      symmetry. etrans; [|apply list_fmap_id].
      apply list_fmap_ext. intros i r _. rewrite bool_decide_eq_false_2; [done|].
      intros [_ Hin]. set_solver.
  - by exists a2.
Qed.

End job_diffs.

Section update_full_installation_facts.

Implicit Types (a : App) (d : Database) (data : CompanyPayload) (rows : list CompanyJob).

Lemma sync_calendar_spec (company_id : Z) a :
  ∃ a', installations_update_py.sync_calendar company_id a = (Ok tt, a') ∧
    company_jobs (work (db a')) = company_jobs (work (db a)).
Proof.
  unfold installations_update_py.sync_calendar,
    installations_update_py.delete_installation_event,
    installations_update_py.select_company,
    installations_update_py.clear_calendar_event_id,
    google_calendar_py.upsert_installation_event, mysql.update_calendar_event_id.
  destruct a as [w d c n tr]. run_conn.
  destruct (truthy_str _).
  - destruct c as [new_event_id|]; simpl; [|by eexists].
    destruct (bool_decide _); by eexists.
  - destruct (truthy_str _); simpl; [|by eexists].
    destruct c; by eexists.
Qed.

Lemma update_full_installation_spec (company_id : Z) data current_user a :
  let r := installations_update_py.update_full_installation company_id data
             current_user a in
  r.1 = Ok (installations_update_py.response current_user) ∧
  company_jobs (durable (db r.2)) =
    jobs_synced company_id data (company_jobs (durable (db a))) ∧
  work (db r.2) = durable (db r.2).
Proof.
  unfold installations_update_py.update_full_installation,
    installations_update_py.select_company, installations_update_py.update_company.
  run_conn.
  match goal with
  | |- context [installations_update_py.sync_jobs ?x ?y ?s] =>
      destruct (sync_jobs_spec x y s) as (a1 & Hrun1 & Hrows1); rewrite Hrun1
  end.
  destruct (sync_calendar_spec company_id a1) as (a2 & Hrun2 & Hrows2).
  rewrite Hrun2. simpl. rewrite Hrows2, Hrows1. done.
Qed.

Lemma elem_of_jobs_synced (company_id : Z) data rows r :
  cj_company_id r = company_id →
  r ∈ jobs_synced company_id data rows →
  cj_job_id r ∈ (list_to_set (selected_jobs data) : gset Z).
Proof.
  intros Hc. unfold jobs_synced.
  set (existing_ids := list_to_set (cj_job_id <$> filter _ _) : gset Z).
  set (desired_ids := list_to_set (selected_jobs data) : gset Z).
  assert (∀ r0, cj_company_id r0 = company_id →
    r0 ∈ filter (λ r, ¬ (cj_company_id r = company_id ∧
                         cj_job_id r ∈ existing_ids ∖ desired_ids))
           (rows ++ ((λ job_id, mkCompanyJob company_id job_id
                        (job_notes data ≫= (.!! job_id))
                        (assigned_users data ≫= (.!! job_id))
                        (job_due_dates data ≫= (.!! job_id)))
                     <$> elements (desired_ids ∖ existing_ids))) →
    cj_job_id r0 ∈ desired_ids) as Hremaining.
  { intros r0 Hc0 [Hkeep Hin]%list_elem_of_filter.
    apply elem_of_app in Hin as [Hin|Hin].
    - assert (cj_job_id r0 ∈ existing_ids) as Hex.
      { subst existing_ids. rewrite elem_of_list_to_set, list_elem_of_fmap.
        exists r0. split; [done|]. by apply list_elem_of_filter. }
      destruct (decide (cj_job_id r0 ∈ desired_ids)); [done|].
      exfalso. apply Hkeep. split; [done|set_solver].
    - apply list_elem_of_fmap in Hin as (job_id & -> & Hj). simpl.
      apply elem_of_elements in Hj. set_solver. }
  destruct (truthy_dict (job_notes data) || truthy_dict (assigned_users data)).
  - intros (r0 & -> & Hin)%list_elem_of_fmap.
    case_bool_decide as Hk.
    + simpl. destruct Hk as [_ Hk]. set_solver.
    + apply Hremaining; [|done]. exact Hc.
  - by apply Hremaining.
Qed.



End update_full_installation_facts.



(** X16.  When the request carries neither job notes nor assigned users,
    [update_full_installation] leaves the rows of the jobs the company keeps
    as they were, whatever [job_due_dates] says about them. *)
Theorem update_full_installation_ignores_due_dates (company_id : Z)
    (data : CompanyPayload) (current_user : CurrentUser) (a : App) (row : CompanyJob) :
  truthy_dict (job_notes data) = false →
  truthy_dict (assigned_users data) = false →
  cj_job_id row ∈ job_ids_of company_id (durable (db a)) →
  cj_job_id row ∈ selected_jobs data →
  let r := installations_update_py.update_full_installation company_id data
             current_user a in
  row ∈ jobs_of company_id (durable (db r.2)) ↔
  row ∈ jobs_of company_id (durable (db a)).
Proof.
  intros Hnotes Husers Hex Hsel.
  destruct (update_full_installation_spec company_id data current_user a)
    as (_ & Hrows & _).
  simpl. unfold jobs_of. rewrite Hrows. unfold jobs_synced.
  rewrite Hnotes, Husers. simpl. unfold job_ids_of, jobs_of in Hex.
  rewrite !list_elem_of_filter, elem_of_app, list_elem_of_fmap.
  setoid_rewrite elem_of_elements.
  assert (cj_job_id row ∈ (list_to_set (selected_jobs data) : gset Z)) as Hd
    by (by apply elem_of_list_to_set).
  split.
  - intros (Hc & _ & [Hin|(job_id & -> & Hj)]); [done|]. simpl in *. set_solver.
  - intros [Hc Hin]. split; [done|]. split; [set_solver|by left].
Qed.

(** The office with company 1: a due date sent for job 5 alone does not
    reach its row. *)
Lemma update_full_installation_due_date_alone :
  mkCompanyJob 1 5 None None None ∈
    jobs_of 1 (durable (db
      (installations_update_py.update_full_installation 1 acme_due secretary
         office_with_company).2)).
Proof.
  apply (update_full_installation_ignores_due_dates 1 acme_due secretary
           office_with_company (mkCompanyJob 1 5 None None None)).
  - reflexivity.
  - reflexivity.
  - apply (bool_decide_unpack _). vm_compute. exact I.
  - simpl. apply list_elem_of_here.
  - assert (jobs_of 1 (durable (db office_with_company))
            = [mkCompanyJob 1 5 None None None]) as -> by (vm_compute; reflexivity).
    apply list_elem_of_here.
Defined.

(** X17.  When the request carries job notes or assigned users, every row of
    a job the company keeps has, after [update_full_installation], the note,
    the assigned user and the due date the request gives for that job. *)
Theorem update_full_installation_updates_kept_jobs (company_id : Z)
    (data : CompanyPayload) (current_user : CurrentUser) (a : App) (row : CompanyJob) :
  truthy_dict (job_notes data) || truthy_dict (assigned_users data) = true →
  cj_job_id row ∈ job_ids_of company_id (durable (db a)) →
  let r := installations_update_py.update_full_installation company_id data
             current_user a in
  row ∈ jobs_of company_id (durable (db r.2)) →
  (∀ v, job_notes data ≫= (.!! cj_job_id row) = Some v → cj_job_notes row = Some v) ∧
  (∀ v, assigned_users data ≫= (.!! cj_job_id row) = Some v →
        cj_assigned_user_id row = Some v) ∧
  (∀ v, job_due_dates data ≫= (.!! cj_job_id row) = Some v → cj_due_date row = Some v).
Proof.
  intros Hguard Hex.
  destruct (update_full_installation_spec company_id data current_user a)
    as (_ & Hrows & _).
  simpl. unfold jobs_of. rewrite Hrows. intros [Hc Hin]%list_elem_of_filter.
  pose proof (elem_of_jobs_synced company_id data _ row Hc Hin) as Hd.
  unfold jobs_synced in Hin. rewrite Hguard in Hin.
  apply list_elem_of_fmap in Hin as (r0 & Hrow & _).
  assert (∀ V (o : option (gmap Z V)) job_id v,
    o ≫= (.!! job_id) = Some v → installations_update_py.entry o job_id = Some v)
    as Hentry.
  { intros V [m|] job_id v Hv; [|done]. simpl in Hv.
    unfold installations_update_py.entry, truthy_dict.
    rewrite bool_decide_eq_false_2; [done|].
    intros ->%map_size_empty_iff. by rewrite lookup_empty in Hv. }
  assert (row = kept_row data r0) as ->.
  { case_bool_decide as Hk; [done|]. subst r0. exfalso. apply Hk.
    split; [done|]. unfold job_ids_of, jobs_of in Hex. set_solver. }
  simpl in *.
  repeat split; intros v Hv; by rewrite (Hentry _ _ _ _ Hv).
Qed.

(** The office with company 1: with a note for job 5 the due date reaches
    its row. *)
Lemma update_full_installation_due_date_with_note :
  mkCompanyJob 1 5 (Some "roof") None (Some "2025-03-01") ∈
    jobs_of 1 (durable (db
      (installations_update_py.update_full_installation 1 acme_due_noted secretary
         office_with_company).2)) ∧
  cj_due_date (mkCompanyJob 1 5 (Some "roof") None (Some "2025-03-01")) =
    Some "2025-03-01".
Proof.
  assert (mkCompanyJob 1 5 (Some "roof") None (Some "2025-03-01") ∈
    jobs_of 1 (durable (db
      (installations_update_py.update_full_installation 1 acme_due_noted secretary
         office_with_company).2))) as Hin.
  { assert (jobs_of 1 (durable (db
      (installations_update_py.update_full_installation 1 acme_due_noted secretary
         office_with_company).2))
            = [mkCompanyJob 1 5 (Some "roof") None (Some "2025-03-01")]) as ->
      by (vm_compute; reflexivity).
    apply list_elem_of_here. }
  split; [exact Hin|].
  apply (update_full_installation_updates_kept_jobs 1 acme_due_noted secretary
           office_with_company (mkCompanyJob 1 5 (Some "roof") None (Some "2025-03-01"))).
  - reflexivity.
  - apply (bool_decide_unpack _). vm_compute. exact I.
  - exact Hin.
  - reflexivity.
Defined.

(* ===================================================================== *)
(** ** main.py: companies by services                                     *)
(* ===================================================================== *)

Section services.

Variables strip upper : string → string.

Implicit Types (es : Elastic) (tokens : list string) (f : string → gset string).

Abbreviation single := (main_services_py._company_ids_for_single_token strip upper).

Lemma any_loop_spec es f tokens : ∀ acc : gset string,
  (∀ t, t ∈ tokens → single t es = (Ok (f t), es)) →
  ∃ ids, for_acc tokens acc (λ union_ids t, ids <- single t ;; ret (union_ids ∪ ids)) es
           = (Ok ids, es) ∧
         ∀ id, id ∈ ids ↔ id ∈ acc ∨ ∃ t, t ∈ tokens ∧ id ∈ f t.
Proof.
  induction tokens as [|t tokens IH]; intros acc Hf.
  - exists acc. split; [done|]. intros id. split; [by left|].
    intros [?|(t & Ht & _)]; [done|]. by apply elem_of_nil in Ht.
  - destruct (IH (acc ∪ f t)) as (ids & Hrun & Hids).
    { intros t' Ht'. apply Hf. by right. }
    exists ids. split.
    + simpl. erewrite bind_ok; [exact Hrun|].
      erewrite bind_ok by (apply Hf; left). reflexivity.
    + intros id. rewrite Hids, elem_of_union. split.
      * intros [[?|?]|(t' & Ht' & ?)]; [by left|right..].
        -- exists t. split; [left|done].
        -- exists t'. split; [by right|done].
      * intros [?|(t' & Ht' & ?)]; [by left; left|].
        apply elem_of_cons in Ht' as [->|Ht']; [by left; right|].
        right. by exists t'.
Qed.

Lemma all_loop_spec es f tokens : ∀ acc : gset string,
  (∀ t, t ∈ tokens → single t es = (Ok (f t), es)) →
  ∃ ids, main_services_py.all_loop strip upper tokens acc es = (Ok ids, es) ∧
         ∀ id, id ∈ ids ↔ id ∈ acc ∧ ∀ t, t ∈ tokens → id ∈ f t.
Proof.
  induction tokens as [|t tokens IH]; intros acc Hf.
  - exists acc. split; [done|]. intros id. split; [|by intros [? _]].
    intros ?. split; [done|]. intros t Ht. by apply elem_of_nil in Ht.
  - simpl. erewrite bind_ok by (apply Hf; left).
    case_bool_decide as Hids.
    { exists ∅. split; [done|]. intros id. split; [set_solver|].
      intros [_ Hall]. rewrite <- Hids. apply Hall. left. }
    case_bool_decide as Hacc.
    { exists ∅. split; [done|]. intros id. split; [set_solver|].
      intros [? Hall]. rewrite <- Hacc. apply elem_of_intersection.
      split; [done|]. apply Hall. left. }
    destruct (IH (acc ∩ f t)) as (ids & Hrun & Hin).
    { intros t' Ht'. apply Hf. by right. }
    exists ids. split; [exact Hrun|].
    intros id. rewrite Hin, elem_of_intersection. split.
    + intros [[? ?] Hall]. split; [done|].
      intros t' [->|Ht']%elem_of_cons; [done|by apply Hall].
    + intros [? Hall]. split; [split; [done|apply Hall; left]|].
      intros t' Ht'. apply Hall. by right.
Qed.

End services.

(** X18.  When the searches for the tokens answer, [_company_ids_for_services_any]
    returns the ids that the search for at least one token returns, and
    leaves the index as it is. *)
Theorem services_any_is_the_union (strip upper : string → string) (es : Elastic)
    (tokens : option (list string)) (f : string → gset string) :
  (∀ t, t ∈ default [] tokens →
        main_services_py._company_ids_for_single_token strip upper t es = (Ok (f t), es)) →
  ∃ ids, main_services_py._company_ids_for_services_any strip upper tokens es
           = (Ok ids, es) ∧
         ∀ id, id ∈ ids ↔ ∃ t, t ∈ default [] tokens ∧ id ∈ f t.
Proof.
  intros Hf. unfold main_services_py._company_ids_for_services_any.
  destruct (any_loop_spec strip upper es f (default [] tokens) ∅ Hf) as (ids & Hrun & Hids).
  exists ids. split; [exact Hrun|]. intros id. rewrite Hids. set_solver.
Qed.

(** The index of two companies, asked for POS or EDS. *)
Lemma services_any_of_two_companies :
  ∃ ids, main_services_py._company_ids_for_services_any (λ s, s) (λ s, s)
           (Some ["POS"; "EDS"]) two_companies = (Ok ids, two_companies) ∧
         ∀ id, id ∈ ids ↔
           ∃ t, t ∈ ["POS"; "EDS"] ∧ id ∈ ids_of (λ s, s) (λ s, s) two_companies t.
Proof.
  apply (services_any_is_the_union (λ s, s) (λ s, s) two_companies
           (Some ["POS"; "EDS"]) (ids_of (λ s, s) (λ s, s) two_companies)).
  intros t Ht. repeat (apply elem_of_cons in Ht as [->|Ht]); [reflexivity..|].
  by apply elem_of_nil in Ht.
Defined.

(** X19.  When the searches for the tokens answer, [_company_ids_for_services_all]
    returns the ids that the search for every token that is not blank
    returns, and nothing when every token is blank; its early returns do
    not change that. *)
Theorem services_all_is_the_intersection (strip upper : string → string) (es : Elastic)
    (tokens : option (list string)) (f : string → gset string) :
  (∀ t, t ∈ default [] tokens →
        main_services_py._company_ids_for_single_token strip upper t es = (Ok (f t), es)) →
  ∃ ids, main_services_py._company_ids_for_services_all strip upper tokens es
           = (Ok ids, es) ∧
         ∀ id, id ∈ ids ↔
           (∃ t, t ∈ default [] tokens ∧ strip t ≠ "") ∧
           (∀ t, t ∈ default [] tokens → strip t ≠ "" → id ∈ f t).
Proof.
  intros Hf. unfold main_services_py._company_ids_for_services_all.
  assert (∀ t, t ∈ filter (λ t, strip t ≠ "") (default [] tokens) →
            main_services_py._company_ids_for_single_token strip upper t es
            = (Ok (f t), es)) as Hkept.
  { intros t [_ Ht]%list_elem_of_filter. by apply Hf. }
  assert (∀ P : string → Prop,
    (∀ t, t ∈ default [] tokens → strip t ≠ "" → P t) ↔
    (∀ t, t ∈ filter (λ t, strip t ≠ "") (default [] tokens) → P t)) as Hall.
  { intros P. setoid_rewrite list_elem_of_filter. naive_solver. }
  assert ((∃ t, t ∈ default [] tokens ∧ strip t ≠ "") ↔
          (∃ t, t ∈ filter (λ t, strip t ≠ "") (default [] tokens))) as Hex.
  { setoid_rewrite list_elem_of_filter. naive_solver. }
  setoid_rewrite Hex. setoid_rewrite (Hall (λ t, _ ∈ f t)).
  destruct (filter (λ t, strip t ≠ "") (default [] tokens)) as [|first rest].
  - exists ∅. split; [done|]. intros id. split; [set_solver|].
    intros [(t & Ht) _]. by apply elem_of_nil in Ht.
  - erewrite bind_ok by (apply Hkept; left).
    case_bool_decide as Hfirst.
    + exists ∅. split; [done|]. intros id. split; [set_solver|].
      intros [_ Hin]. rewrite <- Hfirst. apply Hin. left.
    + destruct (all_loop_spec strip upper es f rest (f first)) as (ids & Hrun & Hids).
      { intros t Ht. apply Hkept. by right. }
      exists ids. split; [exact Hrun|]. intros id. rewrite Hids. split.
      * intros [? Hin]. split; [exists first; left|].
        intros t [->|Ht]%elem_of_cons; [done|by apply Hin].
      * intros [_ Hin]. split; [apply Hin; left|].
        intros t Ht. apply Hin. by right.
Qed.

(** The index of two companies, asked for POS and EDS. *)
Lemma services_all_of_two_companies :
  ∃ ids, main_services_py._company_ids_for_services_all (λ s, s) (λ s, s)
           (Some ["POS"; "EDS"]) two_companies = (Ok ids, two_companies) ∧
         ∀ id, id ∈ ids ↔
           (∃ t, t ∈ ["POS"; "EDS"] ∧ t ≠ "") ∧
           (∀ t, t ∈ ["POS"; "EDS"] → t ≠ "" →
                 id ∈ ids_of (λ s, s) (λ s, s) two_companies t).
Proof.
  apply (services_all_is_the_intersection (λ s, s) (λ s, s) two_companies
           (Some ["POS"; "EDS"]) (ids_of (λ s, s) (λ s, s) two_companies)).
  intros t Ht. repeat (apply elem_of_cons in Ht as [->|Ht]); [reflexivity..|].
  by apply elem_of_nil in Ht.
Defined.

(** X20.  When the searches for the tokens answer, every id that
    [_company_ids_for_services_all] returns is among those that
    [_company_ids_for_services_any] returns for the same tokens. *)
Theorem services_all_within_any (strip upper : string → string) (es : Elastic)
    (tokens : option (list string)) (f : string → gset string) :
  (∀ t, t ∈ default [] tokens →
        main_services_py._company_ids_for_single_token strip upper t es = (Ok (f t), es)) →
  ∃ ids_all ids_any,
    main_services_py._company_ids_for_services_all strip upper tokens es
      = (Ok ids_all, es) ∧
    main_services_py._company_ids_for_services_any strip upper tokens es
      = (Ok ids_any, es) ∧
    ids_all ⊆ ids_any.
Proof.
  intros Hf.
  destruct (any_loop_spec strip upper es f (default [] tokens) ∅ Hf) as (ids_any & Hany & Hin_any).
  unfold main_services_py._company_ids_for_services_all,
    main_services_py._company_ids_for_services_any.
  assert (∀ t, t ∈ filter (λ t, strip t ≠ "") (default [] tokens) →
            t ∈ default [] tokens) as Hsub.
  { by intros t [_ Ht]%list_elem_of_filter. }
  destruct (filter (λ t, strip t ≠ "") (default [] tokens)) as [|first rest].
  - exists ∅, ids_any. split; [done|]. split; [exact Hany|set_solver].
  - erewrite bind_ok by (apply Hf, Hsub; left).
    case_bool_decide as Hfirst.
    + exists ∅, ids_any. split; [done|]. split; [exact Hany|set_solver].
    + destruct (all_loop_spec strip upper es f rest (f first)) as (ids & Hrun & Hids).
      { intros t Ht. apply Hf, Hsub. by right. }
      exists ids, ids_any. split; [exact Hrun|]. split; [exact Hany|].
      intros id [Hid _]%Hids. apply Hin_any. right.
      exists first. split; [apply Hsub; left|done].
Qed.

(** The index of two companies: POS and EDS within POS or EDS. *)
Lemma services_all_within_any_of_two_companies :
  ∃ ids_all ids_any,
    main_services_py._company_ids_for_services_all (λ s, s) (λ s, s)
      (Some ["POS"; "EDS"]) two_companies = (Ok ids_all, two_companies) ∧
    main_services_py._company_ids_for_services_any (λ s, s) (λ s, s)
      (Some ["POS"; "EDS"]) two_companies = (Ok ids_any, two_companies) ∧
    ids_all ⊆ ids_any.
Proof.
  apply (services_all_within_any (λ s, s) (λ s, s) two_companies
           (Some ["POS"; "EDS"]) (ids_of (λ s, s) (λ s, s) two_companies)).
  intros t Ht. repeat (apply elem_of_cons in Ht as [->|Ht]); [reflexivity..|].
  by apply elem_of_nil in Ht.
Defined.

(* ===================================================================== *)
(** ** sales.py: offers                                                   *)
(* ===================================================================== *)

Ltac run_sales :=
  unfold sales_offers_py.get_db, sales_offers_py.commit, sales_offers_py.rollback,
    sales_offers_py.close, sales_offers_py.execute, sales_offers_py.insert_activity,
    try_except_mysql;
  run.

Section offers.

Implicit Types (s : SalesStore) (user : CurrentUser).

Lemma log_activity_spec (lead_id : Z) (type_ : string) (content : option string)
    (meta : option Json) (user_id : option Z) s :
  ∃ s', sales_offers_py.log_activity lead_id type_ content meta user_id s = (Ok tt, s') ∧
    s_durable s' = s_durable s ∧
    sales_offers (s_work s') = sales_offers (s_work s) ∧
    next_offer_id s' = next_offer_id s ∧
    rejects s' = rejects s ∧
    utc_now s' = utc_now s ∧
    stages (s_work s') = stages (s_work s) ∧
    sales_activities (s_work s') =
      sales_activities (s_work s) ++
        logged_activity (rejects s) lead_id type_ content meta user_id.
Proof.
  assert (∀ (now : string) (leads : list Lead),
    (λ l, (l_id l, l_stage l)) <$>
      ((λ l, if bool_decide (l_id l = lead_id)
             then mkLead (l_id l) (l_stage l) (Some now) else l) <$> leads)
    = (λ l, (l_id l, l_stage l)) <$> leads) as Htouch.
  { intros now leads. rewrite <- list_fmap_compose. apply list_fmap_ext.
    intros i l _. simpl. by case_bool_decide. }
  unfold sales_offers_py.log_activity, logged_activity, stages. run_sales.
  destruct (rejects s (InsertActivityFull _)) eqn:Hfull; simpl;
    [destruct (rejects s (InsertActivityNoMeta _)) eqn:Hno_meta; simpl;
      [destruct (rejects s (InsertActivityBare _)) eqn:Hbare; simpl|]|];
    destruct (rejects s (TouchLead lead_id)) eqn:Htouched; simpl;
    eexists; (split; [reflexivity|]); simpl;
    rewrite ?Htouch, ?app_nil_r; done.
Qed.

End offers.

Section offer_endpoints.

Implicit Types (s : SalesStore) (user : CurrentUser).



End offer_endpoints.

(** X21.  [log_activity] never raises, whatever the store rejects: it adds
    the activity with the most columns the store accepts among its three
    INSERTs, none when the store rejects all three; it changes no offer and
    no lead's stage, and commits nothing. *)
Theorem log_activity_never_raises (lead_id : Z) (type_ : string)
    (content : option string) (meta : option Json) (user_id : option Z)
    (s : SalesStore) :
  ∃ s', sales_offers_py.log_activity lead_id type_ content meta user_id s = (Ok tt, s') ∧
    s_durable s' = s_durable s ∧
    sales_offers (s_work s') = sales_offers (s_work s) ∧
    stages (s_work s') = stages (s_work s) ∧
    sales_activities (s_work s') =
      sales_activities (s_work s) ++
        logged_activity (rejects s) lead_id type_ content meta user_id ∧
    (length (logged_activity (rejects s) lead_id type_ content meta user_id) ≤ 1)%nat ∧
    (∀ row, row ∈ logged_activity (rejects s) lead_id type_ content meta user_id →
            act_lead_id row = lead_id ∧ act_type row = type_ ∧
            act_content row = content).
Proof.
  destruct (log_activity_spec lead_id type_ content meta user_id s)
    as (s' & Hrun & Hdur & Hoffers & _ & _ & _ & Hstages & Hacts).
  exists s'. repeat (split; [done|]). unfold logged_activity.
  destruct (rejects s (InsertActivityFull _));
    [destruct (rejects s (InsertActivityNoMeta _));
      [destruct (rejects s (InsertActivityBare _))|]|]; simpl;
    (split; [lia|]); intros row Hrow;
    try (by apply elem_of_nil in Hrow);
    by apply list_elem_of_singleton in Hrow as ->.
Qed.



(** X23.  For an offer id that no offer has, [send_offer] and
    [update_offer_status] both end in a 500, never in the 404 their code
    raises, and leave the committed store as it was: the 404 is caught by
    the [except Exception] of the same function. *)
Theorem missing_offer_gives_500 (offer_id : Z) (status : string) (user : CurrentUser)
    (s : SalesStore) :
  (∀ o, o ∈ sales_offers (s_durable s) → o_id o ≠ offer_id) →
  (∃ detail s', sales_offers_py.send_offer offer_id user s
                  = (Raise (HTTPException 500 detail), s') ∧
                s_durable s' = s_durable s ∧ s_work s' = s_durable s) ∧
  (∃ detail s', sales_offers_py.update_offer_status offer_id status user s
                  = (Raise (HTTPException 500 detail), s') ∧
                s_durable s' = s_durable s ∧ s_work s' = s_durable s).
Proof.
  intros Hmissing.
  assert (∀ st : string,
    head (filter (λ o, o_id o = offer_id)
      ((λ o, if bool_decide (o_id o = offer_id)
             then mkOffer (o_id o) (o_lead_id o) (o_version o) st (o_currency o)
                    (o_valid_until o) (o_notes o)
             else o) <$> sales_offers (s_durable s))) = None) as Hhead.
  { intros st. rewrite filter_none; [done|].
    intros o (o0 & -> & Ho0)%list_elem_of_fmap.
    rewrite bool_decide_eq_false_2 by (by apply Hmissing). by apply Hmissing. }
  assert (head (filter (λ o, o_id o = offer_id) (sales_offers (s_durable s))) = None)
    as Hhead0.
  { rewrite filter_none; [done|]. intros o Ho. by apply Hmissing. }
  split.
  - unfold sales_offers_py.send_offer, sales_offers_py.set_offer_status,
      sales_offers_py.select_offer.
    run_sales.
    destruct (rejects s (SetOfferStatus offer_id "sent")); simpl;
      [by do 2 eexists|].
    destruct (rejects s (SelectOffer offer_id)); simpl; [by do 2 eexists|].
    rewrite Hhead. simpl. by do 2 eexists.
  - unfold sales_offers_py.update_offer_status, sales_offers_py.set_offer_status,
      sales_offers_py.select_offer.
    run_sales.
    destruct (rejects s (SetOfferStatus offer_id status)); simpl;
      [by do 2 eexists|].
    destruct (rejects s (SelectOffer offer_id)); simpl; [by do 2 eexists|].
    rewrite Hhead. simpl. by do 2 eexists.
Qed.

(** The desk has no offer 9. *)
Lemma send_offer_9_gives_500 :
  (∃ detail s', sales_offers_py.send_offer 9 secretary (sales_desk (λ _, None))
                  = (Raise (HTTPException 500 detail), s') ∧
                s_durable s' = s_durable (sales_desk (λ _, None)) ∧
                s_work s' = s_durable (sales_desk (λ _, None))) ∧
  (∃ detail s', sales_offers_py.update_offer_status 9 "viewed" secretary
                  (sales_desk (λ _, None))
                  = (Raise (HTTPException 500 detail), s') ∧
                s_durable s' = s_durable (sales_desk (λ _, None)) ∧
                s_work s' = s_durable (sales_desk (λ _, None))).
Proof.
  apply (missing_offer_gives_500 9 "viewed" secretary (sales_desk (λ _, None))).
  intros o Ho. simpl in Ho.
  repeat (apply elem_of_cons in Ho as [->|Ho]); [done..|].
  by apply elem_of_nil in Ho.
Defined.

Section offer_status.

Implicit Types (s : SalesStore) (user : CurrentUser).



End offer_status.



(* ===================================================================== *)
(** ** [get_undone_jobs]: pages                                           *)
(* ===================================================================== *)

(** X25.  A [get_undone_jobs] that returns a page has left the store as it
    was, and the page it returns has a page number of at least 1, a page
    size between 1 and 200 and no more items than the page size, whatever
    the query string asked for; and the total it reports is the total that
    any other page and page size of the same query report. *)
Theorem get_undone_jobs_bounds (int_of_string : string → option Z)
    (lower strip : string → string) (Row Item : Type) (item_of : Row → Item)
    (select_undone : option Z → option Z → option string → string → list Row)
    (qp : gmap string string) (d d' : Database)
    (pg : installations_undone_py.Page Item) :
  let run := installations_undone_py.get_undone_jobs int_of_string lower strip Row Item
               item_of select_undone in
  run qp d = (Ok pg, d') →
  durable d' = durable d ∧
  1 ≤ installations_undone_py.page Item pg ∧
  1 ≤ installations_undone_py.page_size Item pg ≤ 200 ∧
  Z.of_nat (length (installations_undone_py.items Item pg))
    ≤ installations_undone_py.page_size Item pg ∧
  ∀ (p n : string) pg' d'',
    run (<["page" := p]> (<["page_size" := n]> qp)) d = (Ok pg', d'') →
    installations_undone_py.total Item pg' = installations_undone_py.total Item pg.
Proof.
  unfold installations_undone_py.get_undone_jobs. run_conn.
  intros [= <- <-]. simpl. split; [done|].
  split; [destruct (int_of_string _); lia|].
  split; [destruct (int_of_string (default "50" _)); lia|].
  split.
  - rewrite length_fmap, length_take.
    destruct (int_of_string (default "50" _)); lia.
  - intros p n pg' d'' [= <- _]. simpl.
    unfold installations_undone_py.to_int, installations_undone_py.order_by_of.
    by rewrite !lookup_insert_ne by done.
Qed.

(** Page 0 in pages of 1000 is page 1 in pages of 200. *)
Lemma get_undone_jobs_clamped :
  ∃ pg d',
    installations_undone_py.get_undone_jobs
      (λ s, if bool_decide (s = "0") then Some 0
            else if bool_decide (s = "1000") then Some 1000 else None)
      (λ s, s) (λ s, s) Z Z (λ r, r) (λ _ _ _ _, [10; 20; 30])
      (<["page" := "0"]> (<["page_size" := "1000"]> ∅))
      (sample_store (λ _, false)) = (Ok pg, d') ∧
    installations_undone_py.page Z pg = 1 ∧
    installations_undone_py.page_size Z pg = 200 ∧
    durable d' = durable (sample_store (λ _, false)) ∧
    1 ≤ installations_undone_py.page Z pg ∧
    1 ≤ installations_undone_py.page_size Z pg ≤ 200 ∧
    Z.of_nat (length (installations_undone_py.items Z pg))
      ≤ installations_undone_py.page_size Z pg.
Proof.
  do 2 eexists. split; [reflexivity|]. split; [reflexivity|]. split; [reflexivity|].
  destruct (get_undone_jobs_bounds
    (λ s, if bool_decide (s = "0") then Some 0
          else if bool_decide (s = "1000") then Some 1000 else None)
    (λ s, s) (λ s, s) Z Z (λ r, r) (λ _ _ _ _, [10; 20; 30])
    (<["page" := "0"]> (<["page_size" := "1000"]> ∅))
    (sample_store (λ _, false)) _ _ eq_refl) as (Hdur & Hpage & Hsize & Hitems & _).
  done.
Defined.

(** X26.  Paging loses no row: the row at position [i] of what the store
    answers is item [i mod n] of page [i / n + 1], for a page size [n]
    between 1 and 200. *)
Theorem get_undone_jobs_pages_cover (int_of_string : string → option Z)
    (lower strip : string → string) (Row Item : Type) (item_of : Row → Item)
    (select_undone : option Z → option Z → option string → string → list Row)
    (qp : gmap string string) (d : Database) (p n : string) (size i : nat) (r : Row) :
  qp !! "page" = Some p →
  qp !! "page_size" = Some n →
  int_of_string p = Some (Z.of_nat (i / size) + 1) →
  int_of_string n = Some (Z.of_nat size) →
  (1 ≤ size ≤ 200)%nat →
  select_undone (installations_undone_py.to_int int_of_string qp "company_id")
    (installations_undone_py.to_int int_of_string qp "assigned_user_id")
    (match qp !! "q" with
     | Some v => if bool_decide (v = "") then None else Some v
     | None => None
     end)
    (installations_undone_py.order_by_of lower strip qp) !! i = Some r →
  ∃ pg d', installations_undone_py.get_undone_jobs int_of_string lower strip Row Item
             item_of select_undone qp d = (Ok pg, d') ∧
    installations_undone_py.items Item pg !! (i mod size)%nat = Some (item_of r).
Proof.
  intros Hp Hn Hpage Hsize Hbounds Hrow.
  unfold installations_undone_py.get_undone_jobs. run_conn.
  do 2 eexists. split; [reflexivity|]. simpl.
  rewrite Hp, Hn. simpl. rewrite Hpage, Hsize.
  rewrite list_lookup_fmap, lookup_take_lt, lookup_drop.
  - replace (Z.to_nat ((Z.max 1 (Z.of_nat (i / size) + 1) - 1) *
                       Z.max 1 (Z.min 200 (Z.of_nat size))) + i mod size)%nat with i.
    + by rewrite Hrow.
    + replace (Z.max 1 (Z.of_nat (i / size) + 1) - 1) with (Z.of_nat (i / size)) by lia.
      replace (Z.max 1 (Z.min 200 (Z.of_nat size))) with (Z.of_nat size) by lia.
      rewrite <- Nat2Z.inj_mul, Nat2Z.id.
      rewrite (Nat.div_mod_eq i size) at 1. lia.
  - replace (Z.max 1 (Z.min 200 (Z.of_nat size))) with (Z.of_nat size) by lia.
    rewrite Nat2Z.id. apply Nat.mod_upper_bound. lia.
Qed.

(** Three undone jobs in pages of two: the third is the first item of
    page 2. *)
Lemma get_undone_jobs_second_page :
  ∃ pg d',
    installations_undone_py.get_undone_jobs
      (λ s, if bool_decide (s = "2") then Some 2 else None) (λ s, s) (λ s, s) Z Z (λ r, r)
      (λ _ _ _ _, [10; 20; 30])
      (<["page" := "2"]> (<["page_size" := "2"]> ∅))
      (sample_store (λ _, false)) = (Ok pg, d') ∧
    installations_undone_py.items Z pg !! (2 mod 2)%nat = Some 30.
Proof.
  apply (get_undone_jobs_pages_cover
           (λ s, if bool_decide (s = "2") then Some 2 else None) (λ s, s) (λ s, s) Z Z
           (λ r, r) (λ _ _ _ _, [10; 20; 30])
           (<["page" := "2"]> (<["page_size" := "2"]> ∅))
           (sample_store (λ _, false)) "2" "2" 2%nat 2%nat 30).
  - reflexivity.
  - reflexivity.
  - reflexivity.
  - reflexivity.
  - lia.
  - reflexivity.
Defined.
